(** * The agent registry (src/registry/registry.py)

    A shallow embedding of the registry's request handlers and of the two
    module-level dictionaries they share, [registry] and [client_registry].

    The Python code is dynamically typed and the handlers store whatever
    JSON the caller sent, so values are modelled by a small JSON type and
    every dictionary method applied to a value that is not a dictionary
    raises the exception Python raises.  Dictionaries are association
    lists in insertion order, which is the order Python iterates them in.

    Keys of the two top-level dictionaries are strings: every handler but
    [register] takes its key from the URL path, and the data model types
    [agent_id] as a string, so [register] is modelled on request bodies
    whose [agent_id], when present, is a JSON string. *)

From Stdlib Require Import String Ascii List ZArith Bool Lia.
Import ListNotations.
Open Scope string_scope.
Open Scope list_scope.

(** ** JSON values *)

#[local] Set Warnings "-register-all".

Inductive json : Type :=
| JNull
| JBool (b : bool)
| JNum (n : Z)
| JStr (s : string)
| JList (items : list json)
| JObj (fields : list (string * json)).

(** Python exceptions that the handlers can raise. *)
Inductive exn : Type := KeyError | TypeError | AttributeError.

Inductive result (A : Type) : Type :=
| Ret (a : A)
| Raise (e : exn).
Arguments Ret {A} a.
Arguments Raise {A} e.

Definition rbind {A B} (r : result A) (k : A -> result B) : result B :=
  match r with
  | Ret a => k a
  | Raise e => Raise e
  end.

Declare Scope result_scope.
Delimit Scope result_scope with result.
Notation "x <-- r ;; k" := (rbind r (fun x => k))
  (at level 61, r at next level, right associativity) : result_scope.

(** ** Insertion-ordered dictionaries with string keys *)

Module Dict.
Section Ops.
Context {V : Type}.

(** [d.get(k)] / [d[k]]: the first binding of [k]. *)
Fixpoint get (k : string) (d : list (string * V)) : option V :=
  match d with
  | [] => None
  | (k', v) :: rest => if String.eqb k' k then Some v else get k rest
  end.

(** [k in d] *)
Definition mem (k : string) (d : list (string * V)) : bool :=
  match get k d with Some _ => true | None => false end.

(** [d.get(k, dflt)] *)
Definition get_or (k : string) (dflt : V) (d : list (string * V)) : V :=
  match get k d with Some v => v | None => dflt end.

(** [d[k] = v]: an existing key keeps its position, a new key goes last. *)
Fixpoint set (k : string) (v : V) (d : list (string * V)) : list (string * V) :=
  match d with
  | [] => [(k, v)]
  | (k', v') :: rest =>
      if String.eqb k' k then (k, v) :: rest else (k', v') :: set k v rest
  end.

(** [d.pop(k, None)] *)
Definition pop (k : string) (d : list (string * V)) : list (string * V) :=
  filter (fun kv => negb (String.eqb (fst kv) k)) d.

(** [d.keys()] *)
Definition keys (d : list (string * V)) : list string := map fst d.
End Ops.
End Dict.

Definition dict : Type := list (string * json).

(** ** Python operations on JSON values *)

(** [bool(v)] *)
Definition truthy (v : json) : bool :=
  match v with
  | JNull => false
  | JBool b => b
  | JNum n => negb (Z.eqb n 0)
  | JStr s => negb (String.eqb s "")
  | JList l => match l with [] => false | _ => true end
  | JObj d => match d with [] => false | _ => true end
  end.

(** [v == s] for a Python string [s]. *)
Definition json_eq_str (s : string) (v : json) : bool :=
  match v with
  | JStr s' => String.eqb s' s
  | _ => false
  end.

Definition isinstance_list (v : json) : bool :=
  match v with JList _ => true | _ => false end.

Definition isinstance_str (v : json) : bool :=
  match v with JStr _ => true | _ => false end.

(** [needle in hay] on strings. *)
Fixpoint str_contains (needle hay : string) : bool :=
  if String.prefix needle hay then true
  else match hay with
       | EmptyString => false
       | String _ hay' => str_contains needle hay'
       end.

(** [s.split(sep)] for a one-character separator. *)
Fixpoint str_split (sep : ascii) (s : string) : list string :=
  match s with
  | EmptyString => [EmptyString]
  | String c s' =>
      if Ascii.eqb c sep then EmptyString :: str_split sep s'
      else match str_split sep s' with
           | [] => [String c EmptyString]
           | w :: ws => String c w :: ws
           end
  end.

(** [o.get(k, dflt)] *)
Definition py_get (o : json) (k : string) (dflt : json) : result json :=
  match o with
  | JObj d => Ret (Dict.get_or k dflt d)
  | _ => Raise AttributeError
  end.

(** [o[k]] *)
Definition py_getitem (o : json) (k : string) : result json :=
  match o with
  | JObj d => match Dict.get k d with
              | Some v => Ret v
              | None => Raise KeyError
              end
  | _ => Raise TypeError
  end.

(** [o[k] = v]; the result is the object after the assignment. *)
Definition py_setitem (o : json) (k : string) (v : json) : result json :=
  match o with
  | JObj d => Ret (JObj (Dict.set k v d))
  | _ => Raise TypeError
  end.

(** [o.pop(k, None)]; the result is the object after the call. *)
Definition py_pop (o : json) (k : string) : result json :=
  match o with
  | JObj d => Ret (JObj (Dict.pop k d))
  | JList _ => Raise TypeError
  | _ => Raise AttributeError
  end.

(** [o.items()] *)
Definition py_items (o : json) : result (list (string * json)) :=
  match o with
  | JObj d => Ret d
  | _ => Raise AttributeError
  end.

(** [{**o}] *)
Definition py_unpack (o : json) : result (list (string * json)) :=
  match o with
  | JObj d => Ret d
  | _ => Raise TypeError
  end.

(** [d[k]] on one of the two top-level dictionaries. *)
Definition top_getitem (d : dict) (k : string) : result json :=
  match Dict.get k d with
  | Some v => Ret v
  | None => Raise KeyError
  end.

(** [d[k]] on a top-level dictionary when the key is itself a stored
    value: lists and objects are unhashable, other non-strings are never
    keys of the dictionary. *)
Definition top_getitem_json (d : dict) (k : json) : result json :=
  match k with
  | JStr s => top_getitem d s
  | JList _ | JObj _ => Raise TypeError
  | _ => Raise KeyError
  end.

(** [o.get(k, dflt)] when the key is itself a stored value. *)
Definition py_get_json (o : json) (k : json) (dflt : json) : result json :=
  match o with
  | JObj d => match k with
              | JStr s => Ret (Dict.get_or s dflt d)
              | JList _ | JObj _ => Raise TypeError
              | _ => Ret dflt
              end
  | _ => Raise AttributeError
  end.

(** [c in container] for a Python string [c]. *)
Definition py_contains (c : string) (container : json) : result bool :=
  match container with
  | JList l => Ret (existsb (json_eq_str c) l)
  | JStr s => Ret (str_contains c s)
  | JObj d => Ret (Dict.mem c d)
  | _ => Raise TypeError
  end.

(** [any(c in container for c in cs)] *)
Fixpoint py_any_in (cs : list string) (container : json) : result bool :=
  match cs with
  | [] => Ret false
  | c :: cs' =>
      (b <-- py_contains c container ;;
       if b then Ret true else py_any_in cs' container)%result
  end.

(** [v or []] *)
Definition or_empty_list (v : json) : json :=
  if truthy v then v else JList [].

(** ** The durable store

    A collection is the list of its documents.  [update_one] models
    pymongo's [update_one({key: val}, {"$set": fields}, upsert=True)] for
    an equality filter on one string field: the first matching document
    gets the fields, and when none matches a document made of the filter
    and the fields is inserted.  Nothing else is ever called on a
    collection after start-up.  [update_one] is the write as the store
    accepts it: a write the store refuses (a value BSON cannot encode, a
    lost connection) raises inside the [try] of the save function, which
    ends its loop and leaves the collection as the writes before it
    made it. *)

Definition collection : Type := list dict.

Definition set_fields (fields : dict) (doc : dict) : dict :=
  fold_left (fun d kv => Dict.set (fst kv) (snd kv) d) fields doc.

Definition doc_matches (key val : string) (doc : dict) : bool :=
  match Dict.get key doc with
  | Some v => json_eq_str val v
  | None => false
  end.

Fixpoint update_one (key val : string) (fields : dict) (col : collection)
  : collection :=
  match col with
  | [] => [set_fields fields [(key, JStr val)]]
  | doc :: rest =>
      if doc_matches key val doc then set_fields fields doc :: rest
      else doc :: update_one key val fields rest
  end.

(** [find_one({key: val})] is used only to state properties of the store. *)
Definition find_one (key val : string) (col : collection) : option dict :=
  find (doc_matches key val) col.

(** ** Module state *)

Record state : Type := mkState {
  TEST_MODE : bool;
  USE_MONGO : bool;
  agent_registry_col : option collection;
  client_registry_col : option collection;
  registry : dict;
  client_registry : dict
}.

Definition set_registry (r : dict) (st : state) : state :=
  mkState (TEST_MODE st) (USE_MONGO st) (agent_registry_col st)
          (client_registry_col st) r (client_registry st).

Definition set_client_registry (c : dict) (st : state) : state :=
  mkState (TEST_MODE st) (USE_MONGO st) (agent_registry_col st)
          (client_registry_col st) (registry st) c.

Definition set_agent_registry_col (c : collection) (st : state) : state :=
  mkState (TEST_MODE st) (USE_MONGO st) (Some c)
          (client_registry_col st) (registry st) (client_registry st).

Definition set_client_registry_col (c : collection) (st : state) : state :=
  mkState (TEST_MODE st) (USE_MONGO st) (agent_registry_col st)
          (Some c) (registry st) (client_registry st).

(** The dictionaries as the module creates them (lines 48-49). *)
Definition initial_registry : dict := [("agent_status", JObj [])].
Definition initial_client_registry : dict := [("agent_map", JObj [])].

(** The state of a process started with [TEST_MODE=1]. *)
Definition test_mode_state : state :=
  mkState true false None None initial_registry initial_client_registry.

(** The state of a process connected to an empty database. *)
Definition connected_state : state :=
  mkState false true (Some []) (Some []) initial_registry
          initial_client_registry.

(** ** Handlers as state transformers that may raise *)

Definition M (A : Type) : Type := state -> state * result A.

Definition ret {A} (a : A) : M A := fun st => (st, Ret a).

Definition bind {A B} (m : M A) (k : A -> M B) : M B :=
  fun st =>
    match m st with
    | (st', Ret a) => k a st'
    | (st', Raise e) => (st', Raise e)
    end.

Definition lift {A} (r : result A) : M A := fun st => (st, r).
Definition read {A} (f : state -> A) : M A := fun st => (st, Ret (f st)).
Definition write (f : state -> state) : M unit := fun st => (f st, Ret tt).

Declare Scope handler_scope.
Delimit Scope handler_scope with handler.
Notation "x <- m ;; k" := (bind m (fun x => k))
  (at level 61, m at next level, right associativity) : handler_scope.
Notation "m ;; k" := (bind m (fun _ => k))
  (at level 61, right associativity) : handler_scope.

(** [for x in xs: body(x)] *)
Fixpoint for_each {A} (xs : list A) (body : A -> M unit) : M unit :=
  match xs with
  | [] => ret tt
  | x :: xs' => (body x ;; for_each xs' body)%handler
  end.

(** What the caller of a handler gets: a 200 reply, the 404 and 400
    error replies, or an exception that escaped the handler. *)
Inductive response : Type :=
| Success (body : json)
| NotFound (body : json)
| InvalidInput (body : json)
| Uncaught (e : exn).

Definition run (h : M response) (st : state) : state * response :=
  match h st with
  | (st', Ret r) => (st', r)
  | (st', Raise e) => (st', Uncaught e)
  end.

Definition run_pure (r : result response) : response :=
  match r with
  | Ret x => x
  | Raise e => Uncaught e
  end.

(** ** Persistence (lines 82-118) *)

(** The body of the [try] in [save_client_registry]; an exception ends
    the loop and leaves what was written so far. *)
Fixpoint save_client_registry_loop (creg : dict) (items : list (string * json))
  (col : collection) : collection :=
  match items with
  | [] => col
  | (client_name, api_url) :: rest =>
      if String.eqb client_name "agent_map" then
        save_client_registry_loop creg rest col
      else
        match py_get (Dict.get_or "agent_map" (JObj []) creg) client_name JNull with
        | Ret agent_id =>
            save_client_registry_loop creg rest
              (update_one "client_name" client_name
                 [("api_url", api_url); ("agent_id", agent_id)] col)
        | Raise _ => col
        end
  end.

Definition save_client_registry : M unit :=
  fun st =>
    match client_registry_col st with
    | Some col =>
        if TEST_MODE st || negb (USE_MONGO st) then (st, Ret tt)
        else
          (set_client_registry_col
             (save_client_registry_loop (client_registry st)
                (client_registry st) col) st, Ret tt)
    | None => (st, Ret tt)
    end.

(** [{"agent_id": agent_id, "agent_url": agent_url, **status}] *)
Definition mongo_doc (agent_id : string) (agent_url : json) (status : dict)
  : dict :=
  set_fields status [("agent_id", JStr agent_id); ("agent_url", agent_url)].

Fixpoint save_registry_loop (reg : dict) (items : list (string * json))
  (col : collection) : collection :=
  match items with
  | [] => col
  | (agent_id, agent_url) :: rest =>
      if String.eqb agent_id "agent_status" then
        save_registry_loop reg rest col
      else
        match (status <-- py_get (Dict.get_or "agent_status" (JObj []) reg)
                                 agent_id (JObj []) ;;
               py_unpack status)%result with
        | Ret status =>
            save_registry_loop reg rest
              (update_one "agent_id" agent_id
                 (mongo_doc agent_id agent_url status) col)
        | Raise _ => col
        end
  end.

Definition save_registry : M unit :=
  fun st =>
    match agent_registry_col st with
    | Some col =>
        if TEST_MODE st || negb (USE_MONGO st) then (st, Ret tt)
        else
          (set_agent_registry_col
             (save_registry_loop (registry st) (registry st) col) st, Ret tt)
    | None => (st, Ret tt)
    end.

(** ** Read handlers *)

(** [_build_agent_payload] (lines 146-159) *)
Definition _build_agent_payload (reg : dict) (agent_id : string) : result json :=
  (let agent_url := Dict.get_or agent_id JNull reg in
   status_obj <-- py_get (Dict.get_or "agent_status" (JObj []) reg)
                         agent_id (JObj []) ;;
   api_url <-- py_get status_obj "api_url" JNull ;;
   alive <-- py_get status_obj "alive" (JBool false) ;;
   assigned_to <-- py_get status_obj "assigned_to" JNull ;;
   last_update <-- py_get status_obj "last_update" JNull ;;
   capabilities <-- py_get status_obj "capabilities" (JList []) ;;
   tags <-- py_get status_obj "tags" (JList []) ;;
   description <-- py_get status_obj "description" (JStr "") ;;
   Ret (JObj [("agent_id", JStr agent_id);
              ("agent_url", agent_url);
              ("api_url", api_url);
              ("alive", alive);
              ("assigned_to", assigned_to);
              ("last_update", last_update);
              ("capabilities", capabilities);
              ("tags", tags);
              ("description", description)]))%result.

Definition not_found_body : json := JObj [("error", JStr "Agent not found")].

(** [get_agent] (lines 195-199) *)
Definition get_agent (st : state) (agent_id : string) : response :=
  if negb (Dict.mem agent_id (registry st)) || String.eqb agent_id "agent_status"
  then NotFound not_found_body
  else run_pure (payload <-- _build_agent_payload (registry st) agent_id ;;
                 Ret (Success payload))%result.

(** [lookup] (lines 284-311) *)
Definition lookup (st : state) (id : string) : response :=
  let reg := registry st in
  let creg := client_registry st in
  if Dict.mem id reg && negb (String.eqb id "agent_status") then
    run_pure
      (agent_url <-- top_getitem reg id ;;
       status_map <-- top_getitem reg "agent_status" ;;
       status_obj <-- py_get status_map id (JObj []) ;;
       api_url <-- py_get status_obj "api_url" JNull ;;
       description <-- py_get status_obj "description" (JStr "") ;;
       Ret (Success (JObj [("agent_id", JStr id);
                           ("agent_url", agent_url);
                           ("api_url", api_url);
                           ("description", description)])))%result
  else if Dict.mem id creg then
    run_pure
      (agent_map <-- top_getitem creg "agent_map" ;;
       agent_id <-- py_getitem agent_map id ;;
       agent_url <-- top_getitem_json reg agent_id ;;
       api_url <-- top_getitem creg id ;;
       status_map <-- top_getitem reg "agent_status" ;;
       status_obj <-- py_get_json status_map agent_id (JObj []) ;;
       description <-- py_get status_obj "description" (JStr "") ;;
       Ret (Success (JObj [("agent_id", agent_id);
                           ("agent_url", agent_url);
                           ("api_url", api_url);
                           ("description", description)])))%result
  else
    NotFound (JObj [("error", JStr ("ID '" ++ id ++ "' not found"))]).

(** [search_agents] (lines 162-192).  [str_lower] and [str_strip] stand
    for Python's [str.lower] and [str.strip]; nothing below depends on
    what they do to a string. *)
Section Search.
Variable str_lower : string -> string.
Variable str_strip : string -> string.

(** [[c.strip() for c in f.split(',')] if f else []] *)
Definition filter_list (f : option string) : list string :=
  match f with
  | Some s => if truthy (JStr s) then map str_strip (str_split "," s) else []
  | None => []
  end.

(** One of the two filter blocks of the loop body: [true] when the
    agent passes, that is when the [continue] is not taken. *)
Definition passes_filter (field : string) (wanted : list string)
  (payload : json) : result bool :=
  match wanted with
  | [] => Ret true
  | _ :: _ =>
      (field_value <-- py_get payload field (JList []) ;;
       py_any_in wanted (or_empty_list field_value))%result
  end.

Fixpoint search_loop (reg : dict) (query : string)
  (capabilities_list tags_list : list string) (agent_ids : list string)
  (results : list json) : result (list json) :=
  match agent_ids with
  | [] => Ret results
  | agent_id :: rest =>
      let continue := search_loop reg query capabilities_list tags_list rest in
      if String.eqb agent_id "agent_status" then continue results
      else if truthy (JStr query)
              && negb (str_contains query (str_lower agent_id))
      then continue results
      else
        (payload <-- _build_agent_payload reg agent_id ;;
         caps_ok <-- passes_filter "capabilities" capabilities_list payload ;;
         if negb caps_ok then continue results
         else
           tags_ok <-- passes_filter "tags" tags_list payload ;;
           if negb tags_ok then continue results
           else continue (results ++ [payload]))%result
  end.

Definition search_agents (st : state) (q capabilities tags : option string)
  : response :=
  let query :=
    str_lower (str_strip (match q with Some s => s | None => "" end)) in
  let capabilities_list := filter_list capabilities in
  let tags_list := filter_list tags in
  run_pure
    (results <-- search_loop (registry st) query capabilities_list tags_list
                             (Dict.keys (registry st)) [] ;;
     Ret (Success (JList results)))%result.
End Search.

(** ** Mutating handlers

    Each takes the value [datetime.now().isoformat()] would give as the
    argument [now]. *)

(** The body of the loop of lines 216-218. *)
Definition remove_alias (client_name : string) : M unit :=
  (creg <- read client_registry ;;
   write (set_client_registry (Dict.pop client_name creg)) ;;
   creg <- read client_registry ;;
   match Dict.get "agent_map" creg with
   | Some agent_map =>
       agent_map' <- lift (py_pop agent_map client_name) ;;
       write (set_client_registry (Dict.set "agent_map" agent_map' creg))
   | None => ret tt
   end)%handler.

Definition deleted_body (agent_id : string) : json :=
  JObj [("status", JStr "deleted"); ("agent_id", JStr agent_id)].

(** [delete_agent] (lines 202-223).  The two [pop]s on the sub-maps
    mutate them in place; the model writes the popped sub-map back
    under its key. *)
Definition delete_agent (agent_id : string) : M response :=
  (reg <- read registry ;;
   if negb (Dict.mem agent_id reg) || String.eqb agent_id "agent_status" then
     ret (NotFound not_found_body)
   else
     write (set_registry (Dict.pop agent_id reg)) ;;
     reg <- read registry ;;
     match Dict.get "agent_status" reg with
     | Some status_map =>
         status_map' <- lift (py_pop status_map agent_id) ;;
         write (set_registry (Dict.set "agent_status" status_map' reg))
     | None => ret tt
     end ;;
     creg <- read client_registry ;;
     items <- lift (py_items (Dict.get_or "agent_map" (JObj []) creg)) ;;
     let to_remove :=
       map fst (filter (fun kv => json_eq_str agent_id (snd kv)) items) in
     for_each to_remove remove_alias ;;
     save_registry ;;
     save_client_registry ;;
     ret (Success (deleted_body agent_id)))%handler.

(** [if key in data and guard(data[key]): status_obj[key] = conv(data[key])] *)
Definition merge_field (data : dict) (key : string) (guard : json -> bool)
  (conv : json -> json) (status_obj : json) : result json :=
  match Dict.get key data with
  | Some v => if guard v then py_setitem status_obj key (conv v)
              else Ret status_obj
  | None => Ret status_obj
  end.

(** [update_agent_status] (lines 226-251); [data] is [request.json or {}].
    Python mutates the stored status dictionary in place before line 248
    stores it again.  No statement between the first assignment and
    line 248 can raise once the first has gone through, so threading the
    updated value and writing it at line 248 shows the same states. *)
Definition update_agent_status (now : string) (agent_id : string) (data : dict)
  : M response :=
  (reg <- read registry ;;
   if negb (Dict.mem agent_id reg) || String.eqb agent_id "agent_status" then
     ret (NotFound not_found_body)
   else
     status_obj <- lift (py_get (Dict.get_or "agent_status" (JObj []) reg)
                                agent_id (JObj [])) ;;
     status_obj <- lift (merge_field data "alive" (fun _ => true)
                           (fun v => JBool (truthy v)) status_obj) ;;
     status_obj <- lift (merge_field data "assigned_to" (fun _ => true)
                           (fun v => v) status_obj) ;;
     status_obj <- lift (py_setitem status_obj "last_update" (JStr now)) ;;
     status_obj <- lift (merge_field data "capabilities" isinstance_list
                           (fun v => v) status_obj) ;;
     status_obj <- lift (merge_field data "tags" isinstance_list
                           (fun v => v) status_obj) ;;
     status_obj <- lift (merge_field data "description" isinstance_str
                           (fun v => v) status_obj) ;;
     status_map <- lift (top_getitem reg "agent_status") ;;
     status_map' <- lift (py_setitem status_map agent_id status_obj) ;;
     write (set_registry (Dict.set "agent_status" status_map' reg)) ;;
     save_registry ;;
     reg <- read registry ;;
     payload <- lift (_build_agent_payload reg agent_id) ;;
     ret (Success (JObj [("status", JStr "updated"); ("agent", payload)])))%handler.

(** The JSON body of a registration request. *)
Record register_body : Type := mkBody {
  body_agent_id : option string;
  body_agent_url : option json;
  body_api_url : option json;
  body_description : option json
}.

(** The acknowledgment of [register]. *)
Definition ack (agent_id : string) : json :=
  JObj [("status", JStr "success");
        ("message", JStr ("Agent " ++ agent_id ++ " registered"))].

Definition missing_body : json :=
  JObj [("error", JStr "Missing agent_id or agent_url")].

(** [register] (lines 254-281); [data] is [request.json], [None] when the
    body is the JSON null.  An empty object lacks both keys, so the test
    [not data] adds nothing to the two key tests for an object. *)
Definition register (now : string) (data : option register_body) : M response :=
  match data with
  | None => ret (InvalidInput missing_body)
  | Some data =>
      match body_agent_id data, body_agent_url data with
      | Some agent_id, Some agent_url =>
          (let api_url :=
             match body_api_url data with Some v => v | None => JNull end in
           let description :=
             match body_description data with Some v => v | None => JStr "" end in
           reg <- read registry ;;
           write (set_registry (Dict.set agent_id agent_url reg)) ;;
           reg <- read registry ;;
           (if negb (Dict.mem "agent_status" reg) then
              write (set_registry (Dict.set "agent_status" (JObj []) reg))
            else ret tt) ;;
           reg <- read registry ;;
           status_map <- lift (top_getitem reg "agent_status") ;;
           status_map' <- lift (py_setitem status_map agent_id
                                  (JObj [("alive", JBool false);
                                         ("assigned_to", JNull);
                                         ("api_url", api_url);
                                         ("description", description);
                                         ("last_update", JStr now)])) ;;
           write (set_registry (Dict.set "agent_status" status_map' reg)) ;;
           save_registry ;;
           ret (Success (ack agent_id)))%handler
      | _, _ => ret (InvalidInput missing_body)
      end
  end.

(** ** The remaining read handlers *)

(** [health] (lines 121-127) *)
Definition health (now : string) (st : state) : response :=
  Success (JObj [("status", JStr "ok");
                 ("mongo", JBool (USE_MONGO st && negb (TEST_MODE st)));
                 ("timestamp", JStr now)]).

(** [sum(1 for a in agents if status_map.get(a, {}).get('alive'))], where
    [status_map] is [registry['agent_status']] (line 136). *)
Fixpoint count_alive (status_map : json) (agents : list string) : result nat :=
  match agents with
  | [] => Ret 0
  | a :: rest =>
      (status_obj <-- py_get status_map a (JObj []) ;;
       alive <-- py_get status_obj "alive" JNull ;;
       n <-- count_alive status_map rest ;;
       Ret (if truthy alive then S n else n))%result
  end.

Definition stats_body (total_agents alive_agents total_clients : nat)
  (mongodb_enabled : bool) : json :=
  JObj [("total_agents", JNum (Z.of_nat total_agents));
        ("alive_agents", JNum (Z.of_nat alive_agents));
        ("total_clients", JNum (Z.of_nat total_clients));
        ("mongodb_enabled", JBool mongodb_enabled)].

(** [stats] (lines 130-143) *)
Definition stats (st : state) : response :=
  let agents :=
    filter (fun a => negb (String.eqb a "agent_status")) (Dict.keys (registry st)) in
  let total_agents := length agents in
  run_pure
    (alive_agents <--
       (if Dict.mem "agent_status" (registry st) then
          count_alive (Dict.get_or "agent_status" JNull (registry st)) agents
        else Ret 0) ;;
     let total_clients :=
       length (filter (fun c => negb (String.eqb c "agent_map"))
                 (Dict.keys (client_registry st))) in
     Ret (Success (stats_body total_agents alive_agents total_clients
                     (USE_MONGO st && negb (TEST_MODE st)))))%result.

(** [list_agents] (lines 314-317).  The comprehension visits the entries
    in order and the keys of a dictionary are distinct, so its result is
    the entries that pass the test, in order. *)
Definition list_agents (st : state) : response :=
  Success (JObj (filter (fun kv => negb (String.eqb (fst kv) "agent_status"))
                   (registry st))).

(** [list_clients] (lines 320-323) *)
Definition list_clients (st : state) : response :=
  Success (JObj (map (fun k => (k, JStr "alive"))
                   (filter (fun k => negb (String.eqb k "agent_map"))
                      (Dict.keys (client_registry st))))).

(** ** Start-up (lines 7-79)

    The two loading loops run inside [try]: an exception ends the loop
    and keeps what was loaded so far.  A document whose id is a number
    or [true] would become a key that is not a string; the loops are
    modelled up to such a document, where they give [None]. *)

(** The status record line 58 builds from a document. *)
Definition loaded_status (doc : dict) : dict :=
  [("alive", Dict.get_or "alive" (JBool false) doc);
   ("assigned_to", Dict.get_or "assigned_to" JNull doc);
   ("last_update", Dict.get_or "last_update" JNull doc);
   ("api_url", Dict.get_or "api_url" JNull doc);
   ("description", Dict.get_or "description" (JStr "") doc)].

(** The loop of lines 53-64. *)
Fixpoint load_agents_loop (docs : list dict) (reg : dict) : option dict :=
  match docs with
  | [] => Some reg
  | doc :: rest =>
      let agent_id := Dict.get_or "agent_id" JNull doc in
      if negb (truthy agent_id) then load_agents_loop rest reg
      else
        match agent_id with
        | JStr id =>
            let reg1 := Dict.set id (Dict.get_or "agent_url" JNull doc) reg in
            match (status_map <-- top_getitem reg1 "agent_status" ;;
                   py_setitem status_map id (JObj (loaded_status doc)))%result with
            | Ret status_map' =>
                load_agents_loop rest (Dict.set "agent_status" status_map' reg1)
            | Raise _ => Some reg1
            end
        | JList _ | JObj _ => Some reg
        | _ => None
        end
  end.

(** The loop of lines 71-76. *)
Fixpoint load_clients_loop (docs : list dict) (creg : dict) : option dict :=
  match docs with
  | [] => Some creg
  | doc :: rest =>
      let client_name := Dict.get_or "client_name" JNull doc in
      if negb (truthy client_name) then load_clients_loop rest creg
      else
        match client_name with
        | JStr name =>
            let creg1 := Dict.set name (Dict.get_or "api_url" JNull doc) creg in
            match (agent_map <-- top_getitem creg1 "agent_map" ;;
                   py_setitem agent_map name
                     (Dict.get_or "agent_id" JNull doc))%result with
            | Ret agent_map' =>
                load_clients_loop rest (Dict.set "agent_map" agent_map' creg1)
            | Raise _ => Some creg1
            end
        | JList _ | JObj _ => Some creg
        | _ => None
        end
  end.

(** The module body: [test_mode] is [TEST_MODE], and [mongo] is what the
    two collections hold when the ping of line 23 succeeds, [None] when
    it raises. *)
Definition startup (test_mode : bool) (mongo : option (collection * collection))
  : option state :=
  if test_mode then
    Some (mkState true false None None initial_registry initial_client_registry)
  else
    match mongo with
    | None =>
        Some (mkState false false None None initial_registry
                initial_client_registry)
    | Some (agents, clients) =>
        match load_agents_loop agents initial_registry,
              load_clients_loop clients initial_client_registry with
        | Some reg, Some creg =>
            Some (mkState false true (Some agents) (Some clients) reg creg)
        | _, _ => None
        end
    end.

(** ** Vocabulary used by the statements *)

(** [id] names an Agent Record: it is a key of [registry] other than the
    key that holds the status sub-map. *)
Definition is_agent (st : state) (id : string) : bool :=
  Dict.mem id (registry st) && negb (String.eqb id "agent_status").

(** The agent ids of the directory, in iteration order. *)
Definition agent_ids (reg : dict) : list string :=
  filter (fun k => negb (String.eqb k "agent_status")) (Dict.keys reg).

(** The status record stored for [id], empty when there is none. *)
Definition status_of (reg : dict) (id : string) : dict :=
  match Dict.get "agent_status" reg with
  | Some (JObj status_map) =>
      match Dict.get id status_map with
      | Some (JObj status_obj) => status_obj
      | _ => []
      end
  | _ => []
  end.

Definition json_keys (v : json) : list string :=
  match v with
  | JObj d => Dict.keys d
  | _ => []
  end.

Definition json_field (f : string) (v : json) : option json :=
  match v with
  | JObj d => Dict.get f d
  | _ => None
  end.

(** Field [f] of the view a handler replied with. *)
Definition view_field (f : string) (r : response) : option json :=
  match r with
  | Success v => json_field f v
  | _ => None
  end.

Definition lookup_fields : list string :=
  ["agent_id"; "agent_url"; "api_url"; "description"].

Definition full_view_fields : list string :=
  ["agent_id"; "agent_url"; "api_url"; "alive"; "assigned_to"; "last_update";
   "capabilities"; "tags"; "description"].

(** The reply of [lookup] for agent id [agent_id] reached directly or
    through an alias whose endpoint is [api_url]. *)
Definition lookup_view (agent_id agent_url api_url description : json) : json :=
  JObj [("agent_id", agent_id); ("agent_url", agent_url);
        ("api_url", api_url); ("description", description)].

(** [_build_agent_payload] in terms of the stored status record. *)
Definition full_view (reg : dict) (id : string) : json :=
  let so := status_of reg id in
  JObj [("agent_id", JStr id);
        ("agent_url", Dict.get_or id JNull reg);
        ("api_url", Dict.get_or "api_url" JNull so);
        ("alive", Dict.get_or "alive" (JBool false) so);
        ("assigned_to", Dict.get_or "assigned_to" JNull so);
        ("last_update", Dict.get_or "last_update" JNull so);
        ("capabilities", Dict.get_or "capabilities" (JList []) so);
        ("tags", Dict.get_or "tags" (JList []) so);
        ("description", Dict.get_or "description" (JStr "") so)].

(** The record [register] stores under the status sub-map. *)
Definition fresh_status (api_url description : json) (now : string) : dict :=
  [("alive", JBool false); ("assigned_to", JNull); ("api_url", api_url);
   ("description", description); ("last_update", JStr now)].

Definition body_api_url_or_null (d : register_body) : json :=
  match body_api_url d with Some v => v | None => JNull end.

Definition body_description_or_empty (d : register_body) : json :=
  match body_description d with Some v => v | None => JStr "" end.

(** The effect of one guarded assignment of [update_agent_status] on a
    status record. *)
Definition merge_field_dict (data : dict) (key : string) (guard : json -> bool)
  (conv : json -> json) (so : dict) : dict :=
  match Dict.get key data with
  | Some v => if guard v then Dict.set key (conv v) so else so
  | None => so
  end.

(** The status record after lines 234-246. *)
Definition merged_status (now : string) (data : dict) (so : dict) : dict :=
  merge_field_dict data "description" isinstance_str (fun v => v)
    (merge_field_dict data "tags" isinstance_list (fun v => v)
       (merge_field_dict data "capabilities" isinstance_list (fun v => v)
          (Dict.set "last_update" (JStr now)
             (merge_field_dict data "assigned_to" (fun _ => true) (fun v => v)
                (merge_field_dict data "alive" (fun _ => true)
                   (fun v => JBool (truthy v)) so))))).

(** Number of documents of a collection that may be absent. *)
Definition count_docs (c : option collection) : nat :=
  match c with Some docs => length docs | None => 0 end.

(** What the cache looks like after a deletion that went through. *)
Definition deleted_from_cache (id : string) (st st' : state) : Prop :=
  Dict.get id (registry st') = None
  /\ (forall sm, Dict.get "agent_status" (registry st') = Some (JObj sm) ->
                 Dict.get id sm = None)
  /\ (forall am c x, Dict.get "agent_map" (client_registry st') = Some (JObj am) ->
                     In (c, x) am -> json_eq_str id x = false)
  /\ (forall am0 c x, Dict.get "agent_map" (client_registry st) = Some (JObj am0) ->
                      In (c, x) am0 -> json_eq_str id x = true ->
                      Dict.get c (client_registry st') = None).

(** ** Well-formed caches *)

(** The shape every handler leaves the status sub-map in: a dictionary of
    dictionaries whose [capabilities] and [tags], when stored, are lists. *)
Definition list_or_absent (v : option json) : bool :=
  match v with
  | Some x => isinstance_list x
  | None => true
  end.

Definition wf_status_obj (v : json) : bool :=
  match v with
  | JObj so => list_or_absent (Dict.get "capabilities" so)
               && list_or_absent (Dict.get "tags" so)
  | _ => false
  end.

Definition wf_registry (reg : dict) : bool :=
  match Dict.get "agent_status" reg with
  | Some (JObj status_map) => forallb (fun kv => wf_status_obj (snd kv)) status_map
  | _ => false
  end.

(** The alias map is a dictionary. *)
Definition wf_client_registry (creg : dict) : bool :=
  match Dict.get "agent_map" creg with
  | Some (JObj _) => true
  | _ => false
  end.

(** The alias map of [creg] holds only entries of [am0] whose client name
    is not [gone]; it may have been removed altogether. *)
Definition alias_inv (am0 : dict) (gone : string -> Prop) (creg : dict) : Prop :=
  match Dict.get "agent_map" creg with
  | None => True
  | Some v => exists am, v = JObj am
                         /\ forall c x, In (c, x) am -> In (c, x) am0 /\ ~ gone c
  end.

(** One request to a mutating handler; [register] is left out for the
    reserved name, where it has no guard. *)
Inductive request_step (st : state) : state -> Prop :=
| step_register now d :
    body_agent_id d <> Some "agent_status" ->
    request_step st (fst (run (register now (Some d)) st))
| step_register_no_body now :
    request_step st (fst (run (register now None) st))
| step_update now id data :
    request_step st (fst (run (update_agent_status now id data) st))
| step_delete id :
    request_step st (fst (run (delete_agent id) st)).

(** ** The search law in the words of the specification *)

(** The values stored in a list-valued field of an agent's record. *)
Definition agent_field_values (reg : dict) (field : string) (id : string)
  : list json :=
  match Dict.get field (status_of reg id) with
  | Some (JList l) => l
  | _ => []
  end.

(** Some wanted value is among the stored values. *)
Definition intersects (values : list json) (wanted : list string) : bool :=
  existsb (fun w => existsb (json_eq_str w) values) wanted.

Section SearchLaw.
Variable str_lower : string -> string.
Variable str_strip : string -> string.

(** The name predicate: no query, or the query, trimmed as the handler
    reads it, occurs in the agent id when case is ignored. *)
Definition name_matches (q : option string) (agent_id : string) : bool :=
  let query :=
    str_lower (str_strip (match q with Some s => s | None => "" end)) in
  String.eqb query "" || str_contains query (str_lower agent_id).

(** A filter predicate: no filter, or the stored values intersect the
    comma-separated values of the filter. *)
Definition filter_matches (f : option string) (values : list json) : bool :=
  match f with
  | None => true
  | Some s =>
      if String.eqb s "" then true
      else intersects values (map str_strip (str_split "," s))
  end.

Definition matches (reg : dict) (q capabilities tags : option string)
  (id : string) : bool :=
  name_matches q id
  && filter_matches capabilities (agent_field_values reg "capabilities" id)
  && filter_matches tags (agent_field_values reg "tags" id).

(** The agents that satisfy the three predicates, as full views. *)
Definition search_law (reg : dict) (q capabilities tags : option string)
  : list json :=
  map (full_view reg) (filter (matches reg q capabilities tags) (agent_ids reg)).
End SearchLaw.

(** ** Example states *)

(** A registration request with the two required fields only. *)
Definition request (agent_id agent_url : string) : option register_body :=
  Some (mkBody (Some agent_id) (Some (JStr agent_url)) None None).

(** Agent Record A1 with agent_url U and its own api_url W, and the
    Client Alias Record (C1, A1, V), as the start-up loops of lines 51-79
    build them from one document of each collection. *)
Definition alias_state : state :=
  mkState false true
    (Some [[("agent_id", JStr "A1"); ("agent_url", JStr "U");
            ("api_url", JStr "W")]])
    (Some [[("client_name", JStr "C1"); ("agent_id", JStr "A1");
            ("api_url", JStr "V")]])
    [("agent_status",
      JObj [("A1", JObj [("alive", JBool false); ("assigned_to", JNull);
                         ("last_update", JNull); ("api_url", JStr "W");
                         ("description", JStr "")])]);
     ("A1", JStr "U")]
    [("agent_map", JObj [("C1", JStr "A1")]); ("C1", JStr "V")].

(** The cache after start-up when the client collection holds one alias
    (C1, ghost, V) and the agent collection holds no agent named ghost. *)
Definition dangling_state : state :=
  mkState false true
    (Some [])
    (Some [[("client_name", JStr "C1"); ("agent_id", JStr "ghost");
            ("api_url", JStr "V")]])
    initial_registry
    [("agent_map", JObj [("C1", JStr "ghost")]); ("C1", JStr "V")].

(** A connected process after [register("a1", "http://a")] at time t0 and
    [update_status("a1", {alive, capabilities: [x], tags: [z]})] at t1. *)
Definition announced_state : state :=
  fst (run (update_agent_status "t1" "a1"
              [("alive", JBool true); ("capabilities", JList [JStr "x"]);
               ("tags", JList [JStr "z"])])
         (fst (run (register "t0" (request "a1" "http://a")) connected_state))).

(** A process in test mode after [register("a1", "http://a")] at t0 and
    [update_status("a1", {capabilities: [x], tags: [z], description: d})]
    at t1; a1 has not announced itself alive. *)
Definition described_state : state :=
  fst (run (update_agent_status "t1" "a1"
              [("capabilities", JList [JStr "x"]); ("tags", JList [JStr "z"]);
               ("description", JStr "d")])
         (fst (run (register "t0" (request "a1" "http://a")) test_mode_state))).

(** A connected process whose store holds agent a1, registered at t0, and
    the alias (c1, a1, http://c), and whose cache is what the start-up
    loops of lines 51-79 build from these two documents. *)
Definition persisted_state : state :=
  mkState false true
    (Some [[("agent_id", JStr "a1"); ("agent_url", JStr "http://a");
            ("alive", JBool false); ("assigned_to", JNull);
            ("api_url", JNull); ("description", JStr "");
            ("last_update", JStr "t0")]])
    (Some [[("client_name", JStr "c1"); ("api_url", JStr "http://c");
            ("agent_id", JStr "a1")]])
    [("agent_status",
      JObj [("a1", JObj [("alive", JBool false); ("assigned_to", JNull);
                         ("last_update", JStr "t0"); ("api_url", JNull);
                         ("description", JStr "")])]);
     ("a1", JStr "http://a")]
    [("agent_map", JObj [("c1", JStr "a1")]); ("c1", JStr "http://c")].

(** [str.lower] and [str.strip] on ASCII text, for the examples. *)
Definition lower_char (c : ascii) : ascii :=
  let n := nat_of_ascii c in
  if Nat.leb 65 n && Nat.leb n 90 then ascii_of_nat (n + 32) else c.

Fixpoint ascii_lower (s : string) : string :=
  match s with
  | EmptyString => EmptyString
  | String c s' => String (lower_char c) (ascii_lower s')
  end.

Definition is_space (c : ascii) : bool :=
  let n := nat_of_ascii c in
  Nat.eqb n 32 || (Nat.leb 9 n && Nat.leb n 13) || (Nat.leb 28 n && Nat.leb n 31).

Fixpoint drop_spaces (cs : list ascii) : list ascii :=
  match cs with
  | [] => []
  | c :: cs' => if is_space c then drop_spaces cs' else cs
  end.

Definition ascii_strip (s : string) : string :=
  string_of_list_ascii
    (rev (drop_spaces (rev (drop_spaces (list_ascii_of_string s))))).

(** Three agents: agentA offers x and is tagged z, agentB offers y and is
    tagged w, agentC offers q and is tagged z. *)
Definition three_agents_state : state :=
  let reg id := fun st => fst (run (register "t0" (request id ("http://" ++ id))) st) in
  let upd id c t := fun st =>
    fst (run (update_agent_status "t1" id
                [("alive", JBool true); ("capabilities", JList [JStr c]);
                 ("tags", JList [JStr t])]) st) in
  upd "agentC" "q" "z"
    (upd "agentB" "y" "w"
       (upd "agentA" "x" "z"
          (reg "agentC" (reg "agentB" (reg "agentA" test_mode_state))))).

(** ** Vocabulary for the properties beyond the claims *)

(** The handler [m] keeps [I] from state [st], whatever it replies. *)
Definition keeps_at {A} (I : state -> Prop) (m : M A) (st : state) : Prop :=
  I st -> I (fst (m st)).

Definition keeps {A} (I : state -> Prop) (m : M A) : Prop :=
  forall st, keeps_at I m st.

(** The store is switched off: both save functions return at once. *)
Definition store_off (st : state) : bool :=
  TEST_MODE st || negb (USE_MONGO st).

(** The names [list_clients] and [stats] count as clients. *)
Definition client_names (creg : dict) : list string :=
  filter (fun c => negb (String.eqb c "agent_map")) (Dict.keys creg).

(** The stored alive flag of an agent, as [stats] reads it. *)
Definition alive_of (reg : dict) (id : string) : bool :=
  truthy (Dict.get_or "alive" JNull (status_of reg id)).

Definition alive_ids (reg : dict) : list string :=
  filter (alive_of reg) (agent_ids reg).

(** A number field of a reply, as a natural number. *)
Definition count_field (f : string) (r : response) : option nat :=
  match view_field f r with
  | Some (JNum n) => Some (Z.to_nat n)
  | _ => None
  end.

(** The two collections of the store. *)
Definition collections (st : state) : option collection * option collection :=
  (agent_registry_col st, client_registry_col st).

(** The number of entries of a reply that is an object. *)
Definition reply_size (r : response) : option nat :=
  match r with
  | Success (JObj d) => Some (length d)
  | _ => None
  end.

(** The string under which a loading loop files a document: the value
    of [field] when it is a non-empty string. *)
Definition doc_id (field : string) (doc : dict) : option string :=
  match Dict.get_or field JNull doc with
  | JStr s => if String.eqb s "" then None else Some s
  | _ => None
  end.

Definition doc_ids (field : string) (docs : list dict) : list string :=
  flat_map (fun doc => match doc_id field doc with
                       | Some s => [s]
                       | None => []
                       end) docs.

(** A document that a loading loop either skips (no id, or a falsy one)
    or files under a string other than [reserved]. *)
Definition loadable_doc (field reserved : string) (doc : dict) : bool :=
  let v := Dict.get_or field JNull doc in
  negb (truthy v)
  || match v with
     | JStr s => negb (String.eqb s reserved)
     | _ => false
     end.

(** No document is filed under the reserved key. *)
Definition no_reserved_doc (field reserved : string) (docs : list dict) : bool :=
  forallb (fun doc => negb (json_eq_str reserved (Dict.get_or field JNull doc)))
    docs.

Fixpoint uniqueb (l : list string) : bool :=
  match l with
  | [] => true
  | x :: rest => negb (existsb (String.eqb x) rest) && uniqueb rest
  end.

(** A status record without capabilities and tags. *)
Definition bare_record (v : json) : bool :=
  match v with
  | JObj so => negb (Dict.mem "capabilities" so) && negb (Dict.mem "tags" so)
  | _ => false
  end.

(** Every status record of the directory is bare. *)
Definition bare_registry (reg : dict) : bool :=
  match Dict.get "agent_status" reg with
  | Some (JObj status_map) => forallb (fun kv => bare_record (snd kv)) status_map
  | _ => false
  end.

(** The documents a connected process leaves in the store. *)
Definition stored_agents (st : state) : collection :=
  match agent_registry_col st with Some c => c | None => [] end.

Definition stored_clients (st : state) : collection :=
  match client_registry_col st with Some c => c | None => [] end.

(** A new process started over the store that [st] leaves behind. *)
Definition restart (st : state) : option state :=
  startup false (Some (stored_agents st, stored_clients st)).

(** A store whose documents the loading loops can file one by one:
    string ids, distinct within a collection, none of them a reserved
    key. *)
Definition loadable_store (agents clients : collection) : bool :=
  forallb (loadable_doc "agent_id" "agent_status") agents
  && uniqueb (doc_ids "agent_id" agents)
  && forallb (loadable_doc "client_name" "agent_map") clients
  && uniqueb (doc_ids "client_name" clients).

(** The view of an agent as loaded from its document. *)
Definition loaded_view (id : string) (doc : dict) : json :=
  JObj [("agent_id", JStr id);
        ("agent_url", Dict.get_or "agent_url" JNull doc);
        ("api_url", Dict.get_or "api_url" JNull doc);
        ("alive", Dict.get_or "alive" (JBool false) doc);
        ("assigned_to", Dict.get_or "assigned_to" JNull doc);
        ("last_update", Dict.get_or "last_update" JNull doc);
        ("capabilities", JList []);
        ("tags", JList []);
        ("description", Dict.get_or "description" (JStr "") doc)].

(** A status record that names neither field of its document's key
    pair, and has no key twice. *)
Definition plain_record (v : json) : bool :=
  match v with
  | JObj so => negb (Dict.mem "agent_id" so) && negb (Dict.mem "agent_url" so)
               && uniqueb (Dict.keys so)
  | _ => true
  end.

(** A cache as the handlers and the start-up loop build it: well formed,
    no key twice, every status record plain. *)
Definition clean_registry (reg : dict) : bool :=
  wf_registry reg
  && uniqueb (Dict.keys reg)
  && match Dict.get "agent_status" reg with
     | Some (JObj status_map) =>
         forallb (fun kv => plain_record (snd kv)) status_map
     | _ => true
     end.

(** The alias map is a dictionary and holds no alias under the name of
    its own key. *)
Definition clean_client_registry (creg : dict) : bool :=
  match Dict.get "agent_map" creg with
  | Some (JObj agent_map) => negb (Dict.mem "agent_map" agent_map)
  | _ => false
  end.

Definition clean_cache (st : state) : bool :=
  clean_registry (registry st) && clean_client_registry (client_registry st).

(** The store holds no document under a reserved key. *)
Definition no_reserved_docs (mongo : option (collection * collection)) : bool :=
  match mongo with
  | Some (agents, clients) =>
      no_reserved_doc "agent_id" "agent_status" agents
      && no_reserved_doc "client_name" "agent_map" clients
  | None => true
  end.

(** The states of a process: what start-up leaves, and then what each
    request to a mutating handler leaves. *)
Inductive reachable : state -> Prop :=
| reach_startup test_mode mongo st :
    no_reserved_docs mongo = true ->
    startup test_mode mongo = Some st ->
    reachable st
| reach_request st st' :
    reachable st -> request_step st st' -> reachable st'.


(** ** Facts about dictionaries *)

Section DictFacts.
Context {V : Type}.
Implicit Types (d : list (string * V)) (k : string) (v : V).

Lemma get_set_same k v d : Dict.get k (Dict.set k v d) = Some v.
Proof.
  induction d as [|[k' v'] d IH]; simpl.
  - now rewrite String.eqb_refl.
  - destruct (String.eqb k' k) eqn:E; simpl.
    + now rewrite String.eqb_refl.
    + now rewrite E.
Qed.

Lemma get_set_other k k' v d :
  k' <> k -> Dict.get k' (Dict.set k v d) = Dict.get k' d.
Proof.
  intros Hne. induction d as [|[k0 v0] d IH]; simpl.
  - destruct (String.eqb_spec k k'); congruence.
  - destruct (String.eqb_spec k0 k) as [->|Hk]; simpl.
    + destruct (String.eqb_spec k k'); congruence.
    + destruct (String.eqb_spec k0 k'); auto.
Qed.

Lemma get_pop_same k d : Dict.get k (Dict.pop k d) = None.
Proof.
  induction d as [|[k' v'] d IH]; simpl; auto.
  destruct (String.eqb k' k) eqn:E; simpl; auto.
  now rewrite E.
Qed.

Lemma get_pop_other k k' d :
  k' <> k -> Dict.get k' (Dict.pop k d) = Dict.get k' d.
Proof.
  intros Hne. induction d as [|[k0 v0] d IH]; simpl; auto.
  destruct (String.eqb_spec k0 k) as [->|Hk]; simpl.
  - destruct (String.eqb_spec k k'); congruence.
  - destruct (String.eqb_spec k0 k'); auto.
Qed.

Lemma in_pop k k' v d :
  In (k', v) (Dict.pop k d) <-> In (k', v) d /\ k' <> k.
Proof.
  unfold Dict.pop. rewrite filter_In. simpl.
  rewrite negb_true_iff. split; intros [H1 H2]; split; auto.
  - now apply String.eqb_neq.
  - now apply String.eqb_neq.
Qed.

Lemma mem_set_same k v d : Dict.mem k (Dict.set k v d) = true.
Proof. unfold Dict.mem. now rewrite get_set_same. Qed.

Lemma mem_set_other k k' v d :
  k' <> k -> Dict.mem k' (Dict.set k v d) = Dict.mem k' d.
Proof. intros H. unfold Dict.mem. now rewrite get_set_other. Qed.

Lemma mem_true_get k d : Dict.mem k d = true -> exists v, Dict.get k d = Some v.
Proof. unfold Dict.mem. destruct (Dict.get k d); eauto; discriminate. Qed.

Lemma mem_false_get k d : Dict.mem k d = false -> Dict.get k d = None.
Proof. unfold Dict.mem. destruct (Dict.get k d); auto; discriminate. Qed.

Lemma get_in k v d : Dict.get k d = Some v -> In (k, v) d.
Proof.
  induction d as [|[k' v'] d IH]; simpl; [discriminate|].
  destruct (String.eqb_spec k' k) as [->|Hk].
  - intros [= ->]. now left.
  - intros H. right. auto.
Qed.

Lemma forallb_get (P : V -> bool) k v d :
  forallb (fun kv => P (snd kv)) d = true ->
  Dict.get k d = Some v -> P v = true.
Proof.
  intros Hall Hget. apply get_in in Hget.
  rewrite forallb_forall in Hall. exact (Hall _ Hget).
Qed.

Lemma forallb_set (P : V -> bool) k v d :
  forallb (fun kv => P (snd kv)) d = true -> P v = true ->
  forallb (fun kv => P (snd kv)) (Dict.set k v d) = true.
Proof.
  intros Hall Hv. induction d as [|[k' v'] d IH]; simpl in *.
  - now rewrite Hv.
  - apply andb_true_iff in Hall as [H1 H2].
    destruct (String.eqb k' k); simpl.
    + now rewrite Hv, H2.
    + now rewrite H1, IH.
Qed.

Lemma forallb_pop (P : V -> bool) k d :
  forallb (fun kv => P (snd kv)) d = true ->
  forallb (fun kv => P (snd kv)) (Dict.pop k d) = true.
Proof.
  intros Hall. rewrite forallb_forall in *.
  intros x Hx. apply filter_In in Hx as [Hx _]. auto.
Qed.
End DictFacts.

(** What a well-formed registry gives the handlers. *)
Lemma wf_registry_status_map reg :
  wf_registry reg = true ->
  exists sm, Dict.get "agent_status" reg = Some (JObj sm)
             /\ forallb (fun kv => wf_status_obj (snd kv)) sm = true.
Proof.
  unfold wf_registry.
  destruct (Dict.get "agent_status" reg) as [[]|]; try discriminate.
  eauto.
Qed.

Lemma wf_status_entry sm id :
  forallb (fun kv => wf_status_obj (snd kv)) sm = true ->
  Dict.get_or id (JObj []) sm
  = JObj (match Dict.get id sm with Some (JObj so) => so | _ => [] end)
  /\ wf_status_obj (Dict.get_or id (JObj []) sm) = true.
Proof.
  intros Hall. unfold Dict.get_or.
  destruct (Dict.get id sm) as [v|] eqn:E.
  - pose proof (forallb_get wf_status_obj _ _ _ Hall E) as Hv.
    destruct v; try discriminate. auto.
  - auto.
Qed.

Lemma wf_status_of reg id :
  wf_registry reg = true ->
  py_get (Dict.get_or "agent_status" (JObj []) reg) id (JObj [])
  = Ret (JObj (status_of reg id))
  /\ wf_status_obj (JObj (status_of reg id)) = true.
Proof.
  intros Hwf. destruct (wf_registry_status_map _ Hwf) as (sm & Hsm & Hall).
  unfold status_of, Dict.get_or at 1. rewrite Hsm. simpl.
  destruct (wf_status_entry sm id Hall) as [-> H]. split; [reflexivity|].
  unfold Dict.get_or in H.
  destruct (Dict.get id sm) as [[]|]; auto.
Qed.

(** ** Lookup *)

(** Case analysis on the first bind of a chain in hypothesis [H]. *)
Ltac step_result H :=
  match type of H with
  | context [rbind ?r _] =>
      let E := fresh "E" in
      destruct r eqn:E; cbn [rbind run_pure] in H; try discriminate H
  end.

Lemma build_agent_payload_keys reg id payload :
  _build_agent_payload reg id = Ret payload ->
  json_keys payload = full_view_fields.
Proof.
  unfold _build_agent_payload. intros H.
  repeat step_result H.
  now injection H as <-.
Qed.

(** C10.  Whenever [lookup] resolves a name, as an agent id or as a
    client alias, its reply has exactly the fields agent_id, agent_url,
    api_url and description, so none of alive, assigned_to, last_update,
    capabilities and tags; a successful [get_agent] on the same name
    returns the nine-field view that has them. *)
Theorem lookup_view_has_four_fields st name view :
  lookup st name = Success view ->
  json_keys view = lookup_fields
  /\ (forall f, In f ["alive"; "assigned_to"; "last_update"; "capabilities"; "tags"] ->
                json_field f view = None)
  /\ (forall full, get_agent st name = Success full ->
                   json_keys full = full_view_fields).
Proof.
  intros H.
  assert (Hshape : exists a u p d,
             view = JObj [("agent_id", a); ("agent_url", u);
                          ("api_url", p); ("description", d)]).
  { unfold lookup in H.
    destruct (Dict.mem name (registry st) && negb (String.eqb name "agent_status")).
    - repeat step_result H. injection H as <-. eauto.
    - destruct (Dict.mem name (client_registry st)); [|discriminate].
      repeat step_result H. injection H as <-. eauto. }
  destruct Hshape as (a & u & p & d & ->).
  split; [reflexivity|]. split.
  - intros f Hf. simpl in Hf.
    repeat (destruct Hf as [<-|Hf]; [reflexivity|]). contradiction.
  - intros full Hfull. unfold get_agent in Hfull.
    destruct (negb (Dict.mem name (registry st)) || String.eqb name "agent_status");
      [discriminate|].
    step_result Hfull. injection Hfull as <-.
    eapply build_agent_payload_keys; eassumption.
Qed.

Lemma is_agent_get st id :
  is_agent st id = true ->
  id <> "agent_status" /\ exists u, Dict.get id (registry st) = Some u.
Proof.
  unfold is_agent. intros H. apply andb_true_iff in H as [Hm Hs].
  split.
  - apply negb_true_iff in Hs. now apply String.eqb_neq.
  - now apply mem_true_get.
Qed.

(** Where [lookup] resolves a name as its three steps are meant to.  A
    name that is an agent id (a key of the directory other than the
    status key) gets that agent's own record.  Otherwise a key of the
    client dictionary that the alias map sends to an agent [a] with
    agent_url [U] gets agent_id [a], agent_url [U] and the alias's own
    endpoint [V] as api_url.  Otherwise a name that is no key of the
    client dictionary gets NotFound. *)
Theorem lookup_resolution_order st name :
  (is_agent st name = true -> wf_registry (registry st) = true ->
   lookup st name
   = Success (lookup_view
                (JStr name)
                (Dict.get_or name JNull (registry st))
                (Dict.get_or "api_url" JNull (status_of (registry st) name))
                (Dict.get_or "description" (JStr "") (status_of (registry st) name))))
  /\ (forall agent_map a U V,
        is_agent st name = false ->
        wf_registry (registry st) = true ->
        Dict.get name (client_registry st) = Some V ->
        Dict.get "agent_map" (client_registry st) = Some (JObj agent_map) ->
        Dict.get name agent_map = Some (JStr a) ->
        Dict.get a (registry st) = Some U ->
        lookup st name
        = Success (lookup_view
                     (JStr a) U V
                     (Dict.get_or "description" (JStr "") (status_of (registry st) a))))
  /\ (is_agent st name = false ->
      Dict.mem name (client_registry st) = false ->
      exists body, lookup st name = NotFound body).
Proof.
  unfold is_agent. split; [|split].
  - intros Ha Hwf. unfold lookup. rewrite Ha.
    apply andb_true_iff in Ha as [Hm _].
    destruct (mem_true_get _ _ Hm) as [u Hu].
    destruct (wf_registry_status_map _ Hwf) as (sm & Hsm & Hall).
    unfold top_getitem, Dict.get_or at 1, status_of. rewrite Hu, Hsm. cbn.
    destruct (wf_status_entry sm name Hall) as [-> _]. reflexivity.
  - intros am a U V Ha Hwf HV Ham Ha' HU. unfold lookup. rewrite Ha.
    unfold Dict.mem. rewrite HV.
    destruct (wf_registry_status_map _ Hwf) as (sm & Hsm & Hall).
    unfold top_getitem, status_of. rewrite Ham, Hsm. cbn.
    rewrite Ha'. cbn. unfold top_getitem. rewrite HU, HV. cbn.
    destruct (wf_status_entry sm a Hall) as [-> _]. reflexivity.
  - intros Ha Hc. unfold lookup. rewrite Ha, Hc. eauto.
Qed.

(** The alias-resolution example: [lookup("C1")] returns agent_id A1,
    agent_url U and the alias's api_url V, not the agent's own W. *)
Lemma lookup_resolution_order_witness :
  lookup alias_state "C1"
  = Success (lookup_view (JStr "A1") (JStr "U") (JStr "V") (JStr "")).
Proof.
  exact (proj1 (proj2 (lookup_resolution_order alias_state "C1"))
           [("C1", JStr "A1")] "A1" (JStr "U") (JStr "V")
           eq_refl eq_refl eq_refl eq_refl eq_refl eq_refl).
Defined.

(** C2.  [lookup] does not keep to its resolution order on the two
    reserved keys.  The name "agent_map" is no agent id and no registered
    client name ([list_clients] does not list it), so the third step
    should reply NotFound; but line 298 finds the name as a key of
    [client_registry] and line 299 raises KeyError, in a fresh process as
    in one loaded from a store with an agent and an alias.  And for a
    registered client name whose alias names "agent_status", which
    [get_agent] rightly knows as no agent, the second step has no guard
    for the reserved key and replies success with the whole status
    sub-map as agent_url. *)
Theorem lookup_order_fails_on_reserved_keys :
  (is_agent test_mode_state "agent_map" = false
   /\ list_clients test_mode_state = Success (JObj [])
   /\ lookup test_mode_state "agent_map" = Uncaught KeyError)
  /\ (is_agent persisted_state "agent_map" = false
      /\ list_clients persisted_state = Success (JObj [("c1", JStr "alive")])
      /\ lookup persisted_state "agent_map" = Uncaught KeyError)
  /\ option_map
       (fun st => (list_clients st, get_agent st "agent_status", lookup st "c9"))
       (startup false
          (Some (stored_agents persisted_state,
                 [[("client_name", JStr "c9"); ("agent_id", JStr "agent_status");
                   ("api_url", JStr "V")]])))
     = Some (Success (JObj [("c9", JStr "alive")]),
             NotFound not_found_body,
             Success (lookup_view
                        (JStr "agent_status")
                        (JObj [("a1", JObj [("alive", JBool false);
                                            ("assigned_to", JNull);
                                            ("last_update", JStr "t0");
                                            ("api_url", JNull);
                                            ("description", JStr "")])])
                        (JStr "V") (JStr ""))).
Proof. vm_compute. repeat split. Qed.

Lemma lookup_view_has_four_fields_witness :
  json_keys (lookup_view (JStr "A1") (JStr "U") (JStr "V") (JStr ""))
  = lookup_fields.
Proof.
  exact (proj1 (lookup_view_has_four_fields alias_state "C1" _ eq_refl)).
Defined.

(** The alias branch of [lookup] raises KeyError in every state where
    the name is a key of [client_registry] and either the alias map has
    no entry for it or the entry names an id that is no key of
    [registry]. *)
Lemma lookup_alias_branch_raises st name agent_map :
  is_agent st name = false ->
  Dict.mem name (client_registry st) = true ->
  Dict.get "agent_map" (client_registry st) = Some (JObj agent_map) ->
  (Dict.get name agent_map = None
   \/ exists a, Dict.get name agent_map = Some (JStr a)
                /\ Dict.get a (registry st) = None) ->
  lookup st name = Uncaught KeyError.
Proof.
  unfold is_agent. intros Hag Hc Ham Hcases. unfold lookup.
  rewrite Hag, Hc. unfold top_getitem. rewrite Ham. cbn.
  destruct Hcases as [->|(a & -> & Ha)]; [reflexivity|].
  cbn. unfold top_getitem. now rewrite Ha.
Qed.

(** C1.  [lookup] is not total.  On a client alias whose agent has no
    Agent Record, line 300 indexes [registry] with the missing id and the
    KeyError leaves the handler; the same happens at line 299 for the
    name "agent_map", which is a key of [client_registry] in every state,
    already in the one the module starts with. *)
Theorem lookup_dangling_alias_raises :
  lookup dangling_state "C1" = Uncaught KeyError
  /\ lookup test_mode_state "agent_map" = Uncaught KeyError
  /\ lookup connected_state "agent_map" = Uncaught KeyError.
Proof. repeat split. Qed.

(** ** The reserved name *)

(** C9.  [register] has no guard for the reserved name.  Registering
    "agent_status" stores the agent_url under the key that holds the
    status sub-map (line 265), so the sub-map and every status record in
    it are gone; line 270 then raises TypeError on the string.  After
    that [get_agent] raises on the agent that was registered before. *)
Theorem register_reserved_name_replaces_status_map :
  let st' := fst (run (register "t2" (request "agent_status" "http://x"))
                    announced_state) in
  is_agent announced_state "a1" = true
  /\ wf_registry (registry announced_state) = true
  /\ snd (run (register "t2" (request "agent_status" "http://x")) announced_state)
     = Uncaught TypeError
  /\ Dict.get "agent_status" (registry st') = Some (JStr "http://x")
  /\ get_agent st' "a1" = Uncaught AttributeError.
Proof. vm_compute. repeat split. Qed.

(** ** Persistence of a deletion *)

Lemma update_one_length key val fields col :
  length col <= length (update_one key val fields col).
Proof.
  induction col as [|doc col IH]; simpl; [lia|].
  destruct (doc_matches key val doc); simpl; lia.
Qed.

(** The two save loops only upsert: no document ever leaves a collection. *)
Lemma save_registry_loop_length reg items col :
  length col <= length (save_registry_loop reg items col).
Proof.
  revert col. induction items as [|[id url] items IH]; intros col; simpl; [lia|].
  destruct (String.eqb id "agent_status"); [apply IH|].
  destruct (rbind _ _); [|lia].
  etransitivity; [|apply IH]. apply update_one_length.
Qed.

Lemma save_client_registry_loop_length creg items col :
  length col <= length (save_client_registry_loop creg items col).
Proof.
  revert col. induction items as [|[c url] items IH]; intros col; simpl; [lia|].
  destruct (String.eqb c "agent_map"); [apply IH|].
  destruct (py_get _ _ _); [|lia].
  etransitivity; [|apply IH]. apply update_one_length.
Qed.

(** C8.  A successful [delete_agent] with the store connected removes
    nothing from the store: [save_registry] and [save_client_registry]
    upsert the records that remain in the cache and never delete one, so
    the document of the deleted agent and the document of the cascaded
    alias are both still there. *)
Theorem delete_leaves_store_documents :
  let st' := fst (run (delete_agent "a1") persisted_state) in
  USE_MONGO persisted_state = true
  /\ snd (run (delete_agent "a1") persisted_state)
     = Success (deleted_body "a1")
  /\ Dict.get "a1" (registry st') = None
  /\ Dict.get "c1" (client_registry st') = None
  /\ agent_registry_col st' = agent_registry_col persisted_state
  /\ client_registry_col st' = client_registry_col persisted_state
  /\ (exists doc, option_map (find_one "agent_id" "a1") (agent_registry_col st')
                  = Some (Some doc))
  /\ (exists doc, option_map (find_one "client_name" "c1") (client_registry_col st')
                  = Some (Some doc)).
Proof. vm_compute. repeat split; eexists; reflexivity. Qed.

(** ** Registration *)

(** The save functions touch the collections only. *)
Lemma save_registry_run st :
  exists st', save_registry st = (st', Ret tt)
              /\ registry st' = registry st
              /\ client_registry st' = client_registry st
              /\ client_registry_col st' = client_registry_col st
              /\ count_docs (agent_registry_col st)
                 <= count_docs (agent_registry_col st').
Proof.
  unfold save_registry.
  destruct (agent_registry_col st) as [col|] eqn:Ecol.
  - destruct (TEST_MODE st || negb (USE_MONGO st)).
    + exists st. rewrite Ecol. auto.
    + eexists. split; [reflexivity|]. cbn.
      repeat split. apply save_registry_loop_length.
  - exists st. rewrite Ecol. auto.
Qed.

Lemma save_client_registry_run st :
  exists st', save_client_registry st = (st', Ret tt)
              /\ registry st' = registry st
              /\ client_registry st' = client_registry st
              /\ agent_registry_col st' = agent_registry_col st
              /\ count_docs (client_registry_col st)
                 <= count_docs (client_registry_col st').
Proof.
  unfold save_client_registry.
  destruct (client_registry_col st) as [col|] eqn:Ecol.
  - destruct (TEST_MODE st || negb (USE_MONGO st)).
    + exists st. rewrite Ecol. auto.
    + eexists. split; [reflexivity|]. cbn.
      repeat split. apply save_client_registry_loop_length.
  - exists st. rewrite Ecol. auto.
Qed.

(** The cache after a registration that passes validation, for an id
    other than the reserved one. *)
Lemma register_run now d id url st :
  body_agent_id d = Some id -> body_agent_url d = Some url ->
  id <> "agent_status" ->
  wf_registry (registry st) = true ->
  exists st' sm,
    run (register now (Some d)) st = (st', Success (ack id))
    /\ Dict.get "agent_status" (registry st) = Some (JObj sm)
    /\ registry st'
       = Dict.set "agent_status"
           (JObj (Dict.set id
                    (JObj (fresh_status (body_api_url_or_null d)
                             (body_description_or_empty d) now)) sm))
           (Dict.set id url (registry st))
    /\ client_registry st' = client_registry st.
Proof.
  intros Hid Hurl Hne Hwf.
  destruct (wf_registry_status_map _ Hwf) as (sm & Hsm & _).
  assert (Hget : Dict.get "agent_status" (Dict.set id url (registry st))
                 = Some (JObj sm)).
  { rewrite get_set_other; auto. }
  unfold run, register. rewrite Hid, Hurl.
  unfold bind, read, write, lift, ret. cbn.
  unfold Dict.mem, top_getitem. rewrite Hget. cbn.
  rewrite Hget. cbn.
  match goal with |- context [save_registry ?s] =>
    destruct (save_registry_run s) as (st' & -> & Hr & Hc & _) end.
  exists st', sm. cbn in Hr, Hc. rewrite Hr, Hc. auto.
Qed.

Lemma status_of_set reg sm id rec :
  status_of (Dict.set "agent_status" (JObj (Dict.set id (JObj rec) sm)) reg) id
  = rec.
Proof. unfold status_of. now rewrite !get_set_same. Qed.

Lemma status_of_set_other reg sm id id' rec :
  Dict.get "agent_status" reg = Some (JObj sm) -> id' <> id ->
  status_of (Dict.set "agent_status" (JObj (Dict.set id rec sm)) reg) id'
  = status_of reg id'.
Proof.
  intros Hsm Hne. unfold status_of.
  now rewrite get_set_same, Hsm, get_set_other.
Qed.

Lemma build_agent_payload_wf reg id :
  wf_registry reg = true -> _build_agent_payload reg id = Ret (full_view reg id).
Proof.
  intros Hwf. unfold _build_agent_payload.
  destruct (wf_status_of reg id Hwf) as [-> _]. reflexivity.
Qed.

Lemma wf_registry_set_status reg sm id rec :
  Dict.get "agent_status" reg = Some (JObj sm) ->
  forallb (fun kv => wf_status_obj (snd kv)) sm = true ->
  wf_status_obj rec = true ->
  wf_registry (Dict.set "agent_status" (JObj (Dict.set id rec sm)) reg) = true.
Proof.
  intros Hsm Hall Hrec. unfold wf_registry. rewrite get_set_same.
  now apply forallb_set.
Qed.

Lemma wf_registry_set_url reg id url :
  id <> "agent_status" -> wf_registry reg = true ->
  wf_registry (Dict.set id url reg) = true.
Proof.
  intros Hne Hwf. unfold wf_registry in *. rewrite get_set_other; auto.
Qed.

(** Registration keeps the directory well formed. *)
Lemma register_preserves_wf now d id st :
  body_agent_id d = Some id -> id <> "agent_status" ->
  wf_registry (registry st) = true ->
  wf_registry (registry (fst (run (register now (Some d)) st))) = true.
Proof.
  intros Hid Hne Hwf.
  destruct (body_agent_url d) as [url|] eqn:Hurl.
  - destruct (register_run now d id url st Hid Hurl Hne Hwf)
      as (st' & sm & -> & Hsm & Hreg & _).
    cbn. rewrite Hreg.
    destruct (wf_registry_status_map _ Hwf) as (sm' & Hsm' & Hall).
    rewrite Hsm in Hsm'. injection Hsm' as <-.
    apply wf_registry_set_status; auto.
    rewrite get_set_other; auto.
  - unfold run, register. rewrite Hid, Hurl. exact Hwf.
Qed.




Lemma full_view_after_register reg sm id url rec :
  id <> "agent_status" ->
  full_view (Dict.set "agent_status" (JObj (Dict.set id (JObj rec) sm))
               (Dict.set id url reg)) id
  = JObj [("agent_id", JStr id);
          ("agent_url", url);
          ("api_url", Dict.get_or "api_url" JNull rec);
          ("alive", Dict.get_or "alive" (JBool false) rec);
          ("assigned_to", Dict.get_or "assigned_to" JNull rec);
          ("last_update", Dict.get_or "last_update" JNull rec);
          ("capabilities", Dict.get_or "capabilities" (JList []) rec);
          ("tags", Dict.get_or "tags" (JList []) rec);
          ("description", Dict.get_or "description" (JStr "") rec)].
Proof.
  intros Hne. unfold full_view. rewrite status_of_set.
  unfold Dict.get_or at 1. rewrite get_set_other by auto.
  now rewrite get_set_same.
Qed.

Lemma full_view_set_other reg sm id id' url rec :
  Dict.get "agent_status" reg = Some (JObj sm) ->
  id <> "agent_status" -> id' <> "agent_status" -> id' <> id ->
  full_view (Dict.set "agent_status" (JObj (Dict.set id rec sm))
               (Dict.set id url reg)) id'
  = full_view reg id'.
Proof.
  intros Hsm Hne Hne' Hdiff. unfold full_view.
  rewrite status_of_set_other by (auto; rewrite get_set_other; auto).
  unfold status_of, Dict.get_or.
  rewrite !(get_set_other "agent_status") by auto.
  rewrite !(get_set_other id) by auto.
  reflexivity.
Qed.

Lemma get_agent_wf st id :
  wf_registry (registry st) = true ->
  get_agent st id
  = if is_agent st id then Success (full_view (registry st) id)
    else NotFound not_found_body.
Proof.
  intros Hwf. unfold get_agent, is_agent.
  rewrite build_agent_payload_wf by assumption.
  destruct (Dict.mem id (registry st)), (String.eqb id "agent_status"); reflexivity.
Qed.

(** Claim C7 as stated fails: the capabilities and tags that
    [update_agent_status] stored for a1 are gone after a1 registers
    again, because line 270 assigns a new five-field status record. *)
Lemma reregister_drops_capabilities_and_tags :
  let st' := fst (run (register "t2" (request "a1" "http://a")) announced_state) in
  view_field "capabilities" (get_agent announced_state "a1") = Some (JList [JStr "x"])
  /\ view_field "tags" (get_agent announced_state "a1") = Some (JList [JStr "z"])
  /\ view_field "capabilities" (get_agent st' "a1") = Some (JList [])
  /\ view_field "tags" (get_agent st' "a1") = Some (JList [])
  /\ Dict.get "capabilities" (status_of (registry st') "a1") = None
  /\ Dict.get "tags" (status_of (registry st') "a1") = None.
Proof. vm_compute. repeat split. Qed.

(** C7, amended.  Registering an id that is already in the directory
    replaces its record as a whole: agent_url, api_url and description
    are those of the new request, alive is false, assigned_to is null,
    last_update is the current time, and the stored capabilities and
    tags are discarded, so the view shows both as empty.  The records of
    all other agents are unchanged. *)
Theorem reregister_replaces_record now d id url st :
  body_agent_id d = Some id -> body_agent_url d = Some url ->
  is_agent st id = true ->
  wf_registry (registry st) = true ->
  let st' := fst (run (register now (Some d)) st) in
  get_agent st' id
  = Success (JObj [("agent_id", JStr id);
                   ("agent_url", url);
                   ("api_url", body_api_url_or_null d);
                   ("alive", JBool false);
                   ("assigned_to", JNull);
                   ("last_update", JStr now);
                   ("capabilities", JList []);
                   ("tags", JList []);
                   ("description", body_description_or_empty d)])
  /\ (forall id', id' <> id -> get_agent st' id' = get_agent st id').
Proof.
  intros Hid Hurl Hag Hwf st'.
  destruct (is_agent_get _ _ Hag) as [Hne _].
  pose proof (register_preserves_wf now d id st Hid Hne Hwf) as Hwf'.
  fold st' in Hwf'.
  destruct (register_run now d id url st Hid Hurl Hne Hwf)
    as (st1 & sm & Hrun & Hsm & Hreg & _).
  assert (Hst' : registry st' = registry st1) by (unfold st'; now rewrite Hrun).
  split.
  - rewrite get_agent_wf by assumption.
    unfold is_agent, Dict.mem. rewrite Hst', Hreg.
    rewrite get_set_other by auto. rewrite get_set_same.
    apply String.eqb_neq in Hne. rewrite Hne. cbn [negb andb].
    now rewrite full_view_after_register by (now apply String.eqb_neq).
  - intros id' Hne'. rewrite !get_agent_wf by assumption.
    unfold is_agent. destruct (String.eqb_spec id' "agent_status") as [->|Hs].
    + now rewrite !andb_false_r.
    + rewrite Hst', Hreg.
      rewrite full_view_set_other by auto.
      unfold Dict.mem. rewrite !get_set_other by auto. reflexivity.
Qed.

Lemma reregister_replaces_record_witness :
  get_agent (fst (run (register "t2" (request "a1" "http://b")) announced_state)) "a1"
  = Success (JObj [("agent_id", JStr "a1");
                   ("agent_url", JStr "http://b");
                   ("api_url", JNull);
                   ("alive", JBool false);
                   ("assigned_to", JNull);
                   ("last_update", JStr "t2");
                   ("capabilities", JList []);
                   ("tags", JList []);
                   ("description", JStr "")]).
Proof.
  exact (proj1 (reregister_replaces_record "t2"
                  (mkBody (Some "a1") (Some (JStr "http://b")) None None)
                  "a1" (JStr "http://b") announced_state
                  eq_refl eq_refl eq_refl eq_refl)).
Defined.

(** ** Status updates *)

Lemma merge_field_obj data key guard conv so :
  merge_field data key guard conv (JObj so)
  = Ret (JObj (merge_field_dict data key guard conv so)).
Proof.
  unfold merge_field, merge_field_dict.
  destruct (Dict.get key data) as [v|]; [|reflexivity].
  destruct (guard v); reflexivity.
Qed.

Lemma get_merge_field_dict f data key guard conv so :
  (f = key -> Dict.get key data = None) ->
  Dict.get f (merge_field_dict data key guard conv so) = Dict.get f so.
Proof.
  intros H. unfold merge_field_dict.
  destruct (Dict.get key data) as [v|] eqn:E; [|reflexivity].
  destruct (guard v); [|reflexivity].
  apply get_set_other. intros ->. specialize (H eq_refl). congruence.
Qed.

Lemma get_merged_status_absent now data so f :
  f <> "last_update" -> Dict.get f data = None ->
  Dict.get f (merged_status now data so) = Dict.get f so.
Proof.
  intros Hf Habs. unfold merged_status.
  rewrite !get_merge_field_dict by (intros <-; exact Habs).
  rewrite get_set_other by assumption.
  now rewrite !get_merge_field_dict by (intros <-; exact Habs).
Qed.

Lemma get_merged_status_last_update now data so :
  Dict.get "last_update" (merged_status now data so) = Some (JStr now).
Proof.
  unfold merged_status.
  rewrite !get_merge_field_dict by discriminate.
  apply get_set_same.
Qed.

Lemma get_merged_status_alive now data so v :
  Dict.get "alive" data = Some v ->
  Dict.get "alive" (merged_status now data so) = Some (JBool (truthy v)).
Proof.
  intros Hv. unfold merged_status.
  rewrite !get_merge_field_dict by discriminate.
  rewrite get_set_other by discriminate.
  rewrite get_merge_field_dict by discriminate.
  unfold merge_field_dict. rewrite Hv. apply get_set_same.
Qed.

Lemma get_merge_field_dict_set data key guard conv so v :
  Dict.get key data = Some v -> guard v = true ->
  Dict.get key (merge_field_dict data key guard conv so) = Some (conv v).
Proof.
  intros Hv Hg. unfold merge_field_dict. rewrite Hv, Hg. apply get_set_same.
Qed.

Lemma get_merged_status_assigned_to now data so v :
  Dict.get "assigned_to" data = Some v ->
  Dict.get "assigned_to" (merged_status now data so) = Some v.
Proof.
  intros Hv. unfold merged_status.
  rewrite !get_merge_field_dict by discriminate.
  rewrite get_set_other by discriminate.
  now apply (get_merge_field_dict_set data "assigned_to" _ (fun x => x)).
Qed.

Lemma get_merged_status_capabilities now data so v :
  Dict.get "capabilities" data = Some v -> isinstance_list v = true ->
  Dict.get "capabilities" (merged_status now data so) = Some v.
Proof.
  intros Hv Hl. unfold merged_status.
  rewrite !get_merge_field_dict by discriminate.
  now apply (get_merge_field_dict_set data "capabilities" _ (fun x => x)).
Qed.

Lemma get_merged_status_tags now data so v :
  Dict.get "tags" data = Some v -> isinstance_list v = true ->
  Dict.get "tags" (merged_status now data so) = Some v.
Proof.
  intros Hv Hl. unfold merged_status.
  rewrite get_merge_field_dict by discriminate.
  now apply (get_merge_field_dict_set data "tags" _ (fun x => x)).
Qed.

Lemma get_merged_status_description now data so v :
  Dict.get "description" data = Some v -> isinstance_str v = true ->
  Dict.get "description" (merged_status now data so) = Some v.
Proof.
  intros Hv Hl. unfold merged_status.
  now apply (get_merge_field_dict_set data "description" _ (fun x => x)).
Qed.

Lemma wf_merge_field_dict data key guard conv so :
  (forall v, (key = "capabilities" \/ key = "tags") -> guard v = true ->
             isinstance_list (conv v) = true) ->
  wf_status_obj (JObj so) = true ->
  wf_status_obj (JObj (merge_field_dict data key guard conv so)) = true.
Proof.
  intros Hg Hwf. unfold merge_field_dict.
  destruct (Dict.get key data) as [v|]; [|assumption].
  destruct (guard v) eqn:Eg; [|assumption].
  cbn in *. apply andb_true_iff in Hwf as [Hc Ht].
  destruct (String.eqb_spec key "capabilities") as [->|Hkc].
  - rewrite get_set_same, get_set_other by discriminate.
    cbn. rewrite Hg; auto.
  - rewrite (get_set_other key "capabilities") by auto. rewrite Hc. cbn.
    destruct (String.eqb_spec key "tags") as [->|Hkt].
    + rewrite get_set_same. cbn. auto.
    + now rewrite get_set_other by auto.
Qed.

Lemma wf_merged_status now data so :
  wf_status_obj (JObj so) = true ->
  wf_status_obj (JObj (merged_status now data so)) = true.
Proof.
  intros Hwf. unfold merged_status.
  repeat (apply wf_merge_field_dict;
          [intros v [H|H]; try discriminate H; auto|]).
  cbn. rewrite !get_set_other by discriminate.
  apply (wf_merge_field_dict data "assigned_to");
    [intros v [H|H]; discriminate H|].
  apply (wf_merge_field_dict data "alive");
    [intros v [H|H]; discriminate H|].
  assumption.
Qed.

(** The cache after a status update of an agent of the directory. *)
Lemma update_agent_status_run now id data st :
  is_agent st id = true ->
  wf_registry (registry st) = true ->
  exists st' sm,
    run (update_agent_status now id data) st
    = (st', Success (JObj [("status", JStr "updated");
                           ("agent", full_view (registry st') id)]))
    /\ Dict.get "agent_status" (registry st) = Some (JObj sm)
    /\ registry st'
       = Dict.set "agent_status"
           (JObj (Dict.set id
                    (JObj (merged_status now data (status_of (registry st) id)))
                    sm))
           (registry st)
    /\ client_registry st' = client_registry st
    /\ wf_registry (registry st') = true.
Proof.
  intros Hag Hwf. unfold is_agent in Hag.
  destruct (wf_registry_status_map _ Hwf) as (sm & Hsm & Hall).
  destruct (wf_status_of _ id Hwf) as [Hso Hwso].
  unfold run, update_agent_status, bind, read, write, lift, ret. cbn.
  apply andb_true_iff in Hag as [Hm Hs]. rewrite Hm.
  apply negb_true_iff in Hs. rewrite Hs. cbn.
  rewrite Hso. rewrite !merge_field_obj. cbn.
  rewrite !merge_field_obj. cbn.
  unfold top_getitem. rewrite Hsm. cbn.
  fold (merged_status now data (status_of (registry st) id)).
  match goal with |- context [save_registry ?s] =>
    destruct (save_registry_run s) as (st' & -> & Hr & Hc & _) end.
  cbn in Hr, Hc.
  assert (Hwf' : wf_registry (registry st') = true).
  { rewrite Hr. apply wf_registry_set_status; auto.
    now apply wf_merged_status. }
  rewrite build_agent_payload_wf by assumption.
  exists st', sm. auto.
Qed.

Lemma update_agent_status_not_found now id data st :
  is_agent st id = false ->
  run (update_agent_status now id data) st = (st, NotFound not_found_body).
Proof.
  intros Hag. unfold is_agent in Hag.
  unfold run, update_agent_status, bind, read, ret. cbn.
  destruct (Dict.mem id (registry st)); cbn in *; [|reflexivity].
  apply negb_false_iff in Hag. now rewrite Hag.
Qed.

Lemma view_field_full_view reg id f dflt :
  In (f, dflt) [("capabilities", JList []); ("tags", JList []);
                ("description", JStr ""); ("alive", JBool false)] ->
  view_field f (Success (full_view reg id))
  = Some (Dict.get_or f dflt (status_of reg id)).
Proof.
  simpl. intros H.
  repeat (destruct H as [[= <- <-]|H]; [reflexivity|]). contradiction.
Qed.

(** C5.  [update_agent_status] replies NotFound, and changes nothing,
    when the id is not an agent of the directory.  Otherwise it merges
    the request into the stored status record: last_update becomes the
    current time, a field absent from the request keeps its stored value,
    and each field present in the request overwrites the stored one: the
    truth value of alive, assigned_to as it is sent, capabilities and
    tags when they are lists and description when it is a string.  In
    particular after an update with {alive: true} the view of
    [get_agent] shows alive=true and the capabilities, tags and
    description it showed before. *)
Theorem update_status_partial_merge now id data st :
  (is_agent st id = false ->
   run (update_agent_status now id data) st = (st, NotFound not_found_body))
  /\ (is_agent st id = true -> wf_registry (registry st) = true ->
      let st' := fst (run (update_agent_status now id data) st) in
      snd (run (update_agent_status now id data) st)
      = Success (JObj [("status", JStr "updated");
                       ("agent", full_view (registry st') id)])
      /\ get_agent st' id = Success (full_view (registry st') id)
      /\ Dict.get id (registry st') = Dict.get id (registry st)
      /\ Dict.get "last_update" (status_of (registry st') id) = Some (JStr now)
      /\ (forall f, f <> "last_update" -> Dict.get f data = None ->
                    Dict.get f (status_of (registry st') id)
                    = Dict.get f (status_of (registry st) id))
      /\ (forall v, Dict.get "alive" data = Some v ->
                    Dict.get "alive" (status_of (registry st') id)
                    = Some (JBool (truthy v)))
      /\ (forall v, Dict.get "assigned_to" data = Some v ->
                    Dict.get "assigned_to" (status_of (registry st') id) = Some v)
      /\ (forall v, Dict.get "capabilities" data = Some v ->
                    isinstance_list v = true ->
                    Dict.get "capabilities" (status_of (registry st') id) = Some v)
      /\ (forall v, Dict.get "tags" data = Some v ->
                    isinstance_list v = true ->
                    Dict.get "tags" (status_of (registry st') id) = Some v)
      /\ (forall v, Dict.get "description" data = Some v ->
                    isinstance_str v = true ->
                    Dict.get "description" (status_of (registry st') id) = Some v)
      /\ (data = [("alive", JBool true)] ->
          view_field "alive" (get_agent st' id) = Some (JBool true)
          /\ forall f, In f ["capabilities"; "tags"; "description"] ->
                       view_field f (get_agent st' id)
                       = view_field f (get_agent st id))).
Proof.
  split.
  - apply update_agent_status_not_found.
  - intros Hag Hwf st'.
    destruct (update_agent_status_run now id data st Hag Hwf)
      as (st1 & sm & Hrun & Hsm & Hreg & _ & Hwf').
    assert (Est : st' = st1) by (unfold st'; now rewrite Hrun).
    rewrite Hrun, Est. clear st' Est. cbn [snd].
    destruct (is_agent_get _ _ Hag) as [Hne [u Hu]].
    assert (Hurl : Dict.get id (registry st1) = Dict.get id (registry st)).
    { rewrite Hreg. now apply get_set_other. }
    assert (Hag' : is_agent st1 id = true).
    { unfold is_agent, Dict.mem in *. now rewrite Hurl. }
    assert (Hget : get_agent st1 id = Success (full_view (registry st1) id)).
    { rewrite get_agent_wf by assumption. now rewrite Hag'. }
    assert (Hso : status_of (registry st1) id
                  = merged_status now data (status_of (registry st) id)).
    { rewrite Hreg. apply status_of_set. }
    split; [reflexivity|]. split; [assumption|]. split; [assumption|].
    rewrite Hso. split; [apply get_merged_status_last_update|].
    split; [intros f Hf Habs; now apply get_merged_status_absent|].
    split; [intros v Hv; now apply get_merged_status_alive|].
    split; [intros v Hv; now apply get_merged_status_assigned_to|].
    split; [intros v Hv Hl; now apply get_merged_status_capabilities|].
    split; [intros v Hv Hl; now apply get_merged_status_tags|].
    split; [intros v Hv Hl; now apply get_merged_status_description|].
    intros ->. rewrite Hget.
    assert (Hget0 : get_agent st id = Success (full_view (registry st) id)).
    { rewrite get_agent_wf by assumption. now rewrite Hag. }
    rewrite Hget0. split.
    + rewrite (view_field_full_view _ _ "alive" (JBool false)) by (simpl; auto).
      unfold Dict.get_or. rewrite Hso.
      now rewrite (get_merged_status_alive _ _ _ (JBool true)) by reflexivity.
    + intros f Hf.
      assert (Hd : exists dflt,
                 In (f, dflt) [("capabilities", JList []); ("tags", JList []);
                               ("description", JStr ""); ("alive", JBool false)]
                 /\ f <> "last_update"
                 /\ Dict.get f [("alive", JBool true)] = None).
      { simpl in Hf. destruct Hf as [<-|[<-|[<-|[]]]]; eexists;
          (split; [simpl; eauto|split; [discriminate|reflexivity]]). }
      destruct Hd as (dflt & Hin & Hnl & Habs).
      rewrite !(view_field_full_view _ _ f dflt) by assumption.
      unfold Dict.get_or. rewrite Hso.
      now rewrite get_merged_status_absent by assumption.
Qed.

(** The partial-merge example on an agent that has capabilities, tags and
    a description and is not yet alive; and an update that sends
    assigned_to and tags, which overwrites these two and keeps the
    capabilities. *)
Lemma update_status_partial_merge_witness :
  let st' := fst (run (update_agent_status "t2" "a1" [("alive", JBool true)])
                    described_state) in
  let st2 := fst (run (update_agent_status "t2" "a1"
                         [("assigned_to", JStr "u1"); ("tags", JList [JStr "w"])])
                    described_state) in
  view_field "alive" (get_agent described_state "a1") = Some (JBool false)
  /\ view_field "alive" (get_agent st' "a1") = Some (JBool true)
  /\ view_field "capabilities" (get_agent st' "a1") = Some (JList [JStr "x"])
  /\ view_field "tags" (get_agent st' "a1") = Some (JList [JStr "z"])
  /\ view_field "description" (get_agent st' "a1") = Some (JStr "d")
  /\ Dict.get "assigned_to" (status_of (registry st2) "a1") = Some (JStr "u1")
  /\ Dict.get "tags" (status_of (registry st2) "a1") = Some (JList [JStr "w"])
  /\ Dict.get "capabilities" (status_of (registry st2) "a1")
     = Some (JList [JStr "x"]).
Proof.
  pose proof (proj2 (update_status_partial_merge "t2" "a1" [("alive", JBool true)]
                       described_state) eq_refl eq_refl) as H.
  cbv zeta in H. destruct H as (_ & _ & _ & _ & _ & _ & _ & _ & _ & _ & H).
  destruct (H eq_refl) as [Halive Hsame].
  pose proof (proj2 (update_status_partial_merge "t2" "a1"
                       [("assigned_to", JStr "u1"); ("tags", JList [JStr "w"])]
                       described_state) eq_refl eq_refl) as H2.
  cbv zeta in H2. destruct H2 as (_ & _ & _ & _ & Hkeep & _ & Hto & _ & Htags & _).
  cbv zeta. split; [reflexivity|]. split; [exact Halive|].
  rewrite !Hsame by (simpl; auto).
  split; [reflexivity|]. split; [reflexivity|]. split; [reflexivity|].
  split; [exact (Hto (JStr "u1") eq_refl)|].
  split; [exact (Htags (JList [JStr "w"]) eq_refl eq_refl)|].
  rewrite (Hkeep "capabilities") by (discriminate || reflexivity). reflexivity.
Defined.

(** ** Deletion *)

Lemma remove_alias_run am0 gone c st :
  alias_inv am0 gone (client_registry st) ->
  exists st',
    remove_alias c st = (st', Ret tt)
    /\ registry st' = registry st
    /\ agent_registry_col st' = agent_registry_col st
    /\ client_registry_col st' = client_registry_col st
    /\ Dict.get c (client_registry st') = None
    /\ (forall k, Dict.get k (client_registry st) = None ->
                  Dict.get k (client_registry st') = None)
    /\ alias_inv am0 (fun c' => gone c' \/ c' = c) (client_registry st').
Proof.
  intros Hinv. unfold alias_inv in Hinv.
  unfold remove_alias, bind, read, write, lift, ret. cbn.
  destruct (String.eqb_spec "agent_map" c) as [<-|Hc].
  - rewrite get_pop_same. eexists. split; [reflexivity|]. cbn.
    repeat split; auto using get_pop_same.
    + intros k Hk. destruct (String.eqb_spec k "agent_map") as [->|Hne].
      * apply get_pop_same.
      * now rewrite get_pop_other.
    + unfold alias_inv. now rewrite get_pop_same.
  - rewrite get_pop_other by assumption.
    destruct (Dict.get "agent_map" (client_registry st)) as [v|] eqn:Eam.
    + destruct Hinv as (am & -> & Ham). cbn.
      eexists. split; [reflexivity|]. cbn.
      split; [reflexivity|]. split; [reflexivity|]. split; [reflexivity|].
      split; [|split].
      * rewrite get_set_other by auto. apply get_pop_same.
      * intros k Hk. destruct (String.eqb_spec k "agent_map") as [->|Hne];
          [congruence|].
        rewrite get_set_other by auto.
        destruct (String.eqb_spec k c) as [->|Hkc]; [apply get_pop_same|].
        now rewrite get_pop_other.
      * unfold alias_inv. rewrite get_set_same. eexists. split; [reflexivity|].
        intros c' x Hin. apply in_pop in Hin as [Hin Hne].
        destruct (Ham _ _ Hin) as [H0 Hg]. split; [assumption|].
        intros [Hg'|Hg']; auto.
    + eexists. split; [reflexivity|]. cbn.
      repeat split; auto using get_pop_same.
      * intros k Hk. destruct (String.eqb_spec k c) as [->|Hkc];
          [apply get_pop_same|now rewrite get_pop_other].
      * unfold alias_inv. now rewrite get_pop_other, Eam.
Qed.

Lemma alias_inv_ext am0 (gone gone' : string -> Prop) creg :
  (forall c, gone' c -> gone c) ->
  alias_inv am0 gone creg -> alias_inv am0 gone' creg.
Proof.
  intros Hsub. unfold alias_inv.
  destruct (Dict.get "agent_map" creg); [|auto].
  intros (am & -> & H). exists am. split; [reflexivity|].
  intros c x Hin. destruct (H c x Hin). split; auto.
Qed.

(** The loop of lines 216-218 never raises once the alias map has been
    read as a dictionary, and removes every name it is given. *)
Lemma for_each_remove_alias_run am0 xs : forall gone st,
  alias_inv am0 gone (client_registry st) ->
  exists st',
    for_each xs remove_alias st = (st', Ret tt)
    /\ registry st' = registry st
    /\ agent_registry_col st' = agent_registry_col st
    /\ client_registry_col st' = client_registry_col st
    /\ (forall c, In c xs -> Dict.get c (client_registry st') = None)
    /\ (forall k, Dict.get k (client_registry st) = None ->
                  Dict.get k (client_registry st') = None)
    /\ alias_inv am0 (fun c => gone c \/ In c xs) (client_registry st').
Proof.
  induction xs as [|x xs IH]; intros gone st Hinv.
  - exists st. cbn. repeat split; auto; try contradiction.
    eapply alias_inv_ext; [|eassumption]. intros c [Hc|[]]. exact Hc.
  - destruct (remove_alias_run am0 gone x st Hinv)
      as (st1 & Hrun1 & Hr1 & Ha1 & Hc1 & Hx1 & Hk1 & Hinv1).
    destruct (IH _ _ Hinv1) as (st2 & Hrun2 & Hr2 & Ha2 & Hc2 & Hx2 & Hk2 & Hinv2).
    exists st2. cbn [for_each]. unfold bind. rewrite Hrun1, Hrun2.
    split; [reflexivity|]. split; [congruence|]. split; [congruence|].
    split; [congruence|]. split; [|split].
    + intros c [<-|Hin]; auto.
    + auto.
    + eapply alias_inv_ext; [|eassumption].
      cbn. intros c [Hg|[<-|Hin]]; auto.
Qed.

(** Running a handler one statement at a time. *)
Lemma run_read {A} (f : state -> A) (k : A -> M response) st :
  run (bind (read f) k) st = run (k (f st)) st.
Proof. reflexivity. Qed.

Lemma run_write (f : state -> state) (k : unit -> M response) st :
  run (bind (write f) k) st = run (k tt) (f st).
Proof. reflexivity. Qed.

Lemma run_lift_ret {A} (a : A) (k : A -> M response) st :
  run (bind (lift (Ret a)) k) st = run (k a) st.
Proof. reflexivity. Qed.

Lemma run_lift_raise {A} e (k : A -> M response) st :
  run (bind (lift (Raise e)) k) st = (st, Uncaught e).
Proof. reflexivity. Qed.

Lemma run_bind_ret {A} (m : M A) (k : A -> M response) st st1 a :
  m st = (st1, Ret a) -> run (bind m k) st = run (k a) st1.
Proof. intros H. unfold run, bind. now rewrite H. Qed.

Lemma run_bind_raise {A} (m : M A) (k : A -> M response) st st1 e :
  m st = (st1, Raise e) -> run (bind m k) st = (st1, Uncaught e).
Proof. intros H. unfold run, bind. now rewrite H. Qed.

(** The last three statements of [delete_agent]. *)
Lemma delete_agent_tail id st :
  exists st',
    run (save_registry ;; save_client_registry ;;
         ret (Success (deleted_body id)))%handler st
    = (st', Success (deleted_body id))
    /\ registry st' = registry st
    /\ client_registry st' = client_registry st
    /\ count_docs (agent_registry_col st) <= count_docs (agent_registry_col st')
    /\ count_docs (client_registry_col st) <= count_docs (client_registry_col st').
Proof.
  destruct (save_registry_run st) as (st1 & H1 & Hr1 & Hc1 & Hcc1 & Hn1).
  destruct (save_client_registry_run st1) as (st2 & H2 & Hr2 & Hc2 & Hac2 & Hn2).
  exists st2. rewrite (run_bind_ret _ _ _ _ _ H1), (run_bind_ret _ _ _ _ _ H2).
  split; [reflexivity|]. split; [congruence|]. split; [congruence|].
  rewrite Hac2, <- Hcc1. auto.
Qed.

(** Lines 211-223, started in a state where the agent and its status
    record are already gone. *)
Lemma delete_agent_cascade id st :
  let rest :=
    (creg <- read client_registry ;;
     items <- lift (py_items (Dict.get_or "agent_map" (JObj []) creg)) ;;
     for_each (map fst (filter (fun kv => json_eq_str id (snd kv)) items))
              remove_alias ;;
     save_registry ;; save_client_registry ;;
     ret (Success (deleted_body id)))%handler in
  (wf_client_registry (client_registry st) = false
   /\ exists e, run rest st = (st, Uncaught e))
  \/ (exists st',
        run rest st = (st', Success (deleted_body id))
        /\ registry st' = registry st
        /\ (forall am c x,
              Dict.get "agent_map" (client_registry st') = Some (JObj am) ->
              In (c, x) am -> json_eq_str id x = false)
        /\ (forall am0 c x,
              Dict.get "agent_map" (client_registry st) = Some (JObj am0) ->
              In (c, x) am0 -> json_eq_str id x = true ->
              Dict.get c (client_registry st') = None)
        /\ count_docs (agent_registry_col st) <= count_docs (agent_registry_col st')
        /\ count_docs (client_registry_col st)
           <= count_docs (client_registry_col st')).
Proof.
  intros rest. subst rest. rewrite run_read.
  assert (Hcases :
            (exists am0, Dict.get_or "agent_map" (JObj []) (client_registry st) = JObj am0
                         /\ alias_inv am0 (fun _ => False) (client_registry st)
                         /\ forall am, Dict.get "agent_map" (client_registry st)
                                       = Some (JObj am) -> am = am0)
            \/ (wf_client_registry (client_registry st) = false
                /\ exists e, py_items (Dict.get_or "agent_map" (JObj [])
                                         (client_registry st)) = Raise e)).
  { unfold Dict.get_or, alias_inv, wf_client_registry.
    destruct (Dict.get "agent_map" (client_registry st)) as [v|].
    - destruct v; try (right; split; [reflexivity|eexists; reflexivity]).
      left. eexists. split; [reflexivity|]. split.
      + eexists. split; [reflexivity|]. intros c x Hin. split; auto.
      + now intros am [= ->].
    - left. exists []. split; [reflexivity|]. split; [exact I|discriminate]. }
  destruct Hcases as [(am0 & -> & Hinv & Huniq)|(Hwf & e & ->)].
  - right. cbn [py_items]. rewrite run_lift_ret.
    destruct (for_each_remove_alias_run am0
                (map fst (filter (fun kv => json_eq_str id (snd kv)) am0))
                _ st Hinv)
      as (st1 & Hrun & Hr & Hac & Hcc & Hgone & _ & Hinv1).
    rewrite (run_bind_ret _ _ _ _ _ Hrun).
    destruct (delete_agent_tail id st1) as (st2 & -> & Hr2 & Hc2 & Hn1 & Hn2).
    rewrite Hac in Hn1. rewrite Hcc in Hn2.
    exists st2. split; [reflexivity|]. split; [congruence|]. rewrite Hc2.
    split; [|split; [|split; assumption]].
    + intros am c x Ham Hin. unfold alias_inv in Hinv1. rewrite Ham in Hinv1.
      destruct Hinv1 as (am' & [= <-] & Hent).
      destruct (Hent c x Hin) as [Hin0 Hnot].
      destruct (json_eq_str id x) eqn:Ex; [|reflexivity].
      exfalso. apply Hnot. right.
      apply in_map_iff. exists (c, x). split; [reflexivity|].
      apply filter_In. auto.
    + intros am c x Ham Hin Hx. apply Huniq in Ham as ->.
      apply Hgone. apply in_map_iff. exists (c, x). split; [reflexivity|].
      apply filter_In. auto.
  - left. split; [assumption|]. exists e. now rewrite run_lift_raise.
Qed.

Lemma wf_registry_after_pop reg id d :
  id <> "agent_status" ->
  forallb (fun kv => wf_status_obj (snd kv)) d = true ->
  wf_registry (Dict.set "agent_status" (JObj (Dict.pop id d)) (Dict.pop id reg))
  = true.
Proof.
  intros Hne Hall. unfold wf_registry. rewrite get_set_same.
  now apply forallb_pop.
Qed.

Lemma delete_agent_outcome st id :
  is_agent st id = true ->
  (wf_registry (registry st) && wf_client_registry (client_registry st) = false
   /\ exists st1 e, run (delete_agent id) st = (st1, Uncaught e)
                    /\ (wf_registry (registry st) = true ->
                        wf_registry (registry st1) = true))
  \/ (exists st', run (delete_agent id) st = (st', Success (deleted_body id))
                  /\ deleted_from_cache id st st'
                  /\ (wf_registry (registry st) = true ->
                      wf_registry (registry st') = true)
                  /\ count_docs (agent_registry_col st)
                     <= count_docs (agent_registry_col st')
                  /\ count_docs (client_registry_col st)
                     <= count_docs (client_registry_col st')).
Proof.
  intros Hag. destruct (is_agent_get _ _ Hag) as [Hne _].
  unfold is_agent in Hag. apply andb_true_iff in Hag as [Hm Hs].
  unfold delete_agent. rewrite run_read, Hm.
  apply negb_true_iff in Hs. rewrite Hs. cbn [negb orb].
  rewrite run_write, run_read. cbn [registry set_registry].
  rewrite get_pop_other by auto.
  destruct (Dict.get "agent_status" (registry st)) as [v|] eqn:Esm.
  - destruct (py_pop v id) as [sm'|e] eqn:Epop.
    + assert (Hwf' : wf_registry (registry st) = true ->
                     wf_registry (Dict.set "agent_status" sm'
                                    (Dict.pop id (registry st))) = true).
      { intros Hwf. destruct (wf_registry_status_map _ Hwf) as (d & Hd & Hall).
        rewrite Esm in Hd. injection Hd as ->. cbn in Epop.
        injection Epop as <-. now apply wf_registry_after_pop. }
      erewrite run_bind_ret by (unfold bind, lift, write; reflexivity).
      match goal with |- context [run _ ?s] =>
        destruct (delete_agent_cascade id s)
          as [(Hwf & e & Hrun)|(st' & Hrun & Hr & Hal & Hcl & Hn1 & Hn2)]
      end; cbv zeta in Hrun;
        cbn [client_registry agent_registry_col client_registry_col set_registry] in *.
      * left. split; [rewrite Hwf; apply andb_false_r|].
        rewrite Hrun. eauto.
      * right. exists st'. split; [exact Hrun|].
        cbn [registry set_registry] in Hr.
        unfold deleted_from_cache. rewrite Hr.
        split; [split; [|split; [|split]]|split; [|split]]; auto.
        -- rewrite get_set_other by auto. apply get_pop_same.
        -- intros sm. rewrite get_set_same. intros [= ->].
           destruct v; try discriminate Epop. cbn in Epop.
           injection Epop as <-. apply get_pop_same.
    + left. assert (Hnwf : wf_registry (registry st) = false).
      { unfold wf_registry. rewrite Esm.
        destruct v; try reflexivity. discriminate Epop. }
      split; [now rewrite Hnwf|].
      erewrite run_bind_raise by (unfold bind, lift; reflexivity).
      do 2 eexists. split; [reflexivity|]. congruence.
  - assert (Hnwf : wf_registry (registry st) = false)
      by (unfold wf_registry; now rewrite Esm).
    erewrite run_bind_ret by reflexivity.
    match goal with |- context [run _ ?s] =>
      destruct (delete_agent_cascade id s)
        as [(Hwf & e & Hrun)|(st' & Hrun & Hr & Hal & Hcl & Hn1 & Hn2)]
    end; cbv zeta in Hrun;
        cbn [client_registry agent_registry_col client_registry_col set_registry] in *.
    + left. split; [rewrite Hwf; apply andb_false_r|].
      rewrite Hrun. do 2 eexists. split; [reflexivity|]. congruence.
    + right. exists st'. split; [exact Hrun|].
      cbn [registry set_registry] in Hr.
      unfold deleted_from_cache. rewrite Hr.
      split; [split; [|split; [|split]]|split; [|split]]; auto.
      * apply get_pop_same.
      * intros sm. rewrite get_pop_other by auto. congruence.
      * congruence.
Qed.

(** A deletion that goes through never takes a document out of either
    collection. *)
Lemma delete_agent_keeps_documents st id st' body :
  run (delete_agent id) st = (st', Success body) ->
  count_docs (agent_registry_col st) <= count_docs (agent_registry_col st')
  /\ count_docs (client_registry_col st) <= count_docs (client_registry_col st').
Proof.
  intros Hrun. destruct (is_agent st id) eqn:Hag.
  - destruct (delete_agent_outcome st id Hag)
      as [(_ & st1 & e & Hrun' & _)|(st1 & Hrun' & _ & _ & Hn)]; [congruence|].
    rewrite Hrun in Hrun'. injection Hrun' as <- _. exact Hn.
  - unfold is_agent in Hag.
    unfold run, delete_agent, bind, read, ret in Hrun. cbn in Hrun.
    destruct (Dict.mem id (registry st)); cbn in *.
    + apply negb_false_iff in Hag. rewrite Hag in Hrun. discriminate.
    + discriminate.
Qed.

Lemma delete_agent_not_found st id :
  is_agent st id = false ->
  run (delete_agent id) st = (st, NotFound not_found_body).
Proof.
  intros Hag. unfold is_agent in Hag.
  unfold run, delete_agent, bind, read, ret. cbn.
  destruct (Dict.mem id (registry st)); cbn in *; [|reflexivity].
  apply negb_false_iff in Hag. now rewrite Hag.
Qed.

(** Every mutating request, a registration of the reserved name apart,
    leaves the status sub-map well formed. *)
Lemma request_step_preserves_wf st st' :
  request_step st st' ->
  wf_registry (registry st) = true -> wf_registry (registry st') = true.
Proof.
  intros Hstep Hwf. destruct Hstep as [now d Hd|now|now id data|id].
  - destruct (body_agent_id d) as [id|] eqn:Hid.
    + apply (register_preserves_wf now d id); auto. congruence.
    + unfold run, register. now rewrite Hid.
  - exact Hwf.
  - destruct (is_agent st id) eqn:Hag.
    + destruct (update_agent_status_run now id data st Hag Hwf)
        as (st1 & sm & -> & _ & _ & _ & Hwf1). exact Hwf1.
    + now rewrite update_agent_status_not_found.
  - destruct (is_agent st id) eqn:Hag.
    + destruct (delete_agent_outcome st id Hag)
        as [(_ & st1 & e & -> & H)|(st1 & -> & _ & H & _)]; auto.
    + now rewrite delete_agent_not_found.
Qed.

Lemma initial_registry_wf : wf_registry initial_registry = true.
Proof. reflexivity. Qed.

(** C3.  After a [delete_agent] that replied success, whatever the
    cache was before, the Agent Record is gone from the directory and
    from the status sub-map, no entry of the alias map has the deleted
    id as its agent_id, and every client name that mapped to the deleted
    id is gone from the client map.  The deletion does reply success
    for every agent of a directory whose status sub-map and alias map
    are well formed. *)
Theorem delete_cascades_to_aliases st id :
  (forall st' body,
      run (delete_agent id) st = (st', Success body) ->
      is_agent st' id = false /\ deleted_from_cache id st st')
  /\ (is_agent st id = true ->
      wf_registry (registry st) = true ->
      wf_client_registry (client_registry st) = true ->
      exists st', run (delete_agent id) st = (st', Success (deleted_body id))).
Proof.
  split.
  - intros st' body Hrun.
    destruct (is_agent st id) eqn:Hag.
    + destruct (delete_agent_outcome st id Hag)
        as [(_ & st1 & e & Hrun' & _)|(st1 & Hrun' & Hdel & _)]; [congruence|].
      rewrite Hrun in Hrun'. injection Hrun' as <- _.
      split; [|assumption].
      unfold is_agent, Dict.mem. destruct Hdel as [-> _]. reflexivity.
    + rewrite delete_agent_not_found in Hrun by assumption. discriminate.
  - intros Hag Hwf Hwfc.
    destruct (delete_agent_outcome st id Hag)
      as [(Hbad & _)|(st1 & Hrun' & _)]; [|eauto].
    rewrite Hwf, Hwfc in Hbad. discriminate.
Qed.

(** Deleting a1 from a cache that holds the alias (c1, a1). *)
Lemma delete_cascades_to_aliases_witness :
  let st' := fst (run (delete_agent "a1") persisted_state) in
  is_agent persisted_state "a1" = true
  /\ Dict.get "agent_map" (client_registry persisted_state)
     = Some (JObj [("c1", JStr "a1")])
  /\ is_agent st' "a1" = false
  /\ deleted_from_cache "a1" persisted_state st'
  /\ Dict.get "agent_map" (client_registry st') = Some (JObj []).
Proof.
  cbv zeta.
  destruct (proj1 (delete_cascades_to_aliases persisted_state "a1")
              (fst (run (delete_agent "a1") persisted_state))
              (deleted_body "a1") eq_refl) as [H1 H2].
  split; [reflexivity|]. split; [reflexivity|].
  split; [exact H1|]. split; [exact H2|reflexivity].
Defined.

(** ** Search *)

Lemma str_split_nonempty sep s : str_split sep s <> [].
Proof.
  destruct s as [|c s]; cbn; [discriminate|].
  destruct (Ascii.eqb c sep); [discriminate|].
  destruct (str_split sep s); discriminate.
Qed.

Lemma py_any_in_list wanted values :
  py_any_in wanted (JList values) = Ret (intersects values wanted).
Proof.
  unfold intersects. induction wanted as [|w ws IH]; cbn; [reflexivity|].
  destruct (existsb (json_eq_str w) values); [reflexivity|exact IH].
Qed.

(** The list a filter block reads from a well-formed record. *)
Lemma or_empty_list_field reg id field :
  field = "capabilities" \/ field = "tags" ->
  wf_registry reg = true ->
  or_empty_list (Dict.get_or field (JList []) (status_of reg id))
  = JList (agent_field_values reg field id).
Proof.
  intros Hf Hwf. destruct (wf_status_of reg id Hwf) as [_ Hso].
  cbn in Hso. apply andb_true_iff in Hso as [Hc Ht].
  unfold agent_field_values, Dict.get_or.
  assert (Hl : list_or_absent (Dict.get field (status_of reg id)) = true)
    by (destruct Hf as [-> | ->]; assumption).
  destruct (Dict.get field (status_of reg id)) as [v|]; [|reflexivity].
  destruct v; try discriminate Hl.
  destruct items; reflexivity.
Qed.

Section SearchFacts.
Variable str_lower : string -> string.
Variable str_strip : string -> string.

Lemma passes_filter_law reg id field f :
  field = "capabilities" \/ field = "tags" ->
  wf_registry reg = true ->
  passes_filter field (filter_list str_strip f) (full_view reg id)
  = Ret (filter_matches str_strip f (agent_field_values reg field id)).
Proof.
  intros Hf Hwf. unfold passes_filter, filter_list, filter_matches.
  destruct f as [s|]; [|reflexivity]. cbn [truthy].
  destruct (String.eqb s ""); cbn [negb]; [reflexivity|].
  destruct (map str_strip (str_split "," s)) as [|w ws] eqn:Ew.
  { apply map_eq_nil in Ew. now apply str_split_nonempty in Ew. }
  assert (Hget : py_get (full_view reg id) field (JList [])
                 = Ret (Dict.get_or field (JList []) (status_of reg id)))
    by (destruct Hf as [-> | ->]; reflexivity).
  rewrite Hget. cbn [rbind].
  rewrite or_empty_list_field by assumption.
  apply py_any_in_list.
Qed.

(** The loop appends, in iteration order, the view of every agent that
    satisfies the three predicates. *)
Lemma search_loop_law reg q capabilities tags :
  wf_registry reg = true ->
  forall ids results,
    search_loop str_lower reg
      (str_lower (str_strip (match q with Some s => s | None => "" end)))
      (filter_list str_strip capabilities) (filter_list str_strip tags)
      ids results
    = Ret (results
           ++ map (full_view reg)
                (filter (matches str_lower str_strip reg q capabilities tags)
                   (filter (fun k => negb (String.eqb k "agent_status")) ids))).
Proof.
  intros Hwf. induction ids as [|id ids IH]; intros results.
  - cbn. now rewrite app_nil_r.
  - cbn [search_loop filter].
    destruct (String.eqb id "agent_status"); cbn [negb]; [apply IH|].
    cbn [filter].
    assert (Hname :
              truthy (JStr (str_lower (str_strip
                              match q with Some s => s | None => "" end)))
              && negb (str_contains
                         (str_lower (str_strip
                            match q with Some s => s | None => "" end))
                         (str_lower id))
              = negb (name_matches str_lower str_strip q id)).
    { unfold name_matches. cbn [truthy].
      destruct (String.eqb _ ""), (str_contains _ _); reflexivity. }
    rewrite Hname. unfold matches at 1.
    destruct (name_matches str_lower str_strip q id); cbn [negb andb];
      [|apply IH].
    rewrite build_agent_payload_wf by assumption. cbn [rbind].
    rewrite !passes_filter_law by auto. cbn [rbind].
    destruct (filter_matches str_strip capabilities _); cbn [negb andb];
      [|apply IH].
    destruct (filter_matches str_strip tags _); cbn [negb andb];
      [|apply IH].
    rewrite IH. cbn [map]. now rewrite <- app_assoc.
Qed.

Lemma full_view_inj reg id id' : full_view reg id = full_view reg id' -> id = id'.
Proof. unfold full_view. now intros [= ->]. Qed.

(** C4.  On a well-formed directory [search_agents] returns exactly the
    agents that satisfy the name predicate and the capability predicate
    and the tag predicate, each filter being an OR over its
    comma-separated values and an absent filter being true; an agent
    that meets the capability filter and fails the tag filter is not in
    the result. *)
Theorem search_returns_conjunction st q capabilities tags :
  wf_registry (registry st) = true ->
  search_agents str_lower str_strip st q capabilities tags
  = Success (JList (search_law str_lower str_strip (registry st)
                      q capabilities tags))
  /\ (forall id,
        In (full_view (registry st) id)
           (search_law str_lower str_strip (registry st) q capabilities tags)
        <-> In id (agent_ids (registry st))
            /\ name_matches str_lower str_strip q id = true
            /\ filter_matches str_strip capabilities
                 (agent_field_values (registry st) "capabilities" id) = true
            /\ filter_matches str_strip tags
                 (agent_field_values (registry st) "tags" id) = true)
  /\ (forall id,
        filter_matches str_strip capabilities
          (agent_field_values (registry st) "capabilities" id) = true ->
        filter_matches str_strip tags
          (agent_field_values (registry st) "tags" id) = false ->
        ~ In (full_view (registry st) id)
             (search_law str_lower str_strip (registry st) q capabilities tags)).
Proof.
  intros Hwf.
  assert (Hiff : forall id,
             In (full_view (registry st) id)
                (search_law str_lower str_strip (registry st) q capabilities tags)
             <-> In id (agent_ids (registry st))
                 /\ name_matches str_lower str_strip q id = true
                 /\ filter_matches str_strip capabilities
                      (agent_field_values (registry st) "capabilities" id) = true
                 /\ filter_matches str_strip tags
                      (agent_field_values (registry st) "tags" id) = true).
  { intros id. unfold search_law. rewrite in_map_iff. split.
    - intros (id' & Heq & Hin). apply full_view_inj in Heq as ->.
      apply filter_In in Hin as [Hin Hm]. unfold matches in Hm.
      apply andb_true_iff in Hm as [Hm Ht].
      apply andb_true_iff in Hm as [Hn Hc]. auto.
    - intros (Hin & Hn & Hc & Ht). exists id. split; [reflexivity|].
      apply filter_In. split; [assumption|].
      unfold matches. now rewrite Hn, Hc, Ht. }
  split; [|split].
  - unfold search_agents. rewrite search_loop_law by assumption. reflexivity.
  - exact Hiff.
  - intros id Hc Ht Hin. apply Hiff in Hin as (_ & _ & _ & Ht'). congruence.
Qed.
End SearchFacts.

(** The filter law on three agents: with capabilities "x,y" and tags "z"
    only agentA is returned; agentB meets the capability filter alone. *)
Lemma search_returns_conjunction_witness :
  search_agents ascii_lower ascii_strip three_agents_state
    None (Some "x,y") (Some "z")
  = Success (JList [full_view (registry three_agents_state) "agentA"])
  /\ ~ In (full_view (registry three_agents_state) "agentB")
          (search_law ascii_lower ascii_strip (registry three_agents_state)
             None (Some "x,y") (Some "z")).
Proof.
  destruct (search_returns_conjunction ascii_lower ascii_strip three_agents_state
              None (Some "x,y") (Some "z") eq_refl) as (Hres & _ & Hexcl).
  split.
  - exact Hres.
  - exact (Hexcl "agentB" eq_refl eq_refl).
Defined.

(** * Properties beyond the claims *)

(** ** What a request can do to the store *)

Lemma keeps_at_bind {A B} (I : state -> Prop) (m : M A) (k : A -> M B) st :
  keeps_at I m st ->
  (forall a, snd (m st) = Ret a -> keeps_at I (k a) (fst (m st))) ->
  keeps_at I (bind m k) st.
Proof.
  unfold keeps_at, bind. intros Hm Hk HI. specialize (Hm HI).
  destruct (m st) as [st' [a|e]]; cbn in *; auto.
Qed.

Lemma keeps_bind {A B} (I : state -> Prop) (m : M A) (k : A -> M B) :
  keeps I m -> (forall a, keeps I (k a)) -> keeps I (bind m k).
Proof.
  intros Hm Hk st. apply keeps_at_bind; [apply Hm|]. intros a _. apply Hk.
Qed.

Lemma keeps_ret {A} (I : state -> Prop) (a : A) : keeps I (ret a).
Proof. intros st H. exact H. Qed.

Lemma keeps_read {A} (I : state -> Prop) (f : state -> A) : keeps I (read f).
Proof. intros st H. exact H. Qed.

Lemma keeps_lift {A} (I : state -> Prop) (r : result A) : keeps I (lift r).
Proof. intros st H. exact H. Qed.

Lemma keeps_write (I : state -> Prop) (f : state -> state) :
  (forall st, I st -> I (f st)) -> keeps I (write f).
Proof. intros Hf st H. exact (Hf st H). Qed.

Lemma keeps_for_each {A} (I : state -> Prop) (xs : list A) (body : A -> M unit) :
  (forall x, keeps I (body x)) -> keeps I (for_each xs body).
Proof.
  intros Hbody. induction xs as [|x xs IH]; cbn [for_each].
  - apply keeps_ret.
  - apply keeps_bind; [apply Hbody|]. intros _. exact IH.
Qed.

Lemma keeps_run (I : state -> Prop) (h : M response) st :
  keeps I h -> I st -> I (fst (run h st)).
Proof.
  intros Hh HI. specialize (Hh st HI). unfold run.
  destruct (h st) as [st' [r|e]]; exact Hh.
Qed.

(** One step of a proof that a handler keeps an invariant. *)
Ltac keeps_step :=
  first
    [ assumption
    | apply keeps_ret
    | apply keeps_read
    | apply keeps_lift
    | apply keeps_write; solve [auto]
    | apply keeps_for_each; intros ?
    | apply keeps_bind; [|intros ?]
    | match goal with
      | |- keeps _ (if ?c then _ else _) => destruct c
      | |- keeps _ (match ?x with Some _ => _ | None => _ end) => destruct x
      end ].

(** The handlers reach the store through the two save functions only:
    an invariant that no write to the cache can break and that the save
    functions keep is kept by every mutating handler. *)
Section StoreInvariant.
Variable I : state -> Prop.
Hypothesis I_set_registry : forall st r, I st -> I (set_registry r st).
Hypothesis I_set_client_registry : forall st c, I st -> I (set_client_registry c st).
Hypothesis I_save_registry : keeps I save_registry.
Hypothesis I_save_client_registry : keeps I save_client_registry.

Lemma register_keeps now data : keeps I (register now data).
Proof.
  unfold register. destruct data as [d|]; [|apply keeps_ret].
  destruct (body_agent_id d), (body_agent_url d); try apply keeps_ret.
  cbv zeta. repeat keeps_step.
Qed.

Lemma update_agent_status_keeps now id data :
  keeps I (update_agent_status now id data).
Proof. unfold update_agent_status. repeat keeps_step. Qed.

Lemma remove_alias_keeps c : keeps I (remove_alias c).
Proof. unfold remove_alias. repeat keeps_step. Qed.

Lemma delete_agent_keeps id : keeps I (delete_agent id).
Proof.
  unfold delete_agent. pose proof remove_alias_keeps. repeat keeps_step.
Qed.

(** Every mutating request keeps the invariant. *)
Lemma requests_keep st :
  I st ->
  (forall now data, I (fst (run (register now data) st)))
  /\ (forall now id data, I (fst (run (update_agent_status now id data) st)))
  /\ (forall id, I (fst (run (delete_agent id) st))).
Proof.
  intros HI. repeat split; intros; apply keeps_run; auto using register_keeps,
    update_agent_status_keeps, delete_agent_keeps.
Qed.
End StoreInvariant.

Lemma save_registry_off st :
  store_off st = true -> save_registry st = (st, Ret tt).
Proof.
  unfold store_off, save_registry. intros ->.
  destruct (agent_registry_col st); reflexivity.
Qed.

Lemma save_client_registry_off st :
  store_off st = true -> save_client_registry st = (st, Ret tt).
Proof.
  unfold store_off, save_client_registry. intros ->.
  destruct (client_registry_col st); reflexivity.
Qed.

(** X1.  With the store switched off (test mode, or MongoDB unavailable
    at start-up) no mutating request touches a collection, whatever it
    replies: the cache is the only thing that changes. *)
Theorem store_off_requests_leave_collections st :
  store_off st = true ->
  (forall now data,
      collections (fst (run (register now data) st)) = collections st)
  /\ (forall now id data,
        collections (fst (run (update_agent_status now id data) st))
        = collections st)
  /\ (forall id, collections (fst (run (delete_agent id) st)) = collections st).
Proof.
  intros Hoff.
  pose (I := fun s => store_off s = true /\ collections s = collections st).
  assert (HI : I st) by (split; auto).
  assert (Hs : keeps I save_registry).
  { intros s [H1 H2]. now rewrite save_registry_off. }
  assert (Hc : keeps I save_client_registry).
  { intros s [H1 H2]. now rewrite save_client_registry_off. }
  destruct (requests_keep I) with (st := st) as (H1 & H2 & H3);
    try assumption; try (intros s ? [? ?]; split; assumption).
  repeat split; intros; [apply H1|apply H2|apply H3].
Qed.

Lemma store_off_requests_leave_collections_witness :
  collections (fst (run (register "t0" (request "a1" "http://a")) test_mode_state))
  = (None, None).
Proof.
  exact (proj1 (store_off_requests_leave_collections test_mode_state eq_refl)
           "t0" (request "a1" "http://a")).
Defined.

(** X2.  No mutating request ever removes a document: after a request,
    whatever it replies, each collection holds at least as many
    documents as before. *)
Theorem requests_never_shrink_collections st :
  let grown st' :=
    count_docs (agent_registry_col st) <= count_docs (agent_registry_col st')
    /\ count_docs (client_registry_col st) <= count_docs (client_registry_col st') in
  (forall now data, grown (fst (run (register now data) st)))
  /\ (forall now id data, grown (fst (run (update_agent_status now id data) st)))
  /\ (forall id, grown (fst (run (delete_agent id) st))).
Proof.
  intros grown.
  assert (Hs : keeps grown save_registry).
  { intros s [H1 H2].
    destruct (save_registry_run s) as (s' & E & _ & _ & Hc & Hn).
    rewrite E. cbn. split; [lia|now rewrite Hc]. }
  assert (Hc : keeps grown save_client_registry).
  { intros s [H1 H2].
    destruct (save_client_registry_run s) as (s' & E & _ & _ & Ha & Hn).
    rewrite E. cbn. split; [now rewrite Ha|lia]. }
  apply (requests_keep grown); try assumption;
    try (intros s ? [? ?]; split; assumption).
  split; lia.
Qed.

(** X3.  [register] and [update_agent_status] never change the client
    map, whatever they reply: aliases are only ever removed, and only
    by [delete_agent]. *)
Theorem register_and_update_leave_clients st :
  (forall now data,
      client_registry (fst (run (register now data) st)) = client_registry st)
  /\ (forall now id data,
        client_registry (fst (run (update_agent_status now id data) st))
        = client_registry st).
Proof.
  pose (I := fun s => client_registry s = client_registry st).
  assert (Hs : keeps I save_registry).
  { intros s H. destruct (save_registry_run s) as (s' & E & _ & Hc & _).
    rewrite E. cbn. unfold I. now rewrite Hc. }
  split; intros; apply (keeps_run I); try reflexivity.
  - apply register_keeps; auto.
  - apply update_agent_status_keeps; auto.
Qed.

(** ** How the handlers compose *)

Lemma set_set {V} (k : string) (v v' : V) d :
  Dict.set k v (Dict.set k v' d) = Dict.set k v d.
Proof.
  induction d as [|[k0 v0] d IH]; cbn.
  - now rewrite String.eqb_refl.
  - destruct (String.eqb k0 k) eqn:E; cbn.
    + now rewrite String.eqb_refl.
    + now rewrite E, IH.
Qed.

Lemma set_same {V} (k : string) (v : V) d :
  Dict.get k d = Some v -> Dict.set k v d = d.
Proof.
  induction d as [|[k0 v0] d IH]; cbn; [discriminate|].
  destruct (String.eqb_spec k0 k) as [->|Hne].
  - now intros [= ->].
  - intros H. now rewrite IH.
Qed.

(** [lookup] on an agent of a well-formed directory. *)
Lemma lookup_agent_wf st id :
  is_agent st id = true -> wf_registry (registry st) = true ->
  lookup st id
  = Success (lookup_view
               (JStr id)
               (Dict.get_or id JNull (registry st))
               (Dict.get_or "api_url" JNull (status_of (registry st) id))
               (Dict.get_or "description" (JStr "") (status_of (registry st) id))).
Proof.
  intros Ha Hwf. unfold lookup. unfold is_agent in Ha. rewrite Ha.
  apply andb_true_iff in Ha as [Hm _].
  destruct (mem_true_get _ _ Hm) as [u Hu].
  destruct (wf_registry_status_map _ Hwf) as (sm & Hsm & Hall).
  unfold top_getitem, Dict.get_or at 1, status_of. rewrite Hu, Hsm. cbn.
  destruct (wf_status_entry sm id Hall) as [-> _]. reflexivity.
Qed.

(** X4.  Registration round trip: after a registration that passes
    validation, for an id other than the reserved name, [lookup] and
    [get_agent] on that id return what the request carried, with a
    missing api_url read back as null and a missing description as the
    empty string; the agent is not alive and has no capabilities. *)
Theorem register_then_lookup now d id url st :
  body_agent_id d = Some id -> body_agent_url d = Some url ->
  id <> "agent_status" ->
  wf_registry (registry st) = true ->
  let st' := fst (run (register now (Some d)) st) in
  lookup st' id
  = Success (lookup_view (JStr id) url (body_api_url_or_null d)
               (body_description_or_empty d))
  /\ get_agent st' id
     = Success (JObj [("agent_id", JStr id);
                      ("agent_url", url);
                      ("api_url", body_api_url_or_null d);
                      ("alive", JBool false);
                      ("assigned_to", JNull);
                      ("last_update", JStr now);
                      ("capabilities", JList []);
                      ("tags", JList []);
                      ("description", body_description_or_empty d)]).
Proof.
  intros Hid Hurl Hne Hwf st'.
  pose proof (register_preserves_wf now d id st Hid Hne Hwf) as Hwf'.
  fold st' in Hwf'.
  destruct (register_run now d id url st Hid Hurl Hne Hwf)
    as (st1 & sm & Hrun & Hsm & Hreg & _).
  assert (Hst' : registry st' = registry st1) by (unfold st'; now rewrite Hrun).
  assert (Hget : Dict.get id (registry st') = Some url).
  { rewrite Hst', Hreg. rewrite get_set_other by auto. apply get_set_same. }
  assert (Hag : is_agent st' id = true).
  { unfold is_agent, Dict.mem. rewrite Hget. cbn.
    apply negb_true_iff. now apply String.eqb_neq. }
  split.
  - rewrite lookup_agent_wf by assumption.
    unfold Dict.get_or at 1. rewrite Hget, Hst', Hreg, status_of_set.
    reflexivity.
  - rewrite get_agent_wf, Hag by assumption.
    rewrite Hst', Hreg. now rewrite full_view_after_register.
Qed.

Lemma register_then_lookup_witness :
  lookup (fst (run (register "t0" (request "a1" "http://a")) test_mode_state)) "a1"
  = Success (lookup_view (JStr "a1") (JStr "http://a") JNull (JStr "")).
Proof.
  exact (proj1 (register_then_lookup "t0"
                  (mkBody (Some "a1") (Some (JStr "http://a")) None None)
                  "a1" (JStr "http://a") test_mode_state
                  eq_refl eq_refl ltac:(discriminate) eq_refl)).
Defined.

(** X5.  Registering the same request twice leaves the cache as one
    registration at the later time does: a repeated registration adds no
    second record and only moves last_update. *)
Theorem register_twice now now' d id st :
  body_agent_id d = Some id -> id <> "agent_status" ->
  wf_registry (registry st) = true ->
  let once := fst (run (register now' (Some d)) st) in
  let twice :=
    fst (run (register now' (Some d)) (fst (run (register now (Some d)) st))) in
  registry twice = registry once
  /\ client_registry twice = client_registry once.
Proof.
  intros Hid Hne Hwf once twice. subst once twice.
  destruct (body_agent_url d) as [url|] eqn:Hurl.
  - pose proof (register_preserves_wf now d id st Hid Hne Hwf) as Hwf1.
    destruct (register_run now d id url st Hid Hurl Hne Hwf)
      as (st1 & sm & Hrun1 & Hsm & Hreg1 & Hc1).
    rewrite Hrun1 in *. cbn [fst] in *.
    destruct (register_run now' d id url st1 Hid Hurl Hne Hwf1)
      as (st2 & sm1 & -> & Hsm1 & Hreg2 & Hc2).
    destruct (register_run now' d id url st Hid Hurl Hne Hwf)
      as (st3 & sm' & -> & Hsm' & Hreg3 & Hc3).
    cbn [fst]. rewrite Hsm in Hsm'. injection Hsm' as <-.
    split; [|congruence].
    rewrite Hreg1, get_set_same in Hsm1. injection Hsm1 as <-.
    rewrite Hreg2, Hreg3, Hreg1.
    rewrite (set_same id url).
    + now rewrite !set_set.
    + rewrite get_set_other by auto. apply get_set_same.
  - unfold run, register. rewrite Hid, Hurl. cbn. auto.
Qed.

Lemma register_twice_witness :
  registry (fst (run (register "t1" (request "a1" "http://a"))
                   (fst (run (register "t0" (request "a1" "http://a"))
                           test_mode_state))))
  = registry (fst (run (register "t1" (request "a1" "http://a")) test_mode_state)).
Proof.
  exact (proj1 (register_twice "t0" "t1"
                  (mkBody (Some "a1") (Some (JStr "http://a")) None None)
                  "a1" test_mode_state eq_refl ltac:(discriminate) eq_refl)).
Defined.

(** X6.  After a deletion that replied success the id is unknown to
    every handler that takes an agent id: [get_agent], a second
    [delete_agent] and [update_agent_status] reply NotFound and leave the
    state as it is, and [lookup] replies NotFound unless the id is also a
    key of the client map. *)
Theorem delete_then_not_found st id st' body :
  run (delete_agent id) st = (st', Success body) ->
  get_agent st' id = NotFound not_found_body
  /\ run (delete_agent id) st' = (st', NotFound not_found_body)
  /\ (forall now data,
        run (update_agent_status now id data) st' = (st', NotFound not_found_body))
  /\ (Dict.mem id (client_registry st') = false ->
      exists b, lookup st' id = NotFound b).
Proof.
  intros Hrun.
  assert (Hag : is_agent st' id = false).
  { destruct (is_agent st id) eqn:Hag.
    - destruct (delete_agent_outcome st id Hag)
        as [(_ & st1 & e & Hrun' & _)|(st1 & Hrun' & Hdel & _)]; [congruence|].
      rewrite Hrun in Hrun'. injection Hrun' as <- _.
      unfold is_agent, Dict.mem. destruct Hdel as [-> _]. reflexivity.
    - rewrite delete_agent_not_found in Hrun by assumption. discriminate. }
  split; [|split; [|split]].
  - unfold get_agent. unfold is_agent in Hag.
    destruct (Dict.mem id (registry st')); cbn in *; [|reflexivity].
    apply negb_false_iff in Hag. now rewrite Hag.
  - now apply delete_agent_not_found.
  - intros. now apply update_agent_status_not_found.
  - intros Hc. unfold lookup. unfold is_agent in Hag. rewrite Hag, Hc. eauto.
Qed.

Lemma delete_then_not_found_witness :
  get_agent (fst (run (delete_agent "a1") persisted_state)) "a1"
  = NotFound not_found_body.
Proof.
  exact (proj1 (delete_then_not_found persisted_state "a1"
                  (fst (run (delete_agent "a1") persisted_state))
                  (deleted_body "a1") eq_refl)).
Defined.

(** The directory after a deletion in a well-formed cache, whatever the
    cascade over the client map does. *)
Lemma delete_agent_registry st id :
  is_agent st id = true -> wf_registry (registry st) = true ->
  exists sm,
    Dict.get "agent_status" (registry st) = Some (JObj sm)
    /\ registry (fst (run (delete_agent id) st))
       = Dict.set "agent_status" (JObj (Dict.pop id sm))
           (Dict.pop id (registry st)).
Proof.
  intros Hag Hwf. destruct (is_agent_get _ _ Hag) as [Hne _].
  destruct (wf_registry_status_map _ Hwf) as (sm & Hsm & _).
  exists sm. split; [assumption|].
  unfold is_agent in Hag. apply andb_true_iff in Hag as [Hm Hs].
  unfold delete_agent. rewrite run_read, Hm.
  apply negb_true_iff in Hs. rewrite Hs. cbn [negb orb].
  rewrite run_write, run_read. cbn [registry set_registry].
  rewrite get_pop_other, Hsm by auto. cbn [py_pop].
  erewrite run_bind_ret by (unfold bind, lift, write; reflexivity).
  match goal with |- registry (fst (run ?h ?s)) = ?X =>
    apply (keeps_run (fun s' => registry s' = X) h s); [|reflexivity]
  end.
  assert (Hs1 : keeps (fun s' => registry s' =
                         Dict.set "agent_status" (JObj (Dict.pop id sm))
                           (Dict.pop id (registry st))) save_registry).
  { intros s H. destruct (save_registry_run s) as (s' & E & Hr & _).
    rewrite E. cbn. congruence. }
  assert (Hs2 : keeps (fun s' => registry s' =
                         Dict.set "agent_status" (JObj (Dict.pop id sm))
                           (Dict.pop id (registry st))) save_client_registry).
  { intros s H. destruct (save_client_registry_run s) as (s' & E & Hr & _).
    rewrite E. cbn. congruence. }
  assert (Hra : forall c,
             keeps (fun s' => registry s' =
                      Dict.set "agent_status" (JObj (Dict.pop id sm))
                        (Dict.pop id (registry st))) (remove_alias c)).
  { intros c. unfold remove_alias. repeat keeps_step. }
  repeat keeps_step.
Qed.

Lemma full_view_after_delete reg sm id id' :
  Dict.get "agent_status" reg = Some (JObj sm) ->
  id <> "agent_status" -> id' <> "agent_status" -> id' <> id ->
  full_view (Dict.set "agent_status" (JObj (Dict.pop id sm)) (Dict.pop id reg)) id'
  = full_view reg id'.
Proof.
  intros Hsm Hne Hne' Hdiff. unfold full_view, status_of, Dict.get_or.
  rewrite !get_set_same.
  rewrite !(get_set_other "agent_status") by auto.
  rewrite !(get_pop_other id) by auto.
  now rewrite Hsm.
Qed.

(** X7.  Deleting an agent of a well-formed directory leaves every other
    agent as it was: [get_agent] on any other id replies the same before
    and after, and no other id appears or disappears. *)
Theorem delete_leaves_other_agents st id :
  is_agent st id = true -> wf_registry (registry st) = true ->
  let st' := fst (run (delete_agent id) st) in
  forall id', id' <> id ->
    is_agent st' id' = is_agent st id'
    /\ get_agent st' id' = get_agent st id'.
Proof.
  intros Hag Hwf st' id' Hdiff.
  destruct (is_agent_get _ _ Hag) as [Hne _].
  destruct (delete_agent_registry st id Hag Hwf) as (sm & Hsm & Hreg).
  fold st' in Hreg.
  destruct (wf_registry_status_map _ Hwf) as (sm' & Hsm' & Hall).
  rewrite Hsm in Hsm'. injection Hsm' as <-.
  assert (Hwf' : wf_registry (registry st') = true).
  { rewrite Hreg. now apply wf_registry_after_pop. }
  assert (Hia : is_agent st' id' = is_agent st id').
  { unfold is_agent. destruct (String.eqb_spec id' "agent_status") as [->|Hs].
    - now rewrite !andb_false_r.
    - unfold Dict.mem. rewrite Hreg.
      rewrite get_set_other, get_pop_other by auto. reflexivity. }
  split; [assumption|].
  rewrite !get_agent_wf, Hia by assumption.
  destruct (is_agent st id') eqn:Hag'; [|reflexivity].
  destruct (is_agent_get _ _ Hag') as [Hs _].
  now rewrite Hreg, full_view_after_delete.
Qed.

Lemma delete_leaves_other_agents_witness :
  get_agent (fst (run (delete_agent "agentB") three_agents_state)) "agentA"
  = get_agent three_agents_state "agentA".
Proof.
  exact (proj2 (delete_leaves_other_agents three_agents_state "agentB"
                  eq_refl eq_refl "agentA" ltac:(discriminate))).
Defined.

Lemma full_view_set_status_other reg sm id id' rec :
  Dict.get "agent_status" reg = Some (JObj sm) ->
  id' <> "agent_status" -> id' <> id ->
  full_view (Dict.set "agent_status" (JObj (Dict.set id rec sm)) reg) id'
  = full_view reg id'.
Proof.
  intros Hsm Hne' Hdiff. unfold full_view.
  rewrite status_of_set_other by auto.
  unfold Dict.get_or. now rewrite !(get_set_other "agent_status") by auto.
Qed.

(** X8.  A status update of one agent of a well-formed directory leaves
    every other agent as it was, and never changes which ids are
    agents. *)
Theorem update_leaves_other_agents now id data st :
  is_agent st id = true -> wf_registry (registry st) = true ->
  let st' := fst (run (update_agent_status now id data) st) in
  (forall id', is_agent st' id' = is_agent st id')
  /\ (forall id', id' <> id -> get_agent st' id' = get_agent st id').
Proof.
  intros Hag Hwf st'.
  destruct (update_agent_status_run now id data st Hag Hwf)
    as (st1 & sm & Hrun & Hsm & Hreg & _ & Hwf').
  assert (Est : st' = st1) by (unfold st'; now rewrite Hrun).
  rewrite Est. clear st' Est.
  assert (Hia : forall id', is_agent st1 id' = is_agent st id').
  { intros id'. unfold is_agent.
    destruct (String.eqb_spec id' "agent_status") as [->|Hs].
    - now rewrite !andb_false_r.
    - unfold Dict.mem. rewrite Hreg. now rewrite get_set_other by auto. }
  split; [assumption|].
  intros id' Hdiff. rewrite !get_agent_wf, Hia by assumption.
  destruct (is_agent st id') eqn:Hag'; [|reflexivity].
  destruct (is_agent_get _ _ Hag') as [Hs _].
  now rewrite Hreg, full_view_set_status_other.
Qed.

Lemma update_leaves_other_agents_witness :
  get_agent (fst (run (update_agent_status "t2" "agentB" [("alive", JBool false)])
                    three_agents_state)) "agentA"
  = get_agent three_agents_state "agentA".
Proof.
  exact (proj2 (update_leaves_other_agents "t2" "agentB" [("alive", JBool false)]
                  three_agents_state eq_refl eq_refl)
           "agentA" ltac:(discriminate)).
Defined.

Lemma get_merge_field_dict_refused f data key guard conv so :
  (f = key -> forall v, Dict.get key data = Some v -> guard v = false) ->
  Dict.get f (merge_field_dict data key guard conv so) = Dict.get f so.
Proof.
  intros H. unfold merge_field_dict.
  destruct (Dict.get key data) as [v|] eqn:E; [|reflexivity].
  destruct (guard v) eqn:Eg; [|reflexivity].
  apply get_set_other. intros ->. specialize (H eq_refl v eq_refl). congruence.
Qed.

(** X9.  The type guards of a status update: a capabilities or tags
    value that is not a list, and a description that is not a string,
    are ignored.  The update still replies success and refreshes
    last_update, and the stored field keeps its value. *)
Theorem update_ignores_ill_typed_fields now id data st f v :
  is_agent st id = true -> wf_registry (registry st) = true ->
  Dict.get f data = Some v ->
  (f = "capabilities" \/ f = "tags") /\ isinstance_list v = false
  \/ f = "description" /\ isinstance_str v = false ->
  let st' := fst (run (update_agent_status now id data) st) in
  (exists body, snd (run (update_agent_status now id data) st) = Success body)
  /\ Dict.get f (status_of (registry st') id)
     = Dict.get f (status_of (registry st) id)
  /\ Dict.get "last_update" (status_of (registry st') id) = Some (JStr now).
Proof.
  intros Hag Hwf Hv Hbad st'.
  destruct (update_agent_status_run now id data st Hag Hwf)
    as (st1 & sm & Hrun & Hsm & Hreg & _ & Hwf').
  assert (Est : st' = st1) by (unfold st'; now rewrite Hrun).
  rewrite Est, Hrun. clear st' Est. cbn [snd].
  split; [eauto|]. rewrite Hreg, status_of_set.
  split; [|apply get_merged_status_last_update].
  unfold merged_status.
  destruct Hbad as [[[-> | ->] Hl]|[-> Hs]].
  - rewrite !get_merge_field_dict by discriminate.
    rewrite get_merge_field_dict_refused
      by (intros _ v' Hv'; rewrite Hv in Hv'; now injection Hv' as <-).
    rewrite get_set_other by discriminate.
    now rewrite !get_merge_field_dict by discriminate.
  - rewrite get_merge_field_dict by discriminate.
    rewrite get_merge_field_dict_refused
      by (intros _ v' Hv'; rewrite Hv in Hv'; now injection Hv' as <-).
    rewrite get_merge_field_dict by discriminate.
    rewrite get_set_other by discriminate.
    now rewrite !get_merge_field_dict by discriminate.
  - rewrite get_merge_field_dict_refused
      by (intros _ v' Hv'; rewrite Hv in Hv'; now injection Hv' as <-).
    rewrite !get_merge_field_dict by discriminate.
    rewrite get_set_other by discriminate.
    now rewrite !get_merge_field_dict by discriminate.
Qed.

(** A capabilities value sent as one string instead of a list is dropped. *)
Lemma update_ignores_ill_typed_fields_witness :
  Dict.get "capabilities"
    (status_of (registry (fst (run (update_agent_status "t2" "a1"
                                      [("capabilities", JStr "y")])
                                 described_state))) "a1")
  = Some (JList [JStr "x"]).
Proof.
  exact (proj1 (proj2 (update_ignores_ill_typed_fields "t2" "a1"
                         [("capabilities", JStr "y")] described_state
                         "capabilities" (JStr "y") eq_refl eq_refl eq_refl
                         (or_introl (conj (or_introl eq_refl) eq_refl))))).
Defined.

(** X10.  For an agent of a well-formed directory the reply of [lookup]
    is the reply of [get_agent] cut down to four fields: each of
    agent_id, agent_url, api_url and description has the same value in
    both. *)
Theorem lookup_projects_get_agent st id f :
  is_agent st id = true -> wf_registry (registry st) = true ->
  In f lookup_fields ->
  view_field f (lookup st id) = view_field f (get_agent st id)
  /\ view_field f (lookup st id) <> None.
Proof.
  intros Hag Hwf Hf.
  rewrite lookup_agent_wf, get_agent_wf, Hag by assumption.
  unfold lookup_fields in Hf. simpl in Hf.
  destruct Hf as [<-|[<-|[<-|[<-|[]]]]]; cbn; split;
    try reflexivity; discriminate.
Qed.

Lemma lookup_projects_get_agent_witness :
  view_field "agent_url" (lookup announced_state "a1")
  = view_field "agent_url" (get_agent announced_state "a1").
Proof.
  exact (proj1 (lookup_projects_get_agent announced_state "a1" "agent_url"
                  eq_refl eq_refl (or_intror (or_introl eq_refl)))).
Defined.

(** ** Counting and listing *)

Lemma count_alive_wf reg sm agents :
  Dict.get "agent_status" reg = Some (JObj sm) ->
  forallb (fun kv => wf_status_obj (snd kv)) sm = true ->
  count_alive (JObj sm) agents = Ret (length (filter (alive_of reg) agents)).
Proof.
  intros Hsm Hall. induction agents as [|a agents IH]; [reflexivity|].
  cbn [count_alive py_get rbind filter].
  destruct (wf_status_entry sm a Hall) as [-> _]. cbn [py_get rbind].
  rewrite IH. cbn [rbind].
  assert (Ha : truthy (Dict.get_or "alive" JNull
                         match Dict.get a sm with
                         | Some (JObj so) => so
                         | _ => []
                         end) = alive_of reg a).
  { unfold alive_of, status_of. now rewrite Hsm. }
  rewrite Ha. destruct (alive_of reg a); reflexivity.
Qed.

Lemma stats_wf st :
  wf_registry (registry st) = true ->
  stats st
  = Success (stats_body (length (agent_ids (registry st)))
               (length (alive_ids (registry st)))
               (length (client_names (client_registry st)))
               (USE_MONGO st && negb (TEST_MODE st))).
Proof.
  intros Hwf. destruct (wf_registry_status_map _ Hwf) as (sm & Hsm & Hall).
  unfold stats, Dict.mem, Dict.get_or. rewrite Hsm.
  fold (agent_ids (registry st)).
  rewrite (count_alive_wf (registry st)) by assumption. reflexivity.
Qed.

Lemma length_filter_keys {V} (p : string -> bool) (d : list (string * V)) :
  length (filter (fun kv => p (fst kv)) d) = length (filter p (Dict.keys d)).
Proof.
  induction d as [|[k v] d IH]; cbn; [reflexivity|].
  destruct (p k); cbn; now rewrite IH.
Qed.

(** X11.  On a well-formed directory [stats] never raises, and its
    counts agree with the other read handlers: total_agents is the
    number of entries [list_agents] returns, total_clients the number of
    entries [list_clients] returns, and alive_agents counts the agents
    whose stored alive flag is truthy, so it never exceeds
    total_agents. *)
Theorem stats_agrees_with_listings st :
  wf_registry (registry st) = true ->
  (exists body, stats st = Success body)
  /\ count_field "total_agents" (stats st) = reply_size (list_agents st)
  /\ count_field "total_clients" (stats st) = reply_size (list_clients st)
  /\ count_field "alive_agents" (stats st)
     = Some (length (alive_ids (registry st)))
  /\ length (alive_ids (registry st)) <= length (agent_ids (registry st))
  /\ count_field "total_agents" (stats st)
     = Some (length (agent_ids (registry st))).
Proof.
  intros Hwf. rewrite stats_wf by assumption.
  unfold count_field, stats_body. cbn [view_field json_field Dict.get String.eqb
                                       Ascii.eqb Bool.eqb].
  rewrite !Nat2Z.id.
  split; [eauto|]. split; [|split; [|split; [|split]]].
  - unfold list_agents, reply_size, agent_ids.
    now rewrite (length_filter_keys (fun k => negb (String.eqb k "agent_status"))).
  - unfold list_clients, reply_size, client_names. now rewrite length_map.
  - reflexivity.
  - unfold alive_ids. apply filter_length_le.
  - reflexivity.
Qed.

Lemma stats_agrees_with_listings_witness :
  count_field "total_agents" (stats three_agents_state) = Some 3
  /\ count_field "alive_agents" (stats three_agents_state) = Some 3.
Proof.
  destruct (stats_agrees_with_listings three_agents_state eq_refl)
    as (_ & Ht & _ & Ha & _ & _).
  split; [exact Ht|exact Ha].
Defined.

(** X12.  [list_agents] and [get_agent] tell the same story: for every
    id, on a well-formed directory, the agent_url that [get_agent]
    replies is the value [list_agents] maps the id to, and both are
    absent when the id is no agent; the reserved key is never listed. *)
Theorem list_agents_agrees_with_get_agent st id :
  wf_registry (registry st) = true ->
  view_field id (list_agents st) = view_field "agent_url" (get_agent st id)
  /\ view_field "agent_status" (list_agents st) = None.
Proof.
  intros Hwf. rewrite get_agent_wf by assumption.
  unfold list_agents, view_field, json_field.
  fold (@Dict.pop json "agent_status" (registry st)).
  split; [|apply get_pop_same].
  unfold is_agent, Dict.mem.
  destruct (String.eqb_spec id "agent_status") as [->|Hne].
  - rewrite get_pop_same, andb_false_r. reflexivity.
  - rewrite get_pop_other by auto. unfold full_view, Dict.get_or.
    destruct (Dict.get id (registry st)); reflexivity.
Qed.

Lemma list_agents_agrees_with_get_agent_witness :
  view_field "agentB" (list_agents three_agents_state)
  = Some (JStr "http://agentB").
Proof.
  rewrite (proj1 (list_agents_agrees_with_get_agent three_agents_state "agentB"
                    eq_refl)).
  reflexivity.
Defined.

Lemma keys_set {V} (k : string) (v : V) d :
  Dict.keys (Dict.set k v d)
  = if Dict.mem k d then Dict.keys d else Dict.keys d ++ [k].
Proof.
  unfold Dict.mem, Dict.keys. induction d as [|[k0 v0] d IH]; cbn; [reflexivity|].
  destruct (String.eqb_spec k0 k) as [->|Hne]; cbn; [reflexivity|].
  rewrite IH. destruct (Dict.get k d); reflexivity.
Qed.

Lemma agent_ids_after_register reg sm id url rec :
  Dict.get "agent_status" reg = Some (JObj sm) -> id <> "agent_status" ->
  agent_ids (Dict.set "agent_status" (JObj (Dict.set id rec sm)) (Dict.set id url reg))
  = if Dict.mem id reg then agent_ids reg else agent_ids reg ++ [id].
Proof.
  intros Hsm Hne. unfold agent_ids. rewrite keys_set.
  unfold Dict.mem at 1. rewrite get_set_other, Hsm by auto.
  rewrite keys_set. destruct (Dict.mem id reg); [reflexivity|].
  rewrite filter_app. cbn. apply String.eqb_neq in Hne. now rewrite Hne.
Qed.

Lemma alive_of_after_register reg sm id url api desc now a :
  Dict.get "agent_status" reg = Some (JObj sm) -> id <> "agent_status" ->
  alive_of (Dict.set "agent_status"
              (JObj (Dict.set id (JObj (fresh_status api desc now)) sm))
              (Dict.set id url reg)) a
  = negb (String.eqb a id) && alive_of reg a.
Proof.
  intros Hsm Hne. unfold alive_of.
  destruct (String.eqb_spec a id) as [->|Hdiff].
  - now rewrite status_of_set.
  - rewrite status_of_set_other by (auto; rewrite get_set_other; auto).
    unfold status_of. now rewrite get_set_other by auto.
Qed.

Lemma filter_filter {A} (f g : A -> bool) l :
  filter f (filter g l) = filter (fun x => f x && g x) l.
Proof.
  induction l as [|x l IH]; cbn; [reflexivity|].
  destruct (g x); cbn; rewrite ?andb_true_r, ?andb_false_r;
    [destruct (f x)|]; now rewrite IH.
Qed.

(** X13.  What a registration does to the counts of [stats]: a new id
    raises total_agents by one and an id already in the directory leaves
    it; the registered agent is not counted alive afterwards, while
    every other agent counts as before, so alive_agents never grows. *)
Theorem register_effect_on_stats now d id url st :
  body_agent_id d = Some id -> body_agent_url d = Some url ->
  id <> "agent_status" ->
  wf_registry (registry st) = true ->
  let st' := fst (run (register now (Some d)) st) in
  count_field "total_agents" (stats st')
  = Some (length (agent_ids (registry st)) + (if is_agent st id then 0 else 1))
  /\ count_field "alive_agents" (stats st')
     = Some (length (filter (fun a => negb (String.eqb a id))
                       (alive_ids (registry st))))
  /\ length (alive_ids (registry st')) <= length (alive_ids (registry st)).
Proof.
  intros Hid Hurl Hne Hwf st'.
  pose proof (register_preserves_wf now d id st Hid Hne Hwf) as Hwf'.
  fold st' in Hwf'.
  destruct (register_run now d id url st Hid Hurl Hne Hwf)
    as (st1 & sm & Hrun & Hsm & Hreg & _).
  assert (Hst' : registry st' = registry st1) by (unfold st'; now rewrite Hrun).
  assert (Hids : agent_ids (registry st')
                 = if is_agent st id then agent_ids (registry st)
                   else agent_ids (registry st) ++ [id]).
  { rewrite Hst', Hreg, agent_ids_after_register by assumption.
    unfold is_agent. apply String.eqb_neq in Hne. rewrite Hne.
    now rewrite andb_true_r. }
  assert (Halive : alive_ids (registry st')
                   = filter (fun a => negb (String.eqb a id))
                       (alive_ids (registry st))).
  { unfold alive_ids. rewrite Hids, filter_filter.
    assert (Hext : forall l,
               filter (alive_of (registry st')) l
               = filter (fun x => negb (String.eqb x id) && alive_of (registry st) x) l).
    { intros l. apply filter_ext. intros a. rewrite Hst', Hreg.
      now apply alive_of_after_register. }
    destruct (is_agent st id); rewrite Hext; [reflexivity|].
    rewrite filter_app. cbn. rewrite String.eqb_refl. cbn. apply app_nil_r. }
  rewrite stats_wf by assumption.
  unfold count_field, stats_body. cbn [view_field json_field Dict.get String.eqb
                                       Ascii.eqb Bool.eqb].
  rewrite !Nat2Z.id, Hids, Halive.
  split; [|split].
  - destruct (is_agent st id); [now rewrite Nat.add_0_r|].
    now rewrite length_app.
  - reflexivity.
  - apply filter_length_le.
Qed.

Lemma register_effect_on_stats_witness :
  count_field "total_agents"
    (stats (fst (run (register "t2" (request "agentD" "http://d"))
                   three_agents_state))) = Some 4
  /\ count_field "alive_agents"
       (stats (fst (run (register "t2" (request "agentB" "http://b"))
                      three_agents_state))) = Some 2.
Proof.
  split.
  - exact (proj1 (register_effect_on_stats "t2"
                    (mkBody (Some "agentD") (Some (JStr "http://d")) None None)
                    "agentD" (JStr "http://d") three_agents_state
                    eq_refl eq_refl ltac:(discriminate) eq_refl)).
  - exact (proj1 (proj2 (register_effect_on_stats "t2"
                    (mkBody (Some "agentB") (Some (JStr "http://b")) None None)
                    "agentB" (JStr "http://b") three_agents_state
                    eq_refl eq_refl ltac:(discriminate) eq_refl))).
Defined.

(** ** Start-up *)

Lemma bare_registry_wf reg : bare_registry reg = true -> wf_registry reg = true.
Proof.
  unfold bare_registry, wf_registry.
  destruct (Dict.get "agent_status" reg) as [[]|]; try discriminate.
  intros H. rewrite forallb_forall in *. intros kv Hkv. specialize (H kv Hkv).
  destruct (snd kv); try discriminate. cbn in *.
  apply andb_true_iff in H as [Hc Ht].
  unfold Dict.mem in *.
  destruct (Dict.get "capabilities" fields0); [discriminate|].
  destruct (Dict.get "tags" fields0); [discriminate|]. reflexivity.
Qed.

Lemma bare_registry_status reg id :
  bare_registry reg = true ->
  Dict.get "capabilities" (status_of reg id) = None
  /\ Dict.get "tags" (status_of reg id) = None.
Proof.
  unfold bare_registry, status_of.
  destruct (Dict.get "agent_status" reg) as [[]|]; try discriminate.
  intros Hall. destruct (Dict.get id fields) as [v|] eqn:E; [|auto].
  pose proof (forallb_get bare_record _ _ _ Hall E) as Hv.
  destruct v; try discriminate. cbn in Hv.
  apply andb_true_iff in Hv as [Hc Ht]. unfold Dict.mem in *.
  destruct (Dict.get "capabilities" fields0); [discriminate|].
  destruct (Dict.get "tags" fields0); [discriminate|]. auto.
Qed.

(** The loop of lines 53-64 keeps every status record bare, as long as no
    document is filed under the reserved key. *)
Lemma load_agents_loop_bare docs : forall reg reg',
  no_reserved_doc "agent_id" "agent_status" docs = true ->
  bare_registry reg = true ->
  load_agents_loop docs reg = Some reg' ->
  bare_registry reg' = true.
Proof.
  induction docs as [|doc docs IH]; intros reg reg' Hres Hbare Hload.
  - cbn in Hload. now injection Hload as <-.
  - cbn [no_reserved_doc forallb] in Hres.
    apply andb_true_iff in Hres as [Hdoc Hres]. fold (no_reserved_doc "agent_id" "agent_status" docs) in Hres.
    cbn [load_agents_loop] in Hload.
    destruct (negb (truthy (Dict.get_or "agent_id" JNull doc))); [eauto|].
    destruct (Dict.get_or "agent_id" JNull doc) as [| | |id| |] eqn:Eid;
      try discriminate Hload; try (injection Hload as <-; assumption).
    cbn in Hdoc. apply negb_true_iff in Hdoc.
    assert (Hne : id <> "agent_status") by now apply String.eqb_neq.
    unfold bare_registry in Hbare.
    destruct (Dict.get "agent_status" reg) as [[| | | | |sm]|] eqn:Esm;
      try discriminate Hbare.
    unfold top_getitem in Hload. rewrite get_set_other, Esm in Hload by auto.
    cbn in Hload. apply IH in Hload; auto.
    unfold bare_registry. rewrite get_set_same.
    apply forallb_set; auto.
Qed.

Lemma startup_connected agents clients st :
  startup false (Some (agents, clients)) = Some st ->
  exists reg creg,
    load_agents_loop agents initial_registry = Some reg
    /\ load_clients_loop clients initial_client_registry = Some creg
    /\ st = mkState false true (Some agents) (Some clients) reg creg.
Proof.
  unfold startup.
  destruct (load_agents_loop agents initial_registry) as [reg|]; [|discriminate].
  destruct (load_clients_loop clients initial_client_registry) as [creg|];
    [|discriminate].
  intros [= <-]. eauto.
Qed.

(** X14.  A restart forgets capabilities and tags.  Whatever the stored
    documents hold, the start-up loop builds each status record from
    five fields only, so every agent of the directory it leaves shows
    empty capabilities and tags; that directory is well formed. *)
Theorem startup_forgets_capabilities agents clients st :
  no_reserved_doc "agent_id" "agent_status" agents = true ->
  startup false (Some (agents, clients)) = Some st ->
  wf_registry (registry st) = true
  /\ forall id, is_agent st id = true ->
       view_field "capabilities" (get_agent st id) = Some (JList [])
       /\ view_field "tags" (get_agent st id) = Some (JList []).
Proof.
  intros Hres Hst.
  destruct (startup_connected _ _ _ Hst) as (reg & creg & Hreg & _ & ->).
  assert (Hbare : bare_registry reg = true)
    by (apply (load_agents_loop_bare agents initial_registry reg Hres eq_refl Hreg)).
  pose proof (bare_registry_wf _ Hbare) as Hwf.
  split; [exact Hwf|]. intros id Hag.
  rewrite get_agent_wf, Hag by exact Hwf. cbn [registry].
  destruct (bare_registry_status reg id Hbare) as [Hc Ht].
  unfold full_view, view_field, json_field, Dict.get_or.
  rewrite Hc, Ht. split; reflexivity.
Qed.

(** The store of [announced_state] holds capabilities [x] for a1, and
    [get_agent] shows them; they are gone after a restart over that
    store. *)
Lemma startup_forgets_capabilities_witness :
  exists st,
    restart announced_state = Some st
    /\ (exists doc, stored_agents announced_state = [doc]
                    /\ Dict.get "capabilities" doc = Some (JList [JStr "x"]))
    /\ view_field "capabilities" (get_agent announced_state "a1")
       = Some (JList [JStr "x"])
    /\ view_field "capabilities" (get_agent st "a1") = Some (JList []).
Proof.
  eexists. split; [reflexivity|].
  split; [eexists; split; reflexivity|]. split; [reflexivity|].
  exact (proj1 (proj2 (startup_forgets_capabilities
                         (stored_agents announced_state)
                         (stored_clients announced_state) _ eq_refl eq_refl)
                  "a1" eq_refl)).
Defined.

Lemma doc_id_truthy field doc id :
  doc_id field doc = Some id ->
  Dict.get_or field JNull doc = JStr id /\ truthy (JStr id) = true.
Proof.
  unfold doc_id. destruct (Dict.get_or field JNull doc); try discriminate.
  destruct (String.eqb s "") eqn:E; [discriminate|].
  intros [= <-]. cbn. now rewrite E.
Qed.

Lemma doc_id_none field reserved doc :
  loadable_doc field reserved doc = true -> doc_id field doc = None ->
  truthy (Dict.get_or field JNull doc) = false.
Proof.
  unfold loadable_doc, doc_id.
  destruct (Dict.get_or field JNull doc) as [| | |s| |]; cbn; intros H1 H2;
    try (rewrite orb_false_r in H1; now apply negb_true_iff in H1);
    try reflexivity.
  destruct (String.eqb s ""); [reflexivity|discriminate H2].
Qed.

Lemma uniqueb_app_head x l l' :
  uniqueb ((x :: l) ++ l') = true -> ~ In x l' /\ uniqueb (l ++ l') = true.
Proof.
  cbn. intros H. apply andb_true_iff in H as [Hx Hu]. split; [|assumption].
  intros Hin. apply negb_true_iff in Hx.
  assert (existsb (String.eqb x) (l ++ l') = true).
  { apply existsb_exists. exists x. split; [|apply String.eqb_refl].
    apply in_or_app. now right. }
  congruence.
Qed.

(** What the loop of lines 53-64 builds from documents with distinct
    ids, none of them the reserved key: each document is found again
    under its id, and ids that no document carries are left alone. *)
Lemma load_agents_loop_round_trip docs : forall reg sm,
  forallb (loadable_doc "agent_id" "agent_status") docs = true ->
  uniqueb (doc_ids "agent_id" docs) = true ->
  Dict.get "agent_status" reg = Some (JObj sm) ->
  exists reg' sm',
    load_agents_loop docs reg = Some reg'
    /\ Dict.get "agent_status" reg' = Some (JObj sm')
    /\ (forall doc id, In doc docs -> doc_id "agent_id" doc = Some id ->
          Dict.get id reg' = Some (Dict.get_or "agent_url" JNull doc)
          /\ Dict.get id sm' = Some (JObj (loaded_status doc)))
    /\ (forall id, ~ In id (doc_ids "agent_id" docs) -> id <> "agent_status" ->
          Dict.get id reg' = Dict.get id reg /\ Dict.get id sm' = Dict.get id sm).
Proof.
  induction docs as [|doc docs IH]; intros reg sm Hok Huniq Hsm.
  - exists reg, sm. cbn. repeat split; auto; contradiction.
  - cbn [forallb] in Hok. apply andb_true_iff in Hok as [Hdoc Hok].
    cbn [load_agents_loop doc_ids flat_map] in *.
    fold (doc_ids "agent_id" docs) in *.
    destruct (doc_id "agent_id" doc) as [id0|] eqn:Eid.
    + destruct (doc_id_truthy _ _ _ Eid) as [Ev Ht]. rewrite Ev, Ht. cbn [negb].
      assert (Hne : id0 <> "agent_status").
      { unfold loadable_doc in Hdoc. rewrite Ev, Ht in Hdoc. cbn in Hdoc.
        apply negb_true_iff in Hdoc. now apply String.eqb_neq. }
      apply (uniqueb_app_head id0 []) in Huniq as [Hfresh Huniq].
      cbn [app] in Huniq.
      unfold top_getitem. rewrite get_set_other, Hsm by auto. cbn.
      destruct (IH (Dict.set "agent_status"
                      (JObj (Dict.set id0 (JObj (loaded_status doc)) sm))
                      (Dict.set id0 (Dict.get_or "agent_url" JNull doc) reg))
                  (Dict.set id0 (JObj (loaded_status doc)) sm) Hok Huniq)
        as (reg' & sm' & Hload & Hsm' & Hdocs & Hframe);
        [apply get_set_same|].
      exists reg', sm'. split; [exact Hload|]. split; [exact Hsm'|]. split.
      * intros doc' id [<-|Hin] Hid.
        -- rewrite Eid in Hid. injection Hid as <-.
           destruct (Hframe id0 Hfresh Hne) as [-> ->].
           rewrite get_set_other by auto. now rewrite !get_set_same.
        -- now apply Hdocs.
      * intros id Hnot Hnr.
        assert (Hdiff : id <> id0) by (intros ->; apply Hnot; now left).
        assert (Hnot' : ~ In id (doc_ids "agent_id" docs))
          by (intros Hin; apply Hnot; now right).
        destruct (Hframe id Hnot' Hnr) as [-> ->].
        rewrite get_set_other by auto. now rewrite !get_set_other by auto.
    + rewrite (doc_id_none _ _ _ Hdoc Eid). cbn [negb app] in *.
      destruct (IH reg sm Hok Huniq Hsm) as (reg' & sm' & Hload & Hsm' & Hdocs & Hframe).
      exists reg', sm'. split; [exact Hload|]. split; [exact Hsm'|]. split.
      * intros doc' id [<-|Hin] Hid; [congruence|now apply Hdocs].
      * exact Hframe.
Qed.

(** The same for the loop of lines 71-76 and the alias map. *)
Lemma load_clients_loop_round_trip docs : forall creg am,
  forallb (loadable_doc "client_name" "agent_map") docs = true ->
  uniqueb (doc_ids "client_name" docs) = true ->
  Dict.get "agent_map" creg = Some (JObj am) ->
  exists creg' am',
    load_clients_loop docs creg = Some creg'
    /\ Dict.get "agent_map" creg' = Some (JObj am')
    /\ (forall doc name, In doc docs -> doc_id "client_name" doc = Some name ->
          Dict.get name creg' = Some (Dict.get_or "api_url" JNull doc)
          /\ Dict.get name am' = Some (Dict.get_or "agent_id" JNull doc))
    /\ (forall name, ~ In name (doc_ids "client_name" docs) ->
          name <> "agent_map" ->
          Dict.get name creg' = Dict.get name creg
          /\ Dict.get name am' = Dict.get name am).
Proof.
  induction docs as [|doc docs IH]; intros creg am Hok Huniq Ham.
  - exists creg, am. cbn. repeat split; auto; contradiction.
  - cbn [forallb] in Hok. apply andb_true_iff in Hok as [Hdoc Hok].
    cbn [load_clients_loop doc_ids flat_map] in *.
    fold (doc_ids "client_name" docs) in *.
    destruct (doc_id "client_name" doc) as [c0|] eqn:Eid.
    + destruct (doc_id_truthy _ _ _ Eid) as [Ev Ht]. rewrite Ev, Ht. cbn [negb].
      assert (Hne : c0 <> "agent_map").
      { unfold loadable_doc in Hdoc. rewrite Ev, Ht in Hdoc. cbn in Hdoc.
        apply negb_true_iff in Hdoc. now apply String.eqb_neq. }
      apply (uniqueb_app_head c0 []) in Huniq as [Hfresh Huniq].
      cbn [app] in Huniq.
      unfold top_getitem. rewrite get_set_other, Ham by auto. cbn.
      destruct (IH (Dict.set "agent_map"
                      (JObj (Dict.set c0 (Dict.get_or "agent_id" JNull doc) am))
                      (Dict.set c0 (Dict.get_or "api_url" JNull doc) creg))
                  (Dict.set c0 (Dict.get_or "agent_id" JNull doc) am) Hok Huniq)
        as (creg' & am' & Hload & Ham' & Hdocs & Hframe);
        [apply get_set_same|].
      exists creg', am'. split; [exact Hload|]. split; [exact Ham'|]. split.
      * intros doc' name [<-|Hin] Hid.
        -- rewrite Eid in Hid. injection Hid as <-.
           destruct (Hframe c0 Hfresh Hne) as [-> ->].
           rewrite get_set_other by auto. now rewrite !get_set_same.
        -- now apply Hdocs.
      * intros name Hnot Hnr.
        assert (Hdiff : name <> c0) by (intros ->; apply Hnot; now left).
        assert (Hnot' : ~ In name (doc_ids "client_name" docs))
          by (intros Hin; apply Hnot; now right).
        destruct (Hframe name Hnot' Hnr) as [-> ->].
        rewrite get_set_other by auto. now rewrite !get_set_other by auto.
    + rewrite (doc_id_none _ _ _ Hdoc Eid). cbn [negb app] in *.
      destruct (IH creg am Hok Huniq Ham) as (creg' & am' & Hload & Ham' & Hdocs & Hframe).
      exists creg', am'. split; [exact Hload|]. split; [exact Ham'|]. split.
      * intros doc' id [<-|Hin] Hid; [congruence|now apply Hdocs].
      * exact Hframe.
Qed.

(** The view [get_agent] builds from a status record loaded from [doc]. *)
Lemma full_view_loaded reg sm id doc url :
  Dict.get "agent_status" reg = Some (JObj sm) ->
  Dict.get id sm = Some (JObj (loaded_status doc)) ->
  Dict.get id reg = Some url ->
  full_view reg id
  = JObj [("agent_id", JStr id);
          ("agent_url", url);
          ("api_url", Dict.get_or "api_url" JNull doc);
          ("alive", Dict.get_or "alive" (JBool false) doc);
          ("assigned_to", Dict.get_or "assigned_to" JNull doc);
          ("last_update", Dict.get_or "last_update" JNull doc);
          ("capabilities", JList []);
          ("tags", JList []);
          ("description", Dict.get_or "description" (JStr "") doc)].
Proof.
  intros Hsm Hrec Hurl. unfold full_view, status_of.
  rewrite Hsm, Hrec. unfold Dict.get_or at 1. rewrite Hurl. reflexivity.
Qed.

Lemma forallb_loadable_no_reserved field reserved docs :
  reserved <> "" ->
  forallb (loadable_doc field reserved) docs = true ->
  no_reserved_doc field reserved docs = true.
Proof.
  unfold no_reserved_doc. intros Hr H. rewrite forallb_forall in *.
  intros doc Hin. specialize (H doc Hin). unfold loadable_doc in H.
  destruct (Dict.get_or field JNull doc) as [| | |s| |]; try reflexivity.
  cbn in *. destruct (String.eqb s reserved) eqn:E; [|reflexivity].
  apply String.eqb_eq in E. rewrite orb_false_r in H.
  apply negb_true_iff in H. apply negb_false_iff in H.
  apply String.eqb_eq in H. congruence.
Qed.

(** The cache start-up builds from a loadable store. *)
Lemma startup_loadable agents clients :
  loadable_store agents clients = true ->
  exists st sm am,
    startup false (Some (agents, clients)) = Some st
    /\ Dict.get "agent_status" (registry st) = Some (JObj sm)
    /\ Dict.get "agent_map" (client_registry st) = Some (JObj am)
    /\ wf_registry (registry st) = true
    /\ (forall doc id, In doc agents -> doc_id "agent_id" doc = Some id ->
          Dict.get id (registry st) = Some (Dict.get_or "agent_url" JNull doc)
          /\ Dict.get id sm = Some (JObj (loaded_status doc)))
    /\ (forall id, ~ In id (doc_ids "agent_id" agents) -> id <> "agent_status" ->
          Dict.get id (registry st) = None)
    /\ (forall doc name, In doc clients -> doc_id "client_name" doc = Some name ->
          Dict.get name (client_registry st)
          = Some (Dict.get_or "api_url" JNull doc)
          /\ Dict.get name am = Some (Dict.get_or "agent_id" JNull doc))
    /\ (forall name, ~ In name (doc_ids "client_name" clients) ->
          name <> "agent_map" ->
          Dict.get name (client_registry st) = None).
Proof.
  unfold loadable_store. intros H.
  apply andb_true_iff in H as [H Hcu]. apply andb_true_iff in H as [H Hcl].
  apply andb_true_iff in H as [Hal Hau].
  destruct (load_agents_loop_round_trip agents initial_registry [] Hal Hau eq_refl)
    as (reg & sm & Hreg & Hsm & Hdocs & Hframe).
  destruct (load_clients_loop_round_trip clients initial_client_registry []
              Hcl Hcu eq_refl)
    as (creg & am & Hcreg & Ham & Hcdocs & Hcframe).
  exists (mkState false true (Some agents) (Some clients) reg creg), sm, am.
  unfold startup. rewrite Hreg, Hcreg. cbn [registry client_registry].
  split; [reflexivity|]. split; [assumption|]. split; [assumption|]. split.
  { apply bare_registry_wf.
    apply (load_agents_loop_bare agents initial_registry reg); auto.
    apply forallb_loadable_no_reserved; [discriminate|assumption]. }
  split; [assumption|]. split.
  { intros id Hnot Hne. destruct (Hframe id Hnot Hne) as [-> _].
    unfold initial_registry. cbn [Dict.get].
    destruct (String.eqb_spec "agent_status" id); congruence. }
  split; [assumption|].
  intros name Hnot Hne. destruct (Hcframe name Hnot Hne) as [-> _].
  unfold initial_client_registry. cbn [Dict.get].
  destruct (String.eqb_spec "agent_map" name); congruence.
Qed.

(** X15.  Start-up round trip: from a store whose documents have
    distinct string ids the directory holds exactly the stored agents.
    [get_agent] on the id of a document returns the document's
    agent_url, api_url, alive, assigned_to, last_update and description
    (with the defaults for missing fields), and an id that no document
    carries is no agent. *)
Theorem startup_loads_every_document agents clients :
  loadable_store agents clients = true ->
  exists st,
    startup false (Some (agents, clients)) = Some st
    /\ (forall doc id, In doc agents -> doc_id "agent_id" doc = Some id ->
          get_agent st id = Success (loaded_view id doc))
    /\ (forall id, ~ In id (doc_ids "agent_id" agents) ->
          get_agent st id = NotFound not_found_body).
Proof.
  intros H.
  destruct (startup_loadable agents clients H)
    as (st & sm & am & Hst & Hsm & _ & Hwf & Hdocs & Hframe & _).
  exists st. split; [exact Hst|]. split.
  - intros doc id Hin Hid. destruct (Hdocs doc id Hin Hid) as [Hurl Hrec].
    rewrite get_agent_wf by assumption.
    assert (Hne : id <> "agent_status").
    { intros ->. unfold loadable_store in H.
      apply andb_true_iff in H as [H _]. apply andb_true_iff in H as [H _].
      apply andb_true_iff in H as [H _]. rewrite forallb_forall in H.
      specialize (H doc Hin). unfold loadable_doc in H.
      destruct (doc_id_truthy _ _ _ Hid) as [Ev Ht]. rewrite Ev, Ht in H.
      discriminate H. }
    unfold is_agent, Dict.mem. rewrite Hurl.
    apply String.eqb_neq in Hne. rewrite Hne. cbn [negb andb].
    now rewrite (full_view_loaded _ sm id doc (Dict.get_or "agent_url" JNull doc)).
  - intros id Hnot. rewrite get_agent_wf by assumption.
    unfold is_agent. destruct (String.eqb_spec id "agent_status") as [->|Hne].
    + now rewrite andb_false_r.
    + unfold Dict.mem. now rewrite Hframe.
Qed.

Lemma startup_loads_every_document_witness :
  exists st,
    restart persisted_state = Some st
    /\ get_agent st "a1" = get_agent persisted_state "a1"
    /\ get_agent st "a2" = NotFound not_found_body.
Proof.
  destruct (startup_loads_every_document (stored_agents persisted_state)
              (stored_clients persisted_state) eq_refl)
    as (st & Hst & Hdocs & Hnone).
  exists st. split; [exact Hst|]. split.
  - rewrite (Hdocs _ "a1" (or_introl eq_refl) eq_refl). reflexivity.
  - apply Hnone. cbn. intros [H|[]]. discriminate H.
Defined.

(** The loop of lines 53-64 files no status record under the reserved
    key, as long as no document carries it as its id. *)
Lemma load_agents_loop_status_reserved docs : forall reg sm reg',
  no_reserved_doc "agent_id" "agent_status" docs = true ->
  Dict.get "agent_status" reg = Some (JObj sm) ->
  Dict.get "agent_status" sm = None ->
  load_agents_loop docs reg = Some reg' ->
  exists sm', Dict.get "agent_status" reg' = Some (JObj sm')
              /\ Dict.get "agent_status" sm' = None.
Proof.
  induction docs as [|doc docs IH]; intros reg sm reg' Hres Hsm Hnone Hload.
  - cbn in Hload. injection Hload as <-. eauto.
  - cbn [no_reserved_doc forallb] in Hres.
    apply andb_true_iff in Hres as [Hdoc Hres].
    fold (no_reserved_doc "agent_id" "agent_status" docs) in Hres.
    cbn [load_agents_loop] in Hload.
    destruct (negb (truthy (Dict.get_or "agent_id" JNull doc))); [eauto|].
    destruct (Dict.get_or "agent_id" JNull doc) as [| | |id| |] eqn:Eid;
      try discriminate Hload; try (injection Hload as <-; eauto).
    cbn in Hdoc. apply negb_true_iff in Hdoc.
    assert (Hne : id <> "agent_status") by now apply String.eqb_neq.
    unfold top_getitem in Hload. rewrite get_set_other, Hsm in Hload by auto.
    cbn in Hload.
    apply (IH _ (Dict.set id (JObj (loaded_status doc)) sm)) in Hload; auto.
    + apply get_set_same.
    + rewrite get_set_other by auto. exact Hnone.
Qed.

(** X16.  Aliases after start-up.  For a stored alias (name, agent_id,
    api_url) whose name is not itself an agent id, [lookup] of the name
    returns the stored agent's id, agent_url and description with the
    alias's api_url when a document for that agent is stored.  When none
    is stored it raises KeyError, unless the alias names the reserved
    "agent_status": then [get_agent] knows no such agent, and [lookup]
    replies success with the whole status sub-map as agent_url. *)
Theorem startup_alias_lookup agents clients cdoc name a :
  loadable_store agents clients = true ->
  In cdoc clients -> doc_id "client_name" cdoc = Some name ->
  Dict.get_or "agent_id" JNull cdoc = JStr a ->
  ~ In name (doc_ids "agent_id" agents) ->
  exists st,
    startup false (Some (agents, clients)) = Some st
    /\ (forall adoc, In adoc agents -> doc_id "agent_id" adoc = Some a ->
          lookup st name
          = Success (lookup_view (JStr a)
                       (Dict.get_or "agent_url" JNull adoc)
                       (Dict.get_or "api_url" JNull cdoc)
                       (Dict.get_or "description" (JStr "") adoc)))
    /\ (~ In a (doc_ids "agent_id" agents) -> a <> "agent_status" ->
          lookup st name = Uncaught KeyError)
    /\ (a = "agent_status" ->
          get_agent st a = NotFound not_found_body
          /\ lookup st name
             = Success (lookup_view (JStr "agent_status")
                          (Dict.get_or "agent_status" JNull (registry st))
                          (Dict.get_or "api_url" JNull cdoc)
                          (JStr ""))).
Proof.
  intros H Hin Hname Ha Hnot.
  destruct (startup_loadable agents clients H)
    as (st & sm & am & Hst & Hsm & Ham & Hwf & Hdocs & Hframe & Hcdocs & _).
  exists st. split; [exact Hst|].
  destruct (Hcdocs cdoc name Hin Hname) as [Hapi Hmap]. rewrite Ha in Hmap.
  assert (Hag : Dict.mem name (registry st)
                && negb (String.eqb name "agent_status") = false).
  { destruct (String.eqb_spec name "agent_status") as [->|Hne].
    - apply andb_false_r.
    - unfold Dict.mem. now rewrite Hframe. }
  split; [|split].
  - intros adoc Hina Hid. destruct (Hdocs adoc a Hina Hid) as [Hurl Hrec].
    unfold lookup. rewrite Hag. unfold Dict.mem. rewrite Hapi.
    unfold top_getitem. rewrite Ham, Hsm. cbn. rewrite Hmap. cbn.
    unfold top_getitem. rewrite Hurl, Hapi. cbn.
    unfold Dict.get_or at 1. rewrite Hrec. reflexivity.
  - intros Hno Hne. unfold lookup. rewrite Hag. unfold Dict.mem. rewrite Hapi.
    unfold top_getitem. rewrite Ham. cbn. rewrite Hmap. cbn.
    unfold top_getitem. now rewrite Hframe.
  - intros ->. split.
    { rewrite get_agent_wf by assumption. unfold is_agent.
      now rewrite andb_false_r. }
    assert (Hnone : Dict.get "agent_status" sm = None).
    { destruct (startup_connected _ _ _ Hst) as (reg & creg & Hreg & _ & ->).
      cbn [registry] in Hsm.
      assert (Hres : no_reserved_doc "agent_id" "agent_status" agents = true).
      { apply forallb_loadable_no_reserved; [discriminate|].
        unfold loadable_store in H.
        apply andb_true_iff in H as [H _]. apply andb_true_iff in H as [H _].
        now apply andb_true_iff in H as [H _]. }
      destruct (load_agents_loop_status_reserved agents initial_registry [] reg
                  Hres eq_refl eq_refl Hreg) as (sm' & Hsm' & Hn).
      congruence. }
    unfold lookup. rewrite Hag. unfold Dict.mem. rewrite Hapi.
    unfold top_getitem. rewrite Ham, Hsm. cbn. rewrite Hmap. cbn.
    unfold top_getitem. rewrite Hsm, Hapi. cbn.
    unfold Dict.get_or. now rewrite Hnone, Hsm.
Qed.

Lemma startup_alias_lookup_witness :
  exists st,
    restart persisted_state = Some st
    /\ lookup st "c1"
       = Success (lookup_view (JStr "a1") (JStr "http://a") (JStr "http://c")
                    (JStr "")).
Proof.
  destruct (startup_alias_lookup (stored_agents persisted_state)
              (stored_clients persisted_state)
              [("client_name", JStr "c1"); ("api_url", JStr "http://c");
               ("agent_id", JStr "a1")] "c1" "a1"
              eq_refl (or_introl eq_refl) eq_refl eq_refl)
    as (st & Hst & Hfound & _).
  { cbn. intros [H|[]]. discriminate H. }
  exists st. split; [exact Hst|].
  exact (Hfound _ (or_introl eq_refl) eq_refl).
Defined.

(** The loop of lines 53-64 never files a document under the empty id. *)
Lemma load_agents_loop_no_empty docs : forall reg reg',
  load_agents_loop docs reg = Some reg' ->
  Dict.get "" reg = None -> Dict.get "" reg' = None.
Proof.
  induction docs as [|doc docs IH]; intros reg reg' Hload Hreg.
  - cbn in Hload. now injection Hload as <-.
  - cbn [load_agents_loop] in Hload.
    destruct (negb (truthy (Dict.get_or "agent_id" JNull doc))) eqn:Et; [eauto|].
    destruct (Dict.get_or "agent_id" JNull doc) as [| | |id| |];
      try discriminate Hload; try (injection Hload as <-; assumption).
    assert (Hne : "" <> id).
    { intros <-. discriminate Et. }
    assert (Hreg1 : Dict.get "" (Dict.set id (Dict.get_or "agent_url" JNull doc) reg)
                    = None) by now rewrite get_set_other.
    destruct (rbind _ _) as [sm'|e].
    + apply IH in Hload; [assumption|]. now rewrite get_set_other by discriminate.
    + now injection Hload as <-.
Qed.

(** X17.  An agent registered under the empty id is lost at the next
    restart.  [register] accepts the empty string as an id and the agent
    is in the directory afterwards, but the start-up loop skips every
    document whose id is empty, so no state that start-up produces has
    an agent with the empty id. *)
Theorem empty_id_lost_at_restart now d url st :
  body_agent_id d = Some "" -> body_agent_url d = Some url ->
  wf_registry (registry st) = true ->
  let st' := fst (run (register now (Some d)) st) in
  is_agent st' "" = true
  /\ forall test_mode mongo st'',
       startup test_mode mongo = Some st'' -> is_agent st'' "" = false.
Proof.
  intros Hid Hurl Hwf st'. split.
  - destruct (register_run now d "" url st Hid Hurl ltac:(discriminate) Hwf)
      as (st1 & sm & Hrun & _ & Hreg & _).
    unfold st'. rewrite Hrun. cbn [fst]. unfold is_agent, Dict.mem.
    rewrite Hreg, get_set_other, get_set_same by discriminate. reflexivity.
  - intros tm mongo st'' Hst. unfold is_agent, Dict.mem.
    assert (Hnone : Dict.get "" (registry st'') = None);
      [|now rewrite Hnone].
    unfold startup in Hst. destruct tm; [now injection Hst as <-|].
    destruct mongo as [[agents clients]|]; [|now injection Hst as <-].
    destruct (load_agents_loop agents initial_registry) as [reg|] eqn:Hreg;
      [|discriminate].
    destruct (load_clients_loop clients initial_client_registry); [|discriminate].
    injection Hst as <-. cbn [registry].
    now apply (load_agents_loop_no_empty agents initial_registry).
Qed.

Lemma empty_id_lost_at_restart_witness :
  let st' := fst (run (register "t0" (request "" "http://x")) connected_state) in
  is_agent st' "" = true
  /\ (exists doc, stored_agents st' = [doc]
                  /\ Dict.get "agent_id" doc = Some (JStr ""))
  /\ option_map (fun st'' => get_agent st'' "") (restart st')
     = Some (NotFound not_found_body).
Proof.
  cbv zeta.
  pose proof (empty_id_lost_at_restart "t0"
                (mkBody (Some "") (Some (JStr "http://x")) None None)
                (JStr "http://x") connected_state eq_refl eq_refl eq_refl) as H.
  cbv zeta in H. destruct H as [H1 _].
  split; [exact H1|]. split; [eexists; split; reflexivity|reflexivity].
Defined.

(** ** The save loops *)

Lemma uniqueb_NoDup l : uniqueb l = true <-> NoDup l.
Proof.
  induction l as [|x l IH]; cbn.
  - split; [constructor|reflexivity].
  - rewrite andb_true_iff, negb_true_iff, IH. split.
    + intros [Hx Hl]. constructor; [|assumption].
      intros Hin. assert (existsb (String.eqb x) l = true); [|congruence].
      apply existsb_exists. exists x. split; [assumption|apply String.eqb_refl].
    + intros H. inversion H as [|? ? Hx Hl]; subst. split; [|assumption].
      destruct (existsb (String.eqb x) l) eqn:E; [|reflexivity].
      apply existsb_exists in E as (y & Hy & Exy).
      apply String.eqb_eq in Exy. subst. contradiction.
Qed.

Lemma get_none_not_in {V} (k : string) (d : list (string * V)) :
  Dict.get k d = None <-> ~ In k (Dict.keys d).
Proof.
  unfold Dict.keys. induction d as [|[k0 v0] d IH]; cbn; [tauto|].
  destruct (String.eqb_spec k0 k) as [->|Hne].
  - split; [discriminate|]. intros H. exfalso. apply H. now left.
  - rewrite IH. tauto.
Qed.

Lemma mem_false_not_in {V} (k : string) (d : list (string * V)) :
  Dict.mem k d = false <-> ~ In k (Dict.keys d).
Proof.
  rewrite <- get_none_not_in. unfold Dict.mem.
  destruct (Dict.get k d); split; congruence.
Qed.

Lemma NoDup_keys_set {V} (k : string) (v : V) d :
  NoDup (Dict.keys d) -> NoDup (Dict.keys (Dict.set k v d)).
Proof.
  intros H. rewrite keys_set. destruct (Dict.mem k d) eqn:E; [assumption|].
  apply mem_false_not_in in E.
  apply NoDup_app; [assumption|repeat constructor; intros []|].
  intros x Hx [<-|[]]. contradiction.
Qed.

Lemma NoDup_keys_pop {V} (k : string) (d : list (string * V)) :
  NoDup (Dict.keys d) -> NoDup (Dict.keys (Dict.pop k d)).
Proof.
  unfold Dict.keys, Dict.pop. induction d as [|[k0 v0] d IH]; cbn; [auto|].
  intros H. inversion H as [|? ? Hx Hd]; subst.
  destruct (negb (String.eqb k0 k)); cbn; [|auto].
  constructor; [|auto]. intros Hin. apply Hx.
  apply in_map_iff in Hin as ([k1 v1] & <- & Hin).
  apply filter_In in Hin as [Hin _]. apply in_map_iff. now exists (k1, v1).
Qed.

Lemma NoDup_keys_set_fields fields : forall d,
  NoDup (Dict.keys d) -> NoDup (Dict.keys (set_fields fields d)).
Proof.
  unfold set_fields. induction fields as [|[k v] fields IH]; intros d H; cbn.
  - assumption.
  - apply IH. now apply NoDup_keys_set.
Qed.

(** [$set] leaves alone the fields it does not name. *)
Lemma get_set_fields_absent fields : forall k d,
  Dict.get k fields = None ->
  Dict.get k (set_fields fields d) = Dict.get k d.
Proof.
  unfold set_fields. induction fields as [|[k0 v0] fields IH]; intros k d H; cbn.
  - reflexivity.
  - cbn in H. destruct (String.eqb_spec k0 k) as [->|Hne]; [discriminate|].
    rewrite IH by assumption. now apply get_set_other.
Qed.

(** [$set] gives each field it names its value. *)
Lemma get_set_fields_present fields : forall k v d,
  NoDup (Dict.keys fields) ->
  Dict.get k fields = Some v ->
  Dict.get k (set_fields fields d) = Some v.
Proof.
  unfold set_fields. induction fields as [|[k0 v0] fields IH];
    intros k v d Hnd H; cbn in *.
  - discriminate.
  - inversion Hnd as [|? ? Hx Hrest]; subst.
    destruct (String.eqb_spec k0 k) as [->|Hne].
    + injection H as ->.
      fold (set_fields fields (Dict.set k v d)).
      rewrite get_set_fields_absent by now apply get_none_not_in.
      apply get_set_same.
    + now apply IH.
Qed.

Lemma mongo_doc_keys id url status : NoDup (Dict.keys (mongo_doc id url status)).
Proof.
  unfold mongo_doc. apply NoDup_keys_set_fields. cbn.
  repeat constructor; cbn; intuition discriminate.
Qed.

Lemma mongo_doc_agent_id id url status :
  Dict.get "agent_id" status = None ->
  Dict.get "agent_id" (mongo_doc id url status) = Some (JStr id).
Proof.
  intros H. unfold mongo_doc. now rewrite get_set_fields_absent.
Qed.

Lemma mongo_doc_agent_url id url status :
  Dict.get "agent_url" status = None ->
  Dict.get "agent_url" (mongo_doc id url status) = Some url.
Proof.
  intros H. unfold mongo_doc. now rewrite get_set_fields_absent.
Qed.

Lemma mongo_doc_status id url status f v :
  NoDup (Dict.keys status) ->
  Dict.get f status = Some v ->
  Dict.get f (mongo_doc id url status) = Some v.
Proof.
  intros Hnd H. unfold mongo_doc. now apply get_set_fields_present.
Qed.

Lemma doc_matches_iff key id doc :
  doc_matches key id doc = true <-> Dict.get key doc = Some (JStr id).
Proof.
  unfold doc_matches. destruct (Dict.get key doc) as [v|]; [|split; discriminate].
  destruct v; cbn; try (split; discriminate).
  split.
  - intros H. apply String.eqb_eq in H. now subst.
  - intros [= ->]. apply String.eqb_refl.
Qed.

Lemma doc_matches_other key id id' doc :
  id' <> id -> doc_matches key id' doc = true -> doc_matches key id doc = false.
Proof.
  intros Hne H. apply doc_matches_iff in H.
  destruct (doc_matches key id doc) eqn:E; [|reflexivity].
  apply doc_matches_iff in E. congruence.
Qed.

Lemma doc_matches_new key id : doc_matches key id [(key, JStr id)] = true.
Proof.
  apply doc_matches_iff. cbn. now rewrite String.eqb_refl.
Qed.

(** An upsert under one key leaves alone what is found under another. *)
Lemma find_one_update_one_other key id id' fields col :
  id' <> id ->
  (forall d, doc_matches key id' d = true ->
             doc_matches key id' (set_fields fields d) = true) ->
  find_one key id (update_one key id' fields col) = find_one key id col.
Proof.
  intros Hne Hkeep. unfold find_one.
  induction col as [|doc col IH]; cbn.
  - now rewrite (doc_matches_other key id id') by auto using doc_matches_new.
  - destruct (doc_matches key id' doc) eqn:E; cbn.
    + rewrite (doc_matches_other key id id') by auto.
      now rewrite (doc_matches_other key id id' doc) by auto.
    + destruct (doc_matches key id doc); [reflexivity|exact IH].
Qed.

Lemma clean_registry_parts reg :
  clean_registry reg = true ->
  wf_registry reg = true
  /\ NoDup (Dict.keys reg)
  /\ forall id, Dict.get "agent_id" (status_of reg id) = None
                /\ Dict.get "agent_url" (status_of reg id) = None
                /\ NoDup (Dict.keys (status_of reg id)).
Proof.
  unfold clean_registry. intros H.
  apply andb_true_iff in H as [H Hplain]. apply andb_true_iff in H as [Hwf Hu].
  split; [assumption|]. split; [now apply uniqueb_NoDup|].
  intros id. unfold status_of.
  destruct (Dict.get "agent_status" reg) as [[| | | | |sm]|];
    try (repeat split; constructor).
  destruct (Dict.get id sm) as [v|] eqn:E; [|repeat split; constructor].
  pose proof (forallb_get plain_record _ _ _ Hplain E) as Hv.
  destruct v; try (repeat split; constructor). cbn in Hv.
  apply andb_true_iff in Hv as [Hv Hk]. apply andb_true_iff in Hv as [Hi Hl].
  apply negb_true_iff in Hi, Hl.
  repeat split; [now apply mem_false_get..|now apply uniqueb_NoDup].
Qed.

(** The [$set] of [save_registry] for an agent of a clean cache keeps the
    document under the agent's id. *)
Lemma mongo_doc_keeps_match reg id url :
  clean_registry reg = true ->
  forall d, doc_matches "agent_id" id
              (set_fields (mongo_doc id url (status_of reg id)) d) = true.
Proof.
  intros Hclean d. destruct (clean_registry_parts _ Hclean) as (_ & _ & Hst).
  destruct (Hst id) as (Hi & _ & _).
  apply doc_matches_iff. apply get_set_fields_present.
  - apply mongo_doc_keys.
  - now apply mongo_doc_agent_id.
Qed.

Lemma save_registry_step reg id :
  wf_registry reg = true ->
  (status <-- py_get (Dict.get_or "agent_status" (JObj []) reg) id (JObj []) ;;
   py_unpack status)%result
  = Ret (status_of reg id).
Proof.
  intros Hwf. destruct (wf_status_of reg id Hwf) as [-> _]. reflexivity.
Qed.

(** The loop of lines 103-116 on a clean cache: the documents of the ids
    it does not visit are found as before. *)
Lemma save_registry_loop_other reg id items : forall col,
  clean_registry reg = true ->
  ~ In id (Dict.keys items) ->
  find_one "agent_id" id (save_registry_loop reg items col)
  = find_one "agent_id" id col.
Proof.
  induction items as [|[k u] items IH]; intros col Hclean Hnot;
    cbn [save_registry_loop]; [reflexivity|].
  assert (Hk : k <> id) by (intros ->; apply Hnot; now left).
  assert (Hrest : ~ In id (Dict.keys items)) by (intros H; apply Hnot; now right).
  destruct (String.eqb k "agent_status"); [now apply IH|].
  destruct (clean_registry_parts _ Hclean) as (Hwf & _ & _).
  rewrite save_registry_step by assumption.
  rewrite IH by assumption.
  apply find_one_update_one_other; [assumption|].
  intros d _. now apply mongo_doc_keeps_match.
Qed.

(** ** The store across a restart *)

Lemma get_or_of_get {V} (k : string) (v dflt : V) d :
  Dict.get k d = Some v -> Dict.get_or k dflt d = v.
Proof. intros H. unfold Dict.get_or. now rewrite H. Qed.

Lemma doc_matches_get_or key id doc :
  doc_matches key id doc = true <-> Dict.get_or key JNull doc = JStr id.
Proof.
  rewrite doc_matches_iff. unfold Dict.get_or.
  destruct (Dict.get key doc) as [v|]; split; congruence.
Qed.

Lemma doc_id_matches key id doc :
  id <> "" -> doc_id key doc = Some id <-> doc_matches key id doc = true.
Proof.
  intros Hne. rewrite doc_matches_get_or. unfold doc_id.
  destruct (Dict.get_or key JNull doc) as [| | |s| |]; try (split; discriminate).
  destruct (String.eqb_spec s "") as [->|Hs]; split; congruence.
Qed.

Lemma doc_id_matches_empty key doc :
  doc_matches key "" doc = true -> doc_id key doc = None.
Proof.
  intros H. apply doc_matches_get_or in H. unfold doc_id. now rewrite H.
Qed.

Lemma find_one_none_not_in key id col :
  id <> "" -> find_one key id col = None -> ~ In id (doc_ids key col).
Proof.
  intros Hne Hnone Hin. unfold doc_ids in Hin.
  apply in_flat_map in Hin as (doc & Hdoc & Hin).
  destruct (doc_id key doc) as [s|] eqn:Es; [|contradiction].
  destruct Hin as [->|[]].
  apply (doc_id_matches key id doc Hne) in Es.
  pose proof (find_none _ _ Hnone doc Hdoc) as Hf. cbn in Hf. congruence.
Qed.

Lemma NoDup_snoc {A} (x : A) l : NoDup l -> ~ In x l -> NoDup (l ++ [x]).
Proof.
  induction l as [|y l IH]; intros Hnd Hx; cbn.
  - constructor; [intros []|constructor].
  - inversion Hnd as [|? ? Hy Hl]; subst. constructor.
    + intros Hin. apply in_app_or in Hin as [Hin|[->|[]]]; [contradiction|].
      apply Hx. now left.
    + apply IH; [assumption|]. intros Hin. apply Hx. now right.
Qed.

(** The ids of a collection after an upsert: the same, or one more. *)
Lemma update_one_doc_ids key id fields col :
  (forall d, doc_matches key id d = true ->
             doc_matches key id (set_fields fields d) = true) ->
  doc_ids key (update_one key id fields col)
  = if String.eqb id "" then doc_ids key col
    else match find_one key id col with
         | Some _ => doc_ids key col
         | None => doc_ids key col ++ [id]
         end.
Proof.
  intros Hkeep. unfold find_one.
  assert (Hnew : doc_matches key id (set_fields fields [(key, JStr id)]) = true).
  { apply Hkeep, doc_matches_new. }
  induction col as [|doc col IH]; cbn [update_one find doc_ids flat_map].
  - destruct (String.eqb_spec id "") as [->|Hne].
    + now rewrite (doc_id_matches_empty _ _ Hnew).
    + apply (doc_id_matches key id _ Hne) in Hnew. now rewrite Hnew.
  - destruct (doc_matches key id doc) eqn:E; cbn [doc_ids flat_map].
    + specialize (Hkeep doc E).
      destruct (String.eqb_spec id "") as [->|Hne].
      * now rewrite (doc_id_matches_empty _ _ Hkeep), (doc_id_matches_empty _ _ E).
      * apply (doc_id_matches key id _ Hne) in Hkeep, E. now rewrite Hkeep, E.
    + fold (doc_ids key (update_one key id fields col)). rewrite IH.
      fold (doc_ids key col).
      destruct (String.eqb id ""); [reflexivity|].
      destruct (find (doc_matches key id) col); [reflexivity|].
      now rewrite app_assoc.
Qed.

Lemma update_one_unique key id fields col :
  (forall d, doc_matches key id d = true ->
             doc_matches key id (set_fields fields d) = true) ->
  NoDup (doc_ids key col) ->
  NoDup (doc_ids key (update_one key id fields col)).
Proof.
  intros Hkeep Hnd. rewrite update_one_doc_ids by assumption.
  destruct (String.eqb_spec id "") as [->|Hne]; [assumption|].
  destruct (find_one key id col) eqn:E; [assumption|].
  apply NoDup_snoc; [assumption|]. now apply find_one_none_not_in.
Qed.

Lemma matching_doc_loadable key reserved id doc :
  id <> reserved -> doc_matches key id doc = true ->
  loadable_doc key reserved doc = true.
Proof.
  intros Hne H. apply doc_matches_get_or in H. unfold loadable_doc.
  rewrite H. apply String.eqb_neq in Hne. rewrite Hne. apply orb_true_r.
Qed.

Lemma update_one_loadable key reserved id fields col :
  id <> reserved ->
  (forall d, doc_matches key id d = true ->
             doc_matches key id (set_fields fields d) = true) ->
  forallb (loadable_doc key reserved) col = true ->
  forallb (loadable_doc key reserved) (update_one key id fields col) = true.
Proof.
  intros Hne Hkeep. induction col as [|doc col IH]; cbn; intros H.
  - rewrite (matching_doc_loadable key reserved id); auto using doc_matches_new.
  - apply andb_true_iff in H as [Hd Hrest].
    destruct (doc_matches key id doc) eqn:E; cbn.
    + rewrite (matching_doc_loadable key reserved id); auto.
    + now rewrite Hd, IH.
Qed.

(** The loop of lines 103-116 keeps the agents collection loadable. *)
Lemma save_registry_loop_loadable reg items : forall col,
  clean_registry reg = true ->
  forallb (loadable_doc "agent_id" "agent_status") col = true ->
  NoDup (doc_ids "agent_id" col) ->
  forallb (loadable_doc "agent_id" "agent_status")
    (save_registry_loop reg items col) = true
  /\ NoDup (doc_ids "agent_id" (save_registry_loop reg items col)).
Proof.
  induction items as [|[k u] items IH]; intros col Hclean Hl Hnd;
    cbn [save_registry_loop]; [auto|].
  destruct (String.eqb_spec k "agent_status") as [->|Hne]; [now apply IH|].
  destruct (clean_registry_parts _ Hclean) as (Hwf & _ & _).
  rewrite save_registry_step by assumption.
  assert (Hkeep : forall d, doc_matches "agent_id" k d = true ->
            doc_matches "agent_id" k
              (set_fields (mongo_doc k u (status_of reg k)) d) = true).
  { intros d _. now apply mongo_doc_keeps_match. }
  apply IH; [assumption| |].
  - now apply update_one_loadable.
  - now apply update_one_unique.
Qed.

Lemma clean_registry_set reg sm id url rec :
  clean_registry reg = true -> id <> "agent_status" ->
  Dict.get "agent_status" reg = Some (JObj sm) ->
  wf_status_obj rec = true -> plain_record rec = true ->
  clean_registry (Dict.set "agent_status" (JObj (Dict.set id rec sm))
                    (Dict.set id url reg)) = true.
Proof.
  intros Hclean Hne Hsm Hwr Hpr. unfold clean_registry in *.
  apply andb_true_iff in Hclean as [H Hplain].
  apply andb_true_iff in H as [Hwf Hu].
  rewrite Hsm in Hplain. rewrite get_set_same.
  destruct (wf_registry_status_map _ Hwf) as (sm' & Hsm' & Hall).
  rewrite Hsm in Hsm'. injection Hsm' as <-.
  rewrite wf_registry_set_status; auto; [|now rewrite get_set_other by auto].
  rewrite forallb_set by assumption. rewrite andb_true_r. cbn [andb].
  apply uniqueb_NoDup. apply NoDup_keys_set, NoDup_keys_set.
  now apply uniqueb_NoDup.
Qed.

(** X19.  A registration survives a restart once its document is in
    the store.  Let an agent be registered under a non-empty id other
    than the reserved one.  If the store the next process starts from
    has distinct, non-reserved ids and holds a document that carries
    every field [save_registry] sets for that agent (lines 107-111: its
    agent_id, its agent_url and the fields of its status record), then
    that process has the agent, and [get_agent] returns for it what it
    returned after the registration. *)
Theorem register_survives_restart now d id url st agents clients doc :
  body_agent_id d = Some id -> body_agent_url d = Some url ->
  id <> "agent_status" -> id <> "" ->
  wf_registry (registry st) = true ->
  loadable_store agents clients = true ->
  In doc agents ->
  (forall f v,
     Dict.get f (mongo_doc id url
                   (status_of (registry (fst (run (register now (Some d)) st))) id))
     = Some v ->
     Dict.get f doc = Some v) ->
  exists st'',
    startup false (Some (agents, clients)) = Some st''
    /\ is_agent st'' id = true
    /\ get_agent st'' id = get_agent (fst (run (register now (Some d)) st)) id.
Proof.
  intros Hid Hurl Hne Hne' Hwf Hload Hin.
  destruct (register_run now d id url st Hid Hurl Hne Hwf)
    as (st' & sm & Hrun & Hsm & Hreg & _).
  rewrite Hrun. cbn [fst]. rewrite Hreg, status_of_set.
  set (rec := fresh_status (body_api_url_or_null d)
                (body_description_or_empty d) now).
  intros Hdoc.
  assert (Hwf' : wf_registry (registry st') = true).
  { rewrite Hreg. apply wf_registry_set_status; auto.
    - rewrite get_set_other; auto.
    - destruct (wf_registry_status_map _ Hwf) as (sm' & Hsm' & Hall). congruence. }
  assert (Hfield : forall f v, Dict.get f rec = Some v -> Dict.get f doc = Some v).
  { intros f v Hf. apply Hdoc. apply mongo_doc_status; [|assumption].
    unfold rec, fresh_status. cbn.
    repeat constructor; cbn; intuition discriminate. }
  assert (Hdu : Dict.get "agent_url" doc = Some url).
  { apply Hdoc. now apply mongo_doc_agent_url. }
  assert (Hdi : Dict.get "agent_id" doc = Some (JStr id)).
  { apply Hdoc. now apply mongo_doc_agent_id. }
  assert (Hdid : doc_id "agent_id" doc = Some id).
  { apply doc_id_matches; [assumption|]. now apply doc_matches_iff. }
  destruct (startup_loadable _ _ Hload)
    as (st'' & sm'' & am'' & Hst & Hsm'' & _ & Hwf'' & Hdocs & _).
  exists st''. split; [exact Hst|].
  destruct (Hdocs doc id Hin Hdid) as [Hu'' Hrec''].
  assert (Hag'' : is_agent st'' id = true).
  { unfold is_agent, Dict.mem. rewrite Hu''.
    apply String.eqb_neq in Hne. now rewrite Hne. }
  assert (Hag' : is_agent st' id = true).
  { unfold is_agent, Dict.mem.
    rewrite Hreg, get_set_other, get_set_same by auto.
    apply String.eqb_neq in Hne. now rewrite Hne. }
  split; [assumption|].
  rewrite !get_agent_wf, Hag'', Hag' by assumption. f_equal.
  rewrite (full_view_loaded _ sm'' id doc _ Hsm'' Hrec'' Hu'').
  rewrite Hreg, full_view_after_register by assumption.
  rewrite (get_or_of_get _ _ _ _ Hdu).
  rewrite (get_or_of_get "api_url" _ JNull doc (Hfield "api_url" _ eq_refl)).
  rewrite (get_or_of_get "alive" _ (JBool false) doc (Hfield "alive" _ eq_refl)).
  rewrite (get_or_of_get "assigned_to" _ JNull doc
             (Hfield "assigned_to" _ eq_refl)).
  rewrite (get_or_of_get "last_update" _ JNull doc
             (Hfield "last_update" _ eq_refl)).
  rewrite (get_or_of_get "description" _ (JStr "") doc
             (Hfield "description" _ eq_refl)).
  reflexivity.
Qed.

(** The store that the registration of a2 leaves behind in the model
    holds such a document. *)
Lemma register_survives_restart_witness :
  let st' := fst (run (register "t1" (request "a2" "http://b")) persisted_state) in
  exists st'',
    restart st' = Some st''
    /\ is_agent st'' "a2" = true
    /\ get_agent st'' "a2" = get_agent st' "a2".
Proof.
  apply (register_survives_restart "t1"
           (mkBody (Some "a2") (Some (JStr "http://b")) None None)
           "a2" (JStr "http://b") persisted_state
           (stored_agents
              (fst (run (register "t1" (request "a2" "http://b")) persisted_state)))
           (stored_clients
              (fst (run (register "t1" (request "a2" "http://b")) persisted_state)))
           [("agent_id", JStr "a2"); ("agent_url", JStr "http://b");
            ("alive", JBool false); ("assigned_to", JNull);
            ("api_url", JNull); ("description", JStr "");
            ("last_update", JStr "t1")]).
  - reflexivity.
  - reflexivity.
  - discriminate.
  - discriminate.
  - reflexivity.
  - reflexivity.
  - right. left. reflexivity.
  - intros f v H. exact H.
Defined.

(** ** Deletion and the store *)

Lemma client_fields_keep_match name api_url agent_id d :
  doc_matches "client_name" name d = true ->
  doc_matches "client_name" name
    (set_fields [("api_url", api_url); ("agent_id", agent_id)] d) = true.
Proof.
  rewrite !doc_matches_iff. intros H.
  now rewrite get_set_fields_absent.
Qed.

(** The loop of lines 86-94 keeps the clients collection loadable, and
    leaves alone the documents of the names it does not visit. *)
Lemma save_client_registry_loop_loadable creg items : forall col,
  forallb (loadable_doc "client_name" "agent_map") col = true ->
  NoDup (doc_ids "client_name" col) ->
  forallb (loadable_doc "client_name" "agent_map")
    (save_client_registry_loop creg items col) = true
  /\ NoDup (doc_ids "client_name" (save_client_registry_loop creg items col)).
Proof.
  induction items as [|[k u] items IH]; intros col Hl Hnd;
    cbn [save_client_registry_loop]; [auto|].
  destruct (String.eqb_spec k "agent_map") as [->|Hne]; [now apply IH|].
  destruct (py_get _ k JNull) as [a|e]; [|auto].
  apply IH.
  - apply update_one_loadable; auto using client_fields_keep_match.
  - apply update_one_unique; auto using client_fields_keep_match.
Qed.

Lemma save_client_registry_loop_other creg c items : forall col,
  ~ In c (Dict.keys items) ->
  find_one "client_name" c (save_client_registry_loop creg items col)
  = find_one "client_name" c col.
Proof.
  induction items as [|[k u] items IH]; intros col Hnot;
    cbn [save_client_registry_loop]; [reflexivity|].
  assert (Hk : k <> c) by (intros ->; apply Hnot; now left).
  assert (Hrest : ~ In c (Dict.keys items)) by (intros H; apply Hnot; now right).
  destruct (String.eqb k "agent_map"); [now apply IH|].
  destruct (py_get _ k JNull) as [a|e]; [|reflexivity].
  rewrite IH by assumption.
  apply find_one_update_one_other; auto using client_fields_keep_match.
Qed.

Lemma keeps_then {A} (I P : state -> Prop) (m : M A) (k : A -> M response) st :
  keeps I m -> I st -> (forall s, I s -> P s) ->
  (forall a s, I s -> P (fst (run (k a) s))) ->
  P (fst (run (bind m k) st)).
Proof.
  intros Hm HI HP Hk. specialize (Hm st HI). unfold run, bind in *.
  destruct (m st) as [s1 [a|e]]; cbn in *; auto.
Qed.

(** The cache and the store as [delete_agent] leaves them: the agent is
    popped from the directory, and the collections are those of before,
    or, when the handler reaches its last lines, those the two save
    functions make of them. *)
Lemma delete_agent_store st id :
  is_agent st id = true -> wf_registry (registry st) = true ->
  exists sm s1,
    Dict.get "agent_status" (registry st) = Some (JObj sm)
    /\ registry s1 = Dict.set "agent_status" (JObj (Dict.pop id sm))
                       (Dict.pop id (registry st))
    /\ collections s1 = collections st
    /\ (fst (run (delete_agent id) st) = s1
        \/ fst (run (delete_agent id) st)
           = fst (save_client_registry (fst (save_registry s1)))).
Proof.
  intros Hag Hwf. destruct (is_agent_get _ _ Hag) as [Hne _].
  destruct (wf_registry_status_map _ Hwf) as (sm & Hsm & _).
  set (reg' := Dict.set "agent_status" (JObj (Dict.pop id sm))
                 (Dict.pop id (registry st))).
  pose (I := fun s => registry s = reg' /\ collections s = collections st).
  pose (P := fun s' => exists s1,
    registry s1 = reg'
    /\ collections s1 = collections st
    /\ (s' = s1 \/ s' = fst (save_client_registry (fst (save_registry s1))))).
  enough (HP : P (fst (run (delete_agent id) st))).
  { destruct HP as (s1 & H1 & H2 & H3). exists sm, s1. auto. }
  unfold is_agent in Hag. apply andb_true_iff in Hag as [Hm Hs].
  unfold delete_agent. rewrite run_read, Hm.
  apply negb_true_iff in Hs. rewrite Hs. cbn [negb orb].
  rewrite run_write, run_read. cbn [registry set_registry].
  rewrite get_pop_other, Hsm by auto. cbn [py_pop].
  erewrite run_bind_ret by (unfold bind, lift, write; reflexivity).
  fold reg'.
  assert (HIP : forall s, I s -> P s).
  { intros s [H1 H2]. exists s. auto. }
  assert (Hra : forall c, keeps I (remove_alias c)).
  { intros c. unfold remove_alias.
    repeat keeps_step; intros s ? [? ?]; split; assumption. }
  apply (keeps_then I P); [apply keeps_read|split; reflexivity|assumption|].
  intros creg s Hs1.
  apply (keeps_then I P); [apply keeps_lift|assumption|assumption|].
  intros items s2 Hs2.
  apply (keeps_then I P); [now apply keeps_for_each|assumption|assumption|].
  intros _ s3 [Hr3 Hc3]. exists s3.
  split; [assumption|]. split; [assumption|]. right.
  destruct (save_registry_run s3) as (s4 & E4 & _).
  destruct (save_client_registry_run s4) as (s5 & E5 & _).
  rewrite (run_bind_ret _ _ _ _ _ E4), (run_bind_ret _ _ _ _ _ E5).
  rewrite E4. cbn [fst]. now rewrite E5.
Qed.

Lemma save_registry_stored s :
  registry (fst (save_registry s)) = registry s
  /\ client_registry (fst (save_registry s)) = client_registry s
  /\ stored_clients (fst (save_registry s)) = stored_clients s
  /\ (stored_agents (fst (save_registry s)) = stored_agents s
      \/ stored_agents (fst (save_registry s))
         = save_registry_loop (registry s) (registry s) (stored_agents s)).
Proof.
  unfold save_registry, stored_agents, stored_clients.
  destruct (agent_registry_col s) as [col|] eqn:E;
    [destruct (TEST_MODE s || negb (USE_MONGO s))|]; cbn; rewrite ?E; auto.
Qed.

Lemma save_client_registry_stored s :
  registry (fst (save_client_registry s)) = registry s
  /\ client_registry (fst (save_client_registry s)) = client_registry s
  /\ stored_agents (fst (save_client_registry s)) = stored_agents s
  /\ (stored_clients (fst (save_client_registry s)) = stored_clients s
      \/ stored_clients (fst (save_client_registry s))
         = save_client_registry_loop (client_registry s) (client_registry s)
             (stored_clients s)).
Proof.
  unfold save_client_registry, stored_agents, stored_clients.
  destruct (client_registry_col s) as [col|] eqn:E;
    [destruct (TEST_MODE s || negb (USE_MONGO s))|]; cbn; rewrite ?E; auto.
Qed.

(** The directory and the two collections after [delete_agent] on an
    agent of the directory, whatever the reply. *)
Lemma delete_agent_final st id :
  is_agent st id = true -> wf_registry (registry st) = true ->
  let st' := fst (run (delete_agent id) st) in
  exists sm,
    Dict.get "agent_status" (registry st) = Some (JObj sm)
    /\ registry st' = Dict.set "agent_status" (JObj (Dict.pop id sm))
                        (Dict.pop id (registry st))
    /\ (stored_agents st' = stored_agents st
        \/ stored_agents st'
           = save_registry_loop (registry st') (registry st') (stored_agents st))
    /\ (stored_clients st' = stored_clients st
        \/ stored_clients st'
           = save_client_registry_loop (client_registry st') (client_registry st')
               (stored_clients st)).
Proof.
  intros Hag Hwf st'.
  destruct (delete_agent_store st id Hag Hwf) as (sm & s1 & Hsm & Hr1 & Hc1 & Hst).
  exists sm. split; [assumption|]. fold st' in Hst.
  assert (Ha1 : stored_agents s1 = stored_agents st).
  { unfold stored_agents. unfold collections in Hc1. now injection Hc1 as -> _. }
  assert (Hcl1 : stored_clients s1 = stored_clients st).
  { unfold stored_clients. unfold collections in Hc1. now injection Hc1 as _ ->. }
  destruct Hst as [->| ->]; [rewrite Hr1, Ha1, Hcl1; auto|].
  destruct (save_registry_stored s1) as (Hr2 & Hcr2 & Hc2 & Ha2).
  destruct (save_client_registry_stored (fst (save_registry s1)))
    as (Hr3 & Hcr3 & Ha3 & Hc3).
  rewrite Hr3, Hcr3, Ha3, Hr2, Hr1. split; [reflexivity|].
  rewrite Hr1, Ha1 in Ha2. rewrite Hc2, Hcl1 in Hc3. auto.
Qed.

Lemma clean_registry_pop reg sm id :
  clean_registry reg = true -> id <> "agent_status" ->
  Dict.get "agent_status" reg = Some (JObj sm) ->
  clean_registry (Dict.set "agent_status" (JObj (Dict.pop id sm))
                    (Dict.pop id reg)) = true.
Proof.
  intros Hclean Hne Hsm. unfold clean_registry in *.
  apply andb_true_iff in Hclean as [H Hplain].
  apply andb_true_iff in H as [Hwf Hu].
  rewrite Hsm in Hplain. rewrite get_set_same.
  destruct (wf_registry_status_map _ Hwf) as (sm' & Hsm' & Hall).
  rewrite Hsm in Hsm'. injection Hsm' as <-.
  rewrite wf_registry_after_pop by assumption.
  rewrite forallb_pop by assumption. rewrite andb_true_r. cbn [andb].
  apply uniqueb_NoDup. apply NoDup_keys_set, NoDup_keys_pop.
  now apply uniqueb_NoDup.
Qed.

Lemma popped_not_in reg sm id :
  id <> "agent_status" ->
  ~ In id (Dict.keys (Dict.set "agent_status" (JObj (Dict.pop id sm))
                        (Dict.pop id reg))).
Proof.
  intros Hne. apply get_none_not_in.
  rewrite get_set_other by auto. apply get_pop_same.
Qed.

(** X20.  [delete_agent] removes nothing from the store, whatever the
    cache and whatever it replies.  On a cache as the handlers build it,
    the document found under the deleted id in the agents collection is
    the same after the request as before, and so is the stored alias
    document of every name that is not in the client map afterwards, the
    cascaded aliases among them. *)
Theorem delete_keeps_removed_documents st id :
  clean_registry (registry st) = true ->
  let st' := fst (run (delete_agent id) st) in
  find_one "agent_id" id (stored_agents st')
  = find_one "agent_id" id (stored_agents st)
  /\ (forall c, Dict.get c (client_registry st') = None ->
        find_one "client_name" c (stored_clients st')
        = find_one "client_name" c (stored_clients st)).
Proof.
  intros Hclean st'. destruct (is_agent st id) eqn:Hag.
  - destruct (clean_registry_parts _ Hclean) as (Hwf & _ & _).
    destruct (is_agent_get _ _ Hag) as [Hne _].
    destruct (delete_agent_final st id Hag Hwf) as (sm & Hsm & Hreg & Ha & Hc).
    fold st' in Hreg, Ha, Hc. split.
    + destruct Ha as [-> | ->]; [reflexivity|].
      apply save_registry_loop_other.
      * rewrite Hreg. now apply clean_registry_pop.
      * rewrite Hreg. now apply popped_not_in.
    + intros c Hnone. destruct Hc as [-> | ->]; [reflexivity|].
      apply save_client_registry_loop_other. now apply get_none_not_in.
  - unfold st'. rewrite delete_agent_not_found by assumption. auto.
Qed.

Lemma delete_keeps_removed_documents_witness :
  let st' := fst (run (delete_agent "a1") persisted_state) in
  find_one "agent_id" "a1" (stored_agents st')
  = find_one "agent_id" "a1" (stored_agents persisted_state)
  /\ find_one "client_name" "c1" (stored_clients st')
     = find_one "client_name" "c1" (stored_clients persisted_state).
Proof.
  cbv zeta.
  destruct (delete_keeps_removed_documents persisted_state "a1" eq_refl)
    as [Ha Hc].
  split; [exact Ha|]. apply Hc. reflexivity.
Defined.

(** X21.  A deleted agent is back after a restart.  When the store
    holds a document for an agent of the directory, [delete_agent] makes
    [get_agent] reply not found in the running process, but the process
    started next over the same store has the agent again, with the view
    loaded from that document. *)
Theorem deleted_agent_returns_at_restart st id doc :
  clean_registry (registry st) = true ->
  loadable_store (stored_agents st) (stored_clients st) = true ->
  is_agent st id = true -> id <> "" ->
  find_one "agent_id" id (stored_agents st) = Some doc ->
  let st' := fst (run (delete_agent id) st) in
  get_agent st' id = NotFound not_found_body
  /\ exists st'',
       restart st' = Some st''
       /\ get_agent st'' id = Success (loaded_view id doc).
Proof.
  intros Hclean Hload Hag Hne' Hfind st'.
  destruct (clean_registry_parts _ Hclean) as (Hwf & _ & _).
  destruct (is_agent_get _ _ Hag) as [Hne _].
  destruct (delete_agent_final st id Hag Hwf) as (sm & Hsm & Hreg & Ha & Hc).
  fold st' in Hreg, Ha, Hc.
  assert (Hclean' : clean_registry (registry st') = true).
  { rewrite Hreg. now apply clean_registry_pop. }
  destruct (clean_registry_parts _ Hclean') as (Hwf' & _ & _).
  split.
  { rewrite get_agent_wf by assumption. unfold is_agent, Dict.mem.
    now rewrite Hreg, get_set_other, get_pop_same by auto. }
  unfold loadable_store in Hload.
  apply andb_true_iff in Hload as [H Hcu]. apply andb_true_iff in H as [H Hcl].
  apply andb_true_iff in H as [Hal Hau].
  apply uniqueb_NoDup in Hau, Hcu.
  assert (Hfind' : find_one "agent_id" id (stored_agents st') = Some doc).
  { destruct Ha as [-> | ->]; [assumption|].
    rewrite save_registry_loop_other; [assumption|assumption|].
    rewrite Hreg. now apply popped_not_in. }
  assert (Hload' : loadable_store (stored_agents st') (stored_clients st') = true).
  { unfold loadable_store.
    assert (Hagents :
      forallb (loadable_doc "agent_id" "agent_status") (stored_agents st') = true
      /\ NoDup (doc_ids "agent_id" (stored_agents st'))).
    { destruct Ha as [-> | ->]; [auto|].
      now apply save_registry_loop_loadable. }
    assert (Hclients :
      forallb (loadable_doc "client_name" "agent_map") (stored_clients st') = true
      /\ NoDup (doc_ids "client_name" (stored_clients st'))).
    { destruct Hc as [-> | ->]; [auto|].
      now apply save_client_registry_loop_loadable. }
    destruct Hagents as [H1 H2], Hclients as [H3 H4].
    apply uniqueb_NoDup in H2, H4. now rewrite H1, H2, H3, H4. }
  destruct (startup_loadable _ _ Hload')
    as (st'' & sm'' & am'' & Hst & Hsm'' & _ & Hwf'' & Hdocs & _).
  exists st''. split; [exact Hst|].
  assert (Hin : In doc (stored_agents st')).
  { exact (proj1 (find_some _ _ Hfind')). }
  assert (Hdid : doc_id "agent_id" doc = Some id).
  { apply doc_id_matches; [assumption|]. exact (proj2 (find_some _ _ Hfind')). }
  destruct (Hdocs doc id Hin Hdid) as [Hu'' Hrec''].
  rewrite get_agent_wf by assumption.
  unfold is_agent, Dict.mem. rewrite Hu''.
  apply String.eqb_neq in Hne. rewrite Hne. cbn [negb andb].
  now rewrite (full_view_loaded _ sm'' id doc _ Hsm'' Hrec'' Hu'').
Qed.

Lemma deleted_agent_returns_at_restart_witness :
  let st' := fst (run (delete_agent "a1") persisted_state) in
  get_agent st' "a1" = NotFound not_found_body
  /\ exists st'',
       restart st' = Some st''
       /\ get_agent st'' "a1" = get_agent persisted_state "a1".
Proof.
  exact (deleted_agent_returns_at_restart persisted_state "a1"
           [("agent_id", JStr "a1"); ("agent_url", JStr "http://a");
            ("alive", JBool false); ("assigned_to", JNull);
            ("api_url", JNull); ("description", JStr "");
            ("last_update", JStr "t0")]
           eq_refl eq_refl eq_refl ltac:(discriminate) eq_refl).
Defined.

(** ** The cache invariant *)

Lemma plain_record_set so k v :
  k <> "agent_id" -> k <> "agent_url" ->
  plain_record (JObj so) = true -> plain_record (JObj (Dict.set k v so)) = true.
Proof.
  intros H1 H2 H. cbn in *.
  apply andb_true_iff in H as [H Hu]. apply andb_true_iff in H as [Hi Hl].
  rewrite !mem_set_other by auto. rewrite Hi, Hl. cbn [andb].
  apply uniqueb_NoDup. apply NoDup_keys_set. now apply uniqueb_NoDup.
Qed.

Lemma plain_merge_field_dict data key guard conv so :
  key <> "agent_id" -> key <> "agent_url" ->
  plain_record (JObj so) = true ->
  plain_record (JObj (merge_field_dict data key guard conv so)) = true.
Proof.
  intros H1 H2 H. unfold merge_field_dict.
  destruct (Dict.get key data) as [v|]; [|assumption].
  destruct (guard v); [|assumption]. now apply plain_record_set.
Qed.

Lemma plain_merged_status now data so :
  plain_record (JObj so) = true ->
  plain_record (JObj (merged_status now data so)) = true.
Proof.
  intros H. unfold merged_status.
  repeat first [ apply plain_merge_field_dict; [discriminate|discriminate|]
               | apply plain_record_set; [discriminate|discriminate|] ].
  exact H.
Qed.

Lemma clean_registry_status_plain reg id :
  clean_registry reg = true -> plain_record (JObj (status_of reg id)) = true.
Proof.
  intros H. destruct (clean_registry_parts _ H) as (_ & _ & Hst).
  destruct (Hst id) as (Hi & Hu & Hk). cbn. unfold Dict.mem.
  rewrite Hi, Hu. cbn. now apply uniqueb_NoDup.
Qed.

Lemma clean_registry_set_status reg sm id rec :
  clean_registry reg = true ->
  Dict.get "agent_status" reg = Some (JObj sm) ->
  wf_status_obj rec = true -> plain_record rec = true ->
  clean_registry (Dict.set "agent_status" (JObj (Dict.set id rec sm)) reg) = true.
Proof.
  intros Hclean Hsm Hwr Hpr. unfold clean_registry in *.
  apply andb_true_iff in Hclean as [H Hplain].
  apply andb_true_iff in H as [Hwf Hu].
  rewrite Hsm in Hplain. rewrite get_set_same.
  destruct (wf_registry_status_map _ Hwf) as (sm' & Hsm' & Hall).
  rewrite Hsm in Hsm'. injection Hsm' as <-.
  rewrite wf_registry_set_status; auto.
  rewrite forallb_set by assumption. rewrite andb_true_r. cbn [andb].
  apply uniqueb_NoDup. apply NoDup_keys_set. now apply uniqueb_NoDup.
Qed.

Lemma request_step_preserves_clean st st' :
  request_step st st' ->
  clean_registry (registry st) = true -> clean_registry (registry st') = true.
Proof.
  intros Hstep Hclean. destruct (clean_registry_parts _ Hclean) as (Hwf & _ & _).
  destruct Hstep as [now d Hd|now|now id data|id].
  - destruct (body_agent_id d) as [id|] eqn:Hid;
      [|unfold run, register; now rewrite Hid].
    assert (Hne : id <> "agent_status") by congruence.
    destruct (body_agent_url d) as [url|] eqn:Hurl;
      [|unfold run, register; now rewrite Hid, Hurl].
    destruct (register_run now d id url st Hid Hurl Hne Hwf)
      as (st1 & sm & Hrun & Hsm & Hreg & _).
    rewrite Hrun. cbn [fst]. rewrite Hreg.
    now apply clean_registry_set.
  - exact Hclean.
  - destruct (is_agent st id) eqn:Hag;
      [|now rewrite update_agent_status_not_found].
    destruct (update_agent_status_run now id data st Hag Hwf)
      as (st1 & sm & Hrun & Hsm & Hreg & _ & _).
    rewrite Hrun. cbn [fst]. rewrite Hreg.
    apply clean_registry_set_status; auto.
    + apply wf_merged_status. now destruct (wf_status_of _ id Hwf).
    + apply plain_merged_status. now apply clean_registry_status_plain.
  - destruct (is_agent st id) eqn:Hag; [|now rewrite delete_agent_not_found].
    destruct (is_agent_get _ _ Hag) as [Hne _].
    destruct (delete_agent_final st id Hag Hwf) as (sm & Hsm & Hreg & _).
    rewrite Hreg. now apply clean_registry_pop.
Qed.

(** The loop of lines 53-64 keeps the cache clean, as long as no document
    is filed under the reserved key. *)
Lemma load_agents_loop_clean docs : forall reg reg',
  no_reserved_doc "agent_id" "agent_status" docs = true ->
  clean_registry reg = true ->
  load_agents_loop docs reg = Some reg' ->
  clean_registry reg' = true.
Proof.
  induction docs as [|doc docs IH]; intros reg reg' Hres Hclean Hload.
  - cbn in Hload. now injection Hload as <-.
  - cbn [no_reserved_doc forallb] in Hres.
    apply andb_true_iff in Hres as [Hdoc Hres].
    fold (no_reserved_doc "agent_id" "agent_status" docs) in Hres.
    cbn [load_agents_loop] in Hload.
    destruct (negb (truthy (Dict.get_or "agent_id" JNull doc))); [eauto|].
    destruct (Dict.get_or "agent_id" JNull doc) as [| | |id| |] eqn:Eid;
      try discriminate Hload; try (injection Hload as <-; assumption).
    cbn in Hdoc. apply negb_true_iff in Hdoc.
    assert (Hne : id <> "agent_status") by now apply String.eqb_neq.
    destruct (clean_registry_parts _ Hclean) as (Hwf & _ & _).
    destruct (wf_registry_status_map _ Hwf) as (sm & Hsm & _).
    unfold top_getitem in Hload. rewrite get_set_other, Hsm in Hload by auto.
    cbn in Hload. apply IH in Hload; auto.
    apply clean_registry_set; auto.
Qed.

(** The loop of lines 71-76 keeps the client map clean, as long as no
    document is filed under the reserved key. *)
Lemma load_clients_loop_clean docs : forall creg creg',
  no_reserved_doc "client_name" "agent_map" docs = true ->
  clean_client_registry creg = true ->
  load_clients_loop docs creg = Some creg' ->
  clean_client_registry creg' = true.
Proof.
  induction docs as [|doc docs IH]; intros creg creg' Hres Hclean Hload.
  - cbn in Hload. now injection Hload as <-.
  - cbn [no_reserved_doc forallb] in Hres.
    apply andb_true_iff in Hres as [Hdoc Hres].
    fold (no_reserved_doc "client_name" "agent_map" docs) in Hres.
    cbn [load_clients_loop] in Hload.
    destruct (negb (truthy (Dict.get_or "client_name" JNull doc))); [eauto|].
    destruct (Dict.get_or "client_name" JNull doc) as [| | |name| |] eqn:Eid;
      try discriminate Hload; try (injection Hload as <-; assumption).
    cbn in Hdoc. apply negb_true_iff in Hdoc.
    assert (Hne : name <> "agent_map") by now apply String.eqb_neq.
    unfold clean_client_registry in Hclean.
    destruct (Dict.get "agent_map" creg) as [[| | | | |am]|] eqn:Eam;
      try discriminate Hclean.
    unfold top_getitem in Hload. rewrite get_set_other, Eam in Hload by auto.
    cbn in Hload. apply IH in Hload; auto.
    unfold clean_client_registry. rewrite get_set_same.
    now rewrite mem_set_other by auto.
Qed.

Lemma keeps_for_each_in {A} (I : state -> Prop) (xs : list A) (body : A -> M unit) :
  (forall x, In x xs -> keeps I (body x)) -> keeps I (for_each xs body).
Proof.
  induction xs as [|x xs IH]; intros Hbody; cbn [for_each].
  - apply keeps_ret.
  - apply keeps_bind; [apply Hbody; now left|]. intros _.
    apply IH. intros y Hy. apply Hbody. now right.
Qed.

Lemma remove_alias_clean c :
  c <> "agent_map" ->
  keeps (fun s => clean_client_registry (client_registry s) = true)
    (remove_alias c).
Proof.
  intros Hne s Hs. unfold remove_alias, bind, read, write, lift, ret. cbn.
  unfold clean_client_registry in Hs.
  rewrite get_pop_other by auto.
  destruct (Dict.get "agent_map" (client_registry s)) as [[| | | | |am]|] eqn:Eam;
    try discriminate Hs.
  cbn. unfold clean_client_registry. rewrite get_set_same.
  unfold Dict.mem in *. now rewrite get_pop_other by auto.
Qed.

Lemma delete_agent_clean_clients id :
  keeps (fun s => clean_client_registry (client_registry s) = true)
    (delete_agent id).
Proof.
  set (K := fun s => clean_client_registry (client_registry s) = true).
  assert (Hs1 : keeps K save_registry).
  { intros s H. destruct (save_registry_stored s) as (_ & E & _).
    unfold K. now rewrite E. }
  assert (Hs2 : keeps K save_client_registry).
  { intros s H. destruct (save_client_registry_stored s) as (_ & E & _).
    unfold K. now rewrite E. }
  unfold delete_agent.
  apply (keeps_bind K); [apply keeps_read|intros reg].
  destruct (negb (Dict.mem id reg) || String.eqb id "agent_status");
    [apply keeps_ret|].
  apply (keeps_bind K); [apply keeps_write; auto|intros _].
  apply (keeps_bind K); [apply keeps_read|intros reg'].
  apply (keeps_bind K); [repeat keeps_step|intros _].
  intros s. apply keeps_at_bind; [apply keeps_read|].
  intros creg Hcreg. cbn in Hcreg. injection Hcreg as <-. cbn [fst read].
  intros Hs. pose proof Hs as Hs'. unfold K, clean_client_registry in Hs'.
  revert Hs. unfold Dict.get_or.
  destruct (Dict.get "agent_map" (client_registry s)) as [[| | | | |am]|] eqn:Eam;
    try discriminate Hs'.
  cbn [py_items]. apply keeps_at_bind; [apply keeps_lift|].
  intros items Hitems. cbn in Hitems. injection Hitems as <-. cbn [fst lift].
  assert (Hfor : keeps K (for_each
            (map fst (filter (fun kv => json_eq_str id (snd kv)) am))
            remove_alias)).
  { apply keeps_for_each_in. intros c Hc. apply remove_alias_clean.
    intros ->. apply in_map_iff in Hc as ([c v] & Hfst & Hin).
    cbn in Hfst. subst c. apply filter_In in Hin as [Hin _].
    apply negb_true_iff in Hs'. unfold Dict.mem in Hs'.
    destruct (Dict.get "agent_map" am) eqn:E; [discriminate|].
    apply get_none_not_in in E. apply E. apply in_map_iff.
    now exists ("agent_map", v). }
  assert (Htail : keeps K (for_each
            (map fst (filter (fun kv => json_eq_str id (snd kv)) am))
            remove_alias ;; save_registry ;; save_client_registry ;;
            ret (Success (deleted_body id)))%handler).
  { repeat keeps_step. }
  apply Htail.
Qed.

Lemma request_step_preserves_clean_clients st st' :
  request_step st st' ->
  clean_client_registry (client_registry st) = true ->
  clean_client_registry (client_registry st') = true.
Proof.
  intros Hstep Hclean.
  set (K := fun s => clean_client_registry (client_registry s) = true).
  assert (Hs1 : keeps K save_registry).
  { intros s H. destruct (save_registry_stored s) as (_ & E & _).
    unfold K. now rewrite E. }
  destruct Hstep as [now d Hd|now|now id data|id].
  - apply (keeps_run K); [|exact Hclean]. apply register_keeps; auto.
  - exact Hclean.
  - apply (keeps_run K); [|exact Hclean]. apply update_agent_status_keeps; auto.
  - apply (keeps_run K); [|exact Hclean]. apply delete_agent_clean_clients.
Qed.

(** X22.  The cache invariant.  Every state a process reaches -- by
    start-up over a store with no document under a reserved key, then by
    any sequence of requests to [register] (with a string id other than
    the reserved one), [update_agent_status] (with an object body) and
    [delete_agent] -- has a clean cache: the status sub-map is a
    dictionary of records whose capabilities and tags are lists when
    present and that carry no agent_id or agent_url field of their own,
    and the alias map is a dictionary with no alias named like its own
    key. *)
Theorem reachable_cache_is_clean st :
  reachable st -> clean_cache st = true.
Proof.
  unfold clean_cache.
  induction 1 as [tm mongo st Hres Hst|st st' _ IH Hstep].
  - unfold startup in Hst. destruct tm; [now injection Hst as <-|].
    destruct mongo as [[agents clients]|]; [|now injection Hst as <-].
    cbn in Hres. apply andb_true_iff in Hres as [Hra Hrc].
    destruct (load_agents_loop agents initial_registry) as [reg|] eqn:Hreg;
      [|discriminate].
    destruct (load_clients_loop clients initial_client_registry) as [creg|] eqn:Hcreg;
      [|discriminate].
    injection Hst as <-. cbn [registry client_registry].
    rewrite (load_agents_loop_clean agents initial_registry reg) by auto.
    now rewrite (load_clients_loop_clean clients initial_client_registry creg).
  - apply andb_true_iff in IH as [H1 H2].
    rewrite (request_step_preserves_clean st st') by assumption.
    now rewrite (request_step_preserves_clean_clients st st').
Qed.

Lemma reachable_cache_is_clean_witness : clean_cache announced_state = true.
Proof.
  apply reachable_cache_is_clean.
  apply (reach_request
           (fst (run (register "t0" (request "a1" "http://a")) connected_state))).
  - apply (reach_request connected_state).
    + apply (reach_startup false (Some ([], []))); reflexivity.
    + apply (step_register connected_state "t0"
               (mkBody (Some "a1") (Some (JStr "http://a")) None None)).
      discriminate.
  - exact (step_update _ "t1" "a1"
             [("alive", JBool true); ("capabilities", JList [JStr "x"]);
              ("tags", JList [JStr "z"])]).
Defined.



(** ** Edge cases of the read handlers *)

(** X24.  [lookup] of the name of the alias map's own key raises.  The
    test of line 298 finds the key agent_map in the client dictionary, and
    line 299 then looks the same name up in the alias map, where no alias
    has it: unless an agent is registered under that id the request ends
    in a KeyError, from the first request of a fresh process on. *)
Theorem lookup_of_alias_map_key_raises st :
  clean_client_registry (client_registry st) = true ->
  is_agent st "agent_map" = false ->
  lookup st "agent_map" = Uncaught KeyError.
Proof.
  intros Hcc Hag. unfold lookup. unfold is_agent in Hag. rewrite Hag.
  unfold clean_client_registry in Hcc. unfold Dict.mem, top_getitem in *.
  destruct (Dict.get "agent_map" (client_registry st)) as [[| | | | |am]|];
    try discriminate Hcc.
  cbn. destruct (Dict.get "agent_map" am); [discriminate|reflexivity].
Qed.

Lemma lookup_of_alias_map_key_raises_witness :
  lookup test_mode_state "agent_map" = Uncaught KeyError
  /\ lookup persisted_state "agent_map" = Uncaught KeyError.
Proof.
  split; apply lookup_of_alias_map_key_raises; reflexivity.
Defined.

Lemma filter_all {A} (f : A -> bool) l :
  (forall x, f x = true) -> filter f l = l.
Proof.
  intros H. induction l as [|x l IH]; cbn; [reflexivity|].
  now rewrite H, IH.
Qed.

(** X25.  A search without criteria lists the whole directory.  When
    the query is absent or trims to the empty string and each filter is
    absent or empty, [search_agents] returns the full view of every
    agent, in the order of the directory. *)
Theorem search_without_criteria_lists_all
  (str_lower str_strip : string -> string) st q capabilities tags :
  wf_registry (registry st) = true ->
  str_lower (str_strip (match q with Some s => s | None => "" end)) = "" ->
  capabilities = None \/ capabilities = Some "" ->
  tags = None \/ tags = Some "" ->
  search_agents str_lower str_strip st q capabilities tags
  = Success (JList (map (full_view (registry st)) (agent_ids (registry st)))).
Proof.
  intros Hwf Hq Hc Ht. unfold search_agents.
  rewrite search_loop_law by assumption. cbn [rbind run_pure app].
  fold (agent_ids (registry st)). rewrite filter_all; [reflexivity|].
  intros id. unfold matches, name_matches. rewrite Hq. cbn [String.eqb orb andb].
  destruct Hc as [-> | ->], Ht as [-> | ->]; reflexivity.
Qed.

Lemma search_without_criteria_lists_all_witness :
  search_agents ascii_lower ascii_strip three_agents_state (Some "  ") None (Some "")
  = Success (JList (map (full_view (registry three_agents_state))
                      (agent_ids (registry three_agents_state)))).
Proof.
  apply search_without_criteria_lists_all; auto; reflexivity.
Defined.
